(** * Kinematic calibration example of robot_cal_tools: a shallow embedding

    Sources embedded here:
    - [rct_examples/src/examples/kinematic_calibration.cpp]
      ([loadMeasurements], [createTwoAxisPositioner], [Stats],
      [compareToMeasurements], the mask set-up of [main]);
    - [rct_optimizations/include/rct_optimizations/types.h]
      ([CameraIntrinsics], [Correspondence], [Observation],
      [KinematicObservation], [KinematicMeasurement]);
    - [rct_examples/src/tools/camera_intrinsic_calibration_validation.cpp]
      ([analyzeResults], [get], [main]).

    A C++ [double] is a primitive binary64 float of the kernel, so [+], [-],
    [*], [/] and [sqrt] round exactly as the hardware does (no extended
    precision, no fused multiply-add).

    The libraries the sources call are modelled next to the code that calls
    them, as far as the calls go:
    - Eigen 3.3: [Isometry3d] with [translate], [rotate], product and
      [inverse], [Quaterniond::toRotationMatrix], [isApprox]; sums of
      coefficients are taken from left to right;
    - yaml-cpp 0.6: the non-const [Node] interface ([operator[]], [size],
      [as<double>], iteration) and the text of its exceptions;
    - Boost.Accumulators: count, sum, mean and the iterative variance.
    The functions of libm, the text-to-number conversion of yaml-cpp, and
    the target finder, the OpenCV window and the ROS node of the validation
    tool are interfaces (type classes).

    [dh_chain.h] and the optimizer of [rct_optimizations] are not among the
    sources; what the sources call of them is modelled from the
    specification of the repository, and marked so. *)

Set Warnings "-register-all,-stdlib-vector,-inexact-float".
From Stdlib Require Import Reals Lra.
From Stdlib Require Import Floats ZArith List String Bool Lia.
From Stdlib Require Import DecimalString Ascii.
From Stdlib Require Vector.
Import ListNotations.

Local Open Scope list_scope.

(** ** Failure monad: a C++ function that may throw an exception of type [E]. *)

Inductive except (E A : Type) : Type :=
| Throw (e : E)
| Return (a : A).
Arguments Throw {E A} e.
Arguments Return {E A} a.

Definition bind {E A B} (c : except E A) (k : A -> except E B) : except E B :=
  match c with
  | Throw e => Throw e
  | Return a => k a
  end.

Notation "x <- c ;; k" := (bind c (fun x => k))
  (at level 61, c at next level, right associativity).

(** [for (x : xs) { ... }] where the body may throw: the first exception
    leaves the loop. *)
Fixpoint mapM {E A B} (f : A -> except E B) (xs : list A) : except E (list B) :=
  match xs with
  | [] => Return []
  | x :: rest =>
      y <- f x ;;
      ys <- mapM f rest ;;
      Return (y :: ys)
  end.

(** ** Eigen: the fixed-size geometry used by the sources *)

Module Eigen.

Record Vector3d := mkV3 { vx : float; vy : float; vz : float }.

Record Matrix3d := mkM3 {
  m00 : float; m01 : float; m02 : float;
  m10 : float; m11 : float; m12 : float;
  m20 : float; m21 : float; m22 : float }.

(** [Eigen::Quaterniond(w, x, y, z)]: the constructor stores its four
    arguments, it does not normalise them. *)
Record Quaterniond := mkQuat { qw : float; qx : float; qy : float; qz : float }.

(** [Eigen::Isometry3d]: a linear part and a translation (the last row of
    the 4x4 matrix is the constant 0 0 0 1). *)
Record Isometry3d := mkIso { linear : Matrix3d; translation : Vector3d }.

Definition Matrix3d_Identity : Matrix3d := mkM3 1 0 0 0 1 0 0 0 1.

Definition Isometry3d_Identity : Isometry3d :=
  mkIso Matrix3d_Identity (mkV3 0 0 0).

(** Coefficient of a 3-term product: the sum is taken left to right. *)
Definition dot3 (a0 b0 a1 b1 a2 b2 : float) : float :=
  (a0 * b0 + a1 * b1 + a2 * b2)%float.

Definition mulMV (a : Matrix3d) (v : Vector3d) : Vector3d :=
  mkV3 (dot3 (m00 a) (vx v) (m01 a) (vy v) (m02 a) (vz v))
       (dot3 (m10 a) (vx v) (m11 a) (vy v) (m12 a) (vz v))
       (dot3 (m20 a) (vx v) (m21 a) (vy v) (m22 a) (vz v)).

Definition mulMM (a b : Matrix3d) : Matrix3d :=
  mkM3 (dot3 (m00 a) (m00 b) (m01 a) (m10 b) (m02 a) (m20 b))
       (dot3 (m00 a) (m01 b) (m01 a) (m11 b) (m02 a) (m21 b))
       (dot3 (m00 a) (m02 b) (m01 a) (m12 b) (m02 a) (m22 b))
       (dot3 (m10 a) (m00 b) (m11 a) (m10 b) (m12 a) (m20 b))
       (dot3 (m10 a) (m01 b) (m11 a) (m11 b) (m12 a) (m21 b))
       (dot3 (m10 a) (m02 b) (m11 a) (m12 b) (m12 a) (m22 b))
       (dot3 (m20 a) (m00 b) (m21 a) (m10 b) (m22 a) (m20 b))
       (dot3 (m20 a) (m01 b) (m21 a) (m11 b) (m22 a) (m21 b))
       (dot3 (m20 a) (m02 b) (m21 a) (m12 b) (m22 a) (m22 b)).

Definition transpose (a : Matrix3d) : Matrix3d :=
  mkM3 (m00 a) (m10 a) (m20 a)
       (m01 a) (m11 a) (m21 a)
       (m02 a) (m12 a) (m22 a).

Definition addV (u v : Vector3d) : Vector3d :=
  mkV3 (vx u + vx v) (vy u + vy v) (vz u + vz v).

Definition negM (a : Matrix3d) : Matrix3d :=
  mkM3 (- m00 a) (- m01 a) (- m02 a)
       (- m10 a) (- m11 a) (- m12 a)
       (- m20 a) (- m21 a) (- m22 a).

(** [v.norm()] is [sqrt(v.squaredNorm())]. *)
Definition norm (v : Vector3d) : float :=
  PrimFloat.sqrt (vx v * vx v + vy v * vy v + vz v * vz v).

(** [QuaternionBase::toRotationMatrix]: the twelve products of Eigen's
    implementation; nothing divides by the norm. *)
Definition toRotationMatrix (q : Quaterniond) : Matrix3d :=
  let tx := (2 * qx q)%float in
  let ty := (2 * qy q)%float in
  let tz := (2 * qz q)%float in
  let twx := (tx * qw q)%float in
  let twy := (ty * qw q)%float in
  let twz := (tz * qw q)%float in
  let txx := (tx * qx q)%float in
  let txy := (ty * qx q)%float in
  let txz := (tz * qx q)%float in
  let tyy := (ty * qy q)%float in
  let tyz := (tz * qy q)%float in
  let tzz := (tz * qz q)%float in
  mkM3 (1 - (tyy + tzz)) (txy - twz) (txz + twy)
       (txy + twz) (1 - (txx + tzz)) (tyz - twx)
       (txz - twy) (tyz + twx) (1 - (txx + tyy)).

(** [T.translate(v)]: [translation += linear * v]. *)
Definition translate (t : Isometry3d) (v : Vector3d) : Isometry3d :=
  mkIso (linear t) (addV (translation t) (mulMV (linear t) v)).

(** [T.rotate(R)] for a rotation given as a matrix: [linear *= R]. *)
Definition rotateM (t : Isometry3d) (r : Matrix3d) : Isometry3d :=
  mkIso (mulMM (linear t) r) (translation t).

(** [T.rotate(q)] for a quaternion. *)
Definition rotate (t : Isometry3d) (q : Quaterniond) : Isometry3d :=
  rotateM t (toRotationMatrix q).

(** [A * B] of two isometries. *)
Definition compose (a b : Isometry3d) : Isometry3d :=
  mkIso (mulMM (linear a) (linear b))
        (addV (mulMV (linear a) (translation b)) (translation a)).

(** [T.inverse()] in [Isometry] mode: the linear part is transposed. *)
Definition inverse (t : Isometry3d) : Isometry3d :=
  let lt := transpose (linear t) in
  mkIso lt (mulMV (negM lt) (translation t)).

(** [v.sum()] of a coefficient list: the reduction starts from the first
    coefficient; the empty sum is zero. *)
Definition sum (xs : list float) : float :=
  match xs with
  | [] => 0%float
  | x :: rest => fold_left PrimFloat.add rest x
  end.

Definition cwiseAbs2 (xs : list float) : list float :=
  map (fun x => (x * x)%float) xs.

Fixpoint cwiseSub (xs ys : list float) : list float :=
  match xs, ys with
  | x :: xs', y :: ys' => (x - y)%float :: cwiseSub xs' ys'
  | _, _ => []
  end.

(** [numext::mini(x, y)] is [(y < x) ? y : x]. *)
Definition mini (x y : float) : float :=
  if PrimFloat.ltb y x then y else x.

(** [NumTraits<double>::dummy_precision()]: the double nearest to 1e-12. *)
Definition dummy_precision : float := 0x1.19799812dea11p-40%float.

(** [a.isApprox(b)] on coefficient lists of one size:
    [(a - b).cwiseAbs2().sum() <= prec * prec * min(a.cwiseAbs2().sum(),
    b.cwiseAbs2().sum())]. *)
Definition isApproxCoeffs (a b : list float) : bool :=
  PrimFloat.leb
    (sum (cwiseAbs2 (cwiseSub a b)))
    (dummy_precision * dummy_precision
     * mini (sum (cwiseAbs2 a)) (sum (cwiseAbs2 b)))%float.

(** [Eigen::VectorXd]: a vector whose size is known at run time. *)
Definition VectorXd := list float.

(** [a.isApprox(b)] for two [VectorXd]: comparing vectors of different
    sizes violates the precondition of the coefficient-wise difference (an
    assertion failure); that case is [None]. *)
Definition isApprox (a b : VectorXd) : option bool :=
  if Nat.eqb (List.length a) (List.length b) then Some (isApproxCoeffs a b) else None.

End Eigen.

(** ** yaml-cpp: the node API that [loadMeasurements] calls

    A loaded document is a tree of nodes.  The calls of the source go
    through the non-const [Node] interface (an iterator hands out a [Node]
    by value), in which [operator[]] on a missing key returns a valid node
    that is not yet defined, instead of throwing. *)

Module YAML.

(** [YAML::Mark]: the position of a node in the file, counted from zero;
    [null_mark] is the position of a node that is not in the file. *)
Inductive Mark :=
| null_mark
| at_ (line column : nat).

Inductive Node :=
| Undefined
| Null (m : Mark)
| Scalar (m : Mark) (text : string)
| Sequence (m : Mark) (items : list Node)
| Map (m : Mark) (entries : list (Node * Node)).

(** The exceptions derived from [YAML::Exception] that loading and reading
    a document can raise. *)
Inductive Exception :=
| BadFile
| ParserException (m : Mark) (msg : string)
| TypedBadConversion (m : Mark)
| BadSubscript
| InvalidNode.

Definition decimal (n : nat) : string :=
  NilEmpty.string_of_uint (Nat.to_uint n).

(** [Exception::build_what]: the position is printed, counted from one,
    unless the mark is the null mark. *)
Definition build_what (m : Mark) (msg : string) : string :=
  match m with
  | null_mark => msg
  | at_ l c =>
      "yaml-cpp: error at line " ++ decimal (l + 1) ++ ", column "
        ++ decimal (c + 1) ++ ": " ++ msg
  end%string.

Definition what (ex : Exception) : string :=
  match ex with
  | BadFile => build_what null_mark "bad file"
  | ParserException m msg => build_what m msg
  | TypedBadConversion m => build_what m "bad conversion"
  | BadSubscript => build_what null_mark "operator[] call on a scalar"
  | InvalidNode =>
      build_what null_mark
        "invalid node; this may result from using a map iterator as a sequence iterator, or vice-versa"
  end.

(** [convert<double>::decode] and [convert<std::size_t>::decode] on the
    text of a scalar: the stream extraction of the C++ library. *)
Class Convert := {
  decode_double : string -> option float;
  decode_index : string -> option nat }.

Definition Mark_of (n : Node) : Mark :=
  match n with
  | Undefined => null_mark
  | Null m | Scalar m _ | Sequence m _ | Map m _ => m
  end.

(** [node.size()]. *)
Definition size (n : Node) : nat :=
  match n with
  | Sequence _ items => List.length items
  | Map _ entries => List.length entries
  | _ => 0
  end.

(** The first entry of a map whose key satisfies [p]; a node that is not
    defined when there is none. *)
Fixpoint find_entry (p : Node -> bool) (entries : list (Node * Node)) : Node :=
  match entries with
  | [] => Undefined
  | (k, v) :: rest => if p k then v else find_entry p rest
  end.

(** [node::equals(key)]: the key node is decoded at the type of [key] and
    compared; a key node that is not a scalar equals nothing. *)
Definition equals_string (key : string) (k : Node) : bool :=
  match k with
  | Scalar _ text => String.eqb text key
  | _ => false
  end.

Definition equals_index `{Convert} (key : nat) (k : Node) : bool :=
  match k with
  | Scalar _ text =>
      match decode_index text with
      | Some j => Nat.eqb j key
      | None => false
      end
  | _ => false
  end.

(** A sequence subscripted by a key that is not an index is first turned
    into a map from its positions. *)
Definition convert_sequence_to_map (items : list Node) : list (Node * Node) :=
  combine (map (fun i => Scalar null_mark (decimal i)) (seq 0 (List.length items)))
          items.

(** [node[key]] for a string [key]. *)
Definition subscript (n : Node) (key : string) : except Exception Node :=
  match n with
  | Scalar _ _ => Throw BadSubscript
  | Map _ entries => Return (find_entry (equals_string key) entries)
  | Sequence _ items =>
      Return (find_entry (equals_string key) (convert_sequence_to_map items))
  | Null _ | Undefined => Return Undefined
  end.

(** [node[i]] for a [std::size_t] index [i]. *)
Definition at_index `{Convert} (n : Node) (i : nat) : except Exception Node :=
  match n with
  | Scalar _ _ => Throw BadSubscript
  | Sequence _ items => Return (nth i items Undefined)
  | Map _ entries => Return (find_entry (equals_index i) entries)
  | Null _ | Undefined => Return Undefined
  end.

(** [node.as<double>()]. *)
Definition as_double `{Convert} (n : Node) : except Exception float :=
  match n with
  | Scalar m text =>
      match decode_double text with
      | Some d => Return d
      | None => Throw (TypedBadConversion m)
      end
  | _ => Throw (TypedBadConversion (Mark_of n))
  end.

(** [it->second] for each step of [for (it = n.begin(); it != n.end(); ++it)]:
    the value of each entry of a map; over a sequence the iterator has no
    [second], the node it hands out is invalid ([None]); every other node
    has no elements. *)
Definition seconds (n : Node) : list (option Node) :=
  match n with
  | Map _ entries => map (fun e => Some (snd e)) entries
  | Sequence _ items => map (fun _ => None) items
  | _ => []
  end.

(** [operator[]] on what an iterator handed out. *)
Definition subscript_second (second : option Node) (key : string)
  : except Exception Node :=
  match second with
  | None => Throw InvalidNode
  | Some n => subscript n key
  end.

End YAML.

(** ** rct_optimizations/types.h *)

Module rct_optimizations.

Import Eigen.

(** [Correspondence<IMAGE_DIM, WORLD_DIM>]. *)
Record Correspondence (IMAGE_DIM WORLD_DIM : nat) := mkCorrespondence {
  in_image : Vector.t float IMAGE_DIM;
  in_target : Vector.t float WORLD_DIM }.
Arguments mkCorrespondence {IMAGE_DIM WORLD_DIM} _ _.
Arguments in_image {IMAGE_DIM WORLD_DIM} _.
Arguments in_target {IMAGE_DIM WORLD_DIM} _.

(** [Correspondence::operator==]. *)
Definition Correspondence_eq {N M} (lhs rhs : Correspondence N M) : bool :=
  isApproxCoeffs (Vector.to_list (in_image lhs)) (Vector.to_list (in_image rhs))
  && isApproxCoeffs (Vector.to_list (in_target lhs)) (Vector.to_list (in_target rhs)).

(** [operator==] of [std::vector]: equal sizes and equal elements. *)
Fixpoint vector_eq {A} (eq : A -> A -> bool) (xs ys : list A) : bool :=
  match xs, ys with
  | [], [] => true
  | x :: xs', y :: ys' => eq x y && vector_eq eq xs' ys'
  | _, _ => false
  end.

(** [KinematicObservation<IMAGE_DIM, WORLD_DIM>]. *)
Record KinematicObservation (IMAGE_DIM WORLD_DIM : nat) := mkKinematicObservation {
  correspondence_set : list (Correspondence IMAGE_DIM WORLD_DIM);
  ko_camera_chain_joints : VectorXd;
  ko_target_chain_joints : VectorXd }.
Arguments mkKinematicObservation {IMAGE_DIM WORLD_DIM} _ _ _.
Arguments correspondence_set {IMAGE_DIM WORLD_DIM} _.
Arguments ko_camera_chain_joints {IMAGE_DIM WORLD_DIM} _.
Arguments ko_target_chain_joints {IMAGE_DIM WORLD_DIM} _.

(** [a && b] of C++ on outcomes that may be undefined: [b] is evaluated
    only when [a] is true. *)
Definition and_then (a : option bool) (b : option bool) : option bool :=
  match a with
  | Some true => b
  | other => other
  end.

(** [KinematicObservation::operator==]: the last conjunct is
    [correspondence_set == correspondence_set], both sides the member of
    the left operand. *)
Definition KinematicObservation_eq {N M} (lhs rhs : KinematicObservation N M)
  : option bool :=
  and_then (isApprox (ko_camera_chain_joints lhs) (ko_camera_chain_joints rhs))
    (and_then (isApprox (ko_target_chain_joints lhs) (ko_target_chain_joints rhs))
       (Some (vector_eq Correspondence_eq
                (correspondence_set lhs) (correspondence_set lhs)))).

(** [KinematicMeasurement]. *)
Record KinematicMeasurement := mkKinematicMeasurement {
  camera_to_target : Isometry3d;
  camera_chain_joints : VectorXd;
  target_chain_joints : VectorXd }.

End rct_optimizations.

(** ** rct_optimizations/dh_chain.h

    The header is not among the sources; its callers are
    ([createTwoAxisPositioner], [compareToMeasurements], [main]). *)

Module DH.

Import Eigen.

(** The four link parameters of a segment ("two angles, two lengths"), in
    the order [createTwoAxisPositioner] writes them: [p << d, theta, r,
    alpha]. *)
Record Vector4d := mkV4 { d : float; theta : float; r : float; alpha : float }.

(** Modelled from the spec: the joint types, "enumeration {REVOLUTE,
    PRISMATIC}", missing with [dh_chain.h]; the sources name [REVOLUTE]. *)
Inductive DHJointType := REVOLUTE | PRISMATIC.

(** [DHTransform]: what [createTwoAxisPositioner] passes to the constructor
    and the two limits it assigns. *)
Record DHTransform := mkDHTransform {
  params : Vector4d;
  type : DHJointType;
  name : string;
  max : float;
  min : float }.

Record DHChain := mkDHChain {
  transforms : list DHTransform;
  base_offset : Isometry3d }.

(** Modelled from the spec: [DHChain::dof], missing with [dh_chain.h].
    "Degrees of freedom = sequence length". *)
Definition dof (chain : DHChain) : nat := List.length (transforms chain).

(** Modelled from the spec: "the canonical 4-parameter rigid transform built
    from the segment's LinkParameters", missing with [dh_chain.h].  The
    spec gives no formula for it; it stays an interface. *)
Class LinkGeometry := {
  canonicalTransform : Vector4d -> Isometry3d }.

(** Modelled from the spec: the live parameter of a segment, missing with
    [dh_chain.h].  "One of the four is overridden by the live joint value
    (for REVOLUTE, the angle component; for PRISMATIC, the length
    component)"; the joint angle is [theta], the joint length is [d]. *)
Definition withJointValue (t : DHTransform) (joint_value : float) : Vector4d :=
  match type t with
  | REVOLUTE => mkV4 (d (params t)) joint_value (r (params t)) (alpha (params t))
  | PRISMATIC => mkV4 joint_value (theta (params t)) (r (params t)) (alpha (params t))
  end.

(** Modelled from the spec: [DHChain::getFK], missing with [dh_chain.h].
    "Composes, in segment order, the base offset with each segment's
    per-joint transform; each per-joint transform is the canonical
    4-parameter rigid transform built from the segment's LinkParameters
    with the live parameter substituted by the corresponding entry of
    jointValues"; the limits [min] and [max] are not read. *)
Definition getFK `{LinkGeometry} (chain : DHChain) (joint_values : VectorXd)
  : Isometry3d :=
  fold_left
    (fun transform sq =>
       compose transform (canonicalTransform (withJointValue (fst sq) (snd sq))))
    (combine (transforms chain) joint_values)
    (base_offset chain).

Definition addV4 (p o : Vector4d) : Vector4d :=
  mkV4 (d p + d o) (theta p + theta o) (r p + r o) (alpha p + alpha o).

(** [Eigen::MatrixX4d]: one row of four offsets per segment. *)
Definition MatrixX4d := list Vector4d.

Inductive DimensionMismatch := mkDimensionMismatch (rows expected : nat).

(** Modelled from the spec: the chain that [DHChain(chain, offsets)] builds,
    missing with [dh_chain.h].  "A new chain whose every segment's
    LinkParameters are the nominal values plus the corresponding row of
    offsetMatrix; the base offset transform is unchanged." *)
Definition applyOffsets (chain : DHChain) (offsets : MatrixX4d) : DHChain :=
  mkDHChain
    (map (fun to => mkDHTransform (addV4 (params (fst to)) (snd to))
                      (type (fst to)) (name (fst to))
                      (max (fst to)) (min (fst to)))
         (combine (transforms chain) offsets))
    (base_offset chain).

(** Modelled from the spec: the constructor [DHChain(chain, offsets)],
    missing with [dh_chain.h].  "Fails with a dimension-mismatch error if
    offsetMatrix row count differs from the chain DOF." *)
Definition withOffsets (chain : DHChain) (offsets : MatrixX4d)
  : except DimensionMismatch DHChain :=
  if Nat.eqb (List.length offsets) (dof chain)
  then Return (applyOffsets chain offsets)
  else Throw (mkDimensionMismatch (List.length offsets) (dof chain)).

End DH.

(** ** Boost.Accumulators: [accumulator_set<Sample, stats<tag::mean, tag::variance>>]

    The two features asked for bring in [tag::count] and [tag::sum].
    [tag::mean] is the sum divided by the count; [tag::variance] is the
    iterative variance, updated at every sample from the mean of the
    samples so far. *)

Module accumulators.

(** The arithmetic of the sample type; a count enters it through the
    conversion of [std::size_t]. *)
Class Sample (T : Type) := {
  zero : T;
  add : T -> T -> T;
  sub : T -> T -> T;
  mul : T -> T -> T;
  div : T -> T -> T;
  of_count : nat -> T }.

(** A [std::size_t] count as a [double]. *)
Definition double_of_count (n : nat) : float :=
  PrimFloat.of_uint63 (Uint63.of_Z (Z.of_nat n)).

#[global] Instance double_Sample : Sample float := {
  zero := 0%float;
  add := PrimFloat.add;
  sub := PrimFloat.sub;
  mul := PrimFloat.mul;
  div := PrimFloat.div;
  of_count := double_of_count }.

Record accumulator_set (T : Type) := mkAcc {
  count : nat;
  sum : T;
  variance : T }.
Arguments mkAcc {T} _ _ _.
Arguments count {T} _.
Arguments sum {T} _.
Arguments variance {T} _.

(** A fresh set: no sample, the sum at zero, the variance at
    [fdiv(Sample(), 1)]. *)
Definition empty {T} `{Sample T} : accumulator_set T :=
  mkAcc 0 zero (div zero (of_count 1)).

(** [mean(acc)]: the sum divided by the count. *)
Definition mean {T} `{Sample T} (acc : accumulator_set T) : T :=
  div (sum acc) (of_count (count acc)).

(** [acc(x)]: count and sum first; then, from the second sample on,
    [tmp = x - mean(acc)] and
    [variance = fdiv(variance * (cnt - 1), cnt) + fdiv(tmp * tmp, cnt - 1)]. *)
Definition push {T} `{Sample T} (acc : accumulator_set T) (x : T)
  : accumulator_set T :=
  let cnt := S (count acc) in
  let counted := mkAcc cnt (add (sum acc) x) (variance acc) in
  if Nat.ltb 1 cnt then
    let tmp := sub x (mean counted) in
    mkAcc cnt (sum counted)
          (add (div (mul (variance acc) (of_count (cnt - 1))) (of_count cnt))
               (div (mul tmp tmp) (of_count (cnt - 1))))
  else counted.

End accumulators.

(** ** Eigen rotations that need the C library *)

Module EigenGeometry.

Import Eigen.

(** [sin] and [cos] of [<cmath>], and
    [Quaterniond(a).angularDistance(Quaterniond(b))] for the linear parts
    [a] and [b] of two transforms (an arc tangent of the C library). *)
Class Libm := {
  sin : float -> float;
  cos : float -> float;
  angularDistance : Matrix3d -> Matrix3d -> float }.

(** [M_PI] of [<cmath>]. *)
Definition M_PI : float := 0x1.921fb54442d18p+1%float.

Definition UnitX : Vector3d := mkV3 1 0 0.

(** [Eigen::AngleAxisd(angle, axis).toRotationMatrix()]. *)
Definition AngleAxis_toRotationMatrix `{Libm} (angle : float) (axis : Vector3d)
  : Matrix3d :=
  let s := sin angle in
  let c := cos angle in
  let sin_axis := mkV3 (s * vx axis) (s * vy axis) (s * vz axis) in
  let cos1_axis := mkV3 ((1 - c) * vx axis) ((1 - c) * vy axis) ((1 - c) * vz axis) in
  let tmp01 := (vx cos1_axis * vy axis)%float in
  let tmp02 := (vx cos1_axis * vz axis)%float in
  let tmp12 := (vy cos1_axis * vz axis)%float in
  mkM3 (vx cos1_axis * vx axis + c) (tmp01 - vz sin_axis) (tmp02 + vy sin_axis)
       (tmp01 + vz sin_axis) (vy cos1_axis * vy axis + c) (tmp12 - vx sin_axis)
       (tmp02 - vy sin_axis) (tmp12 + vx sin_axis) (vz cos1_axis * vz axis + c).

End EigenGeometry.

(** ** rct_optimizations/dh_chain_kinematic_calibration.h: the records

    The header is not among the sources; the fields are the ones [main],
    [printResults] and [compareToMeasurements] read and write. *)

Module calibration.

Import Eigen rct_optimizations.

(** [problem.mask]: for each of the eight groups of unknowns, the indices
    of its components that stay fixed.  [main] writes group 1 (the offsets
    of the target chain) and groups 6 and 7 (position and orientation of
    camera base to target base). *)
Definition Mask := list (list nat).

Record KinematicCalibrationProblemPose6D := mkProblem {
  camera_chain : DH.DHChain;
  target_chain : DH.DHChain;
  observations : list KinematicMeasurement;
  camera_mount_to_camera_guess : Isometry3d;
  target_mount_to_target_guess : Isometry3d;
  camera_base_to_target_base_guess : Isometry3d;
  camera_chain_offset_stdev : float;
  target_chain_offset_stdev : float;
  mask : Mask }.

Record KinematicCalibrationResult (Covariance : Type) := mkResult {
  converged : bool;
  initial_cost_per_obs : float;
  final_cost_per_obs : float;
  camera_mount_to_camera : Isometry3d;
  target_mount_to_target : Isometry3d;
  camera_base_to_target_base : Isometry3d;
  camera_chain_dh_offsets : DH.MatrixX4d;
  target_chain_dh_offsets : DH.MatrixX4d;
  covariance : Covariance }.
Arguments mkResult {Covariance}.
Arguments converged {Covariance}.
Arguments initial_cost_per_obs {Covariance}.
Arguments final_cost_per_obs {Covariance}.
Arguments camera_mount_to_camera {Covariance}.
Arguments target_mount_to_target {Covariance}.
Arguments camera_base_to_target_base {Covariance}.
Arguments camera_chain_dh_offsets {Covariance}.
Arguments target_chain_dh_offsets {Covariance}.
Arguments covariance {Covariance}.

End calibration.

(** ** rct_examples/src/examples/kinematic_calibration.cpp *)

Module kinematic_calibration.

Import Eigen EigenGeometry rct_optimizations calibration.

(** [rct_ros_tools::BadFileException(what)]. *)
Inductive BadFileException := mkBadFileException (what : string).

(** The two joint blocks of [loadMeasurements]:
    [v.resize(joints.size()); for (i < joints.size()) v[i] = joints[i].as<double>();]. *)
Definition readJoints `{YAML.Convert} (joints : YAML.Node)
  : except YAML.Exception VectorXd :=
  mapM (fun i => e <- YAML.at_index joints i ;; YAML.as_double e)
       (seq 0 (YAML.size joints)).

(** [pose[key].as<double>()]. *)
Definition readField `{YAML.Convert} (pose : YAML.Node) (key : string)
  : except YAML.Exception float :=
  e <- YAML.subscript pose key ;; YAML.as_double e.

(** The body of the loop of [loadMeasurements] for one [it->second]. *)
Definition loadMeasurement `{YAML.Convert} (second : option YAML.Node)
  : except YAML.Exception KinematicMeasurement :=
  target_joints <- YAML.subscript_second second "target_joints" ;;
  target_chain_joints <- readJoints target_joints ;;
  camera_joints <- YAML.subscript_second second "camera_joints" ;;
  camera_chain_joints <- readJoints camera_joints ;;
  pose <- YAML.subscript_second second "pose" ;;
  x <- readField pose "x" ;;
  y <- readField pose "y" ;;
  z <- readField pose "z" ;;
  qw <- readField pose "qw" ;;
  qx <- readField pose "qx" ;;
  qy <- readField pose "qy" ;;
  qz <- readField pose "qz" ;;
  Return (mkKinematicMeasurement
            (rotate (translate Isometry3d_Identity (mkV3 x y z))
                    (mkQuat qw qx qy qz))
            camera_chain_joints
            target_chain_joints).

(** [loadMeasurements(filename)], on the outcome of
    [YAML::LoadFile(filename)]: every [YAML::Exception] of the [try] block
    is rethrown as a [BadFileException] whose text is ["YAML failure: "]
    followed by [ex.what()]. *)
Definition loadMeasurements `{YAML.Convert}
    (LoadFile : except YAML.Exception YAML.Node)
  : except BadFileException (list KinematicMeasurement) :=
  match (n <- LoadFile ;; mapM loadMeasurement (YAML.seconds n)) with
  | Throw ex => Throw (mkBadFileException ("YAML failure: " ++ YAML.what ex))
  | Return measurements => Return measurements
  end.

(** [createTwoAxisPositioner]. *)
Definition createTwoAxisPositioner `{Libm} : DH.DHChain :=
  let p1 := DH.mkV4 0 0 0 (- M_PI / 2) in
  let p2 := DH.mkV4 (-0.475) (- M_PI / 2) 0 0 in
  let t := DH.mkDHTransform p1 DH.REVOLUTE "j1" M_PI (- M_PI) in
  let dh_transform :=
    DH.mkDHTransform p2 DH.REVOLUTE "j2" (2 * M_PI) (-2 * M_PI) in
  let base_offset :=
    rotateM (translate Isometry3d_Identity (mkV3 2.2 0 1.6))
            (AngleAxis_toRotationMatrix (M_PI / 2) UnitX) in
  DH.mkDHChain [t; dh_transform] base_offset.

(** What is written to [std::cout]. *)
Inductive Output :=
| text (s : string)
| number (x : float)
| endl.

Definition newline : string := String (ascii_of_nat 10) EmptyString.

Record Stats := mkStats {
  pos_mean : float;
  pos_stdev : float;
  rot_mean : float;
  rot_stdev : float }.

(** [Stats::print]. *)
Definition print (this : Stats) : list Output :=
  [ text "Position Difference Mean: "; number (pos_mean this); endl;
    text "Position Difference Std. Dev.: "; number (pos_stdev this); endl;
    text "Orientation Difference Mean: "; number (rot_mean this); endl;
    text "Orientation difference Std. Dev.: "; number (rot_stdev this);
    text newline; endl ].

(** [Stats::percentDiff]. *)
Definition percentDiff (this other : Stats) : list Output :=
  [ text "Position: ";
    number (100 * (pos_mean this - pos_mean other) / pos_mean this);
    text "%"; endl;
    text "Position Std. Dev.: ";
    number (100 * (pos_stdev this - pos_stdev other) / pos_stdev this);
    text "%"; endl;
    text "Orientation: ";
    number (100 * (rot_mean this - rot_mean other) / rot_mean this);
    text "%"; endl;
    text "Orientation Std. Dev.: ";
    number (100 * (rot_stdev this - rot_stdev other) / rot_stdev this);
    text "%"; text newline; endl ].

(** The body of the loop of [compareToMeasurements] up to the comparison:
    the target seen from the camera, as the calibrated chains predict it. *)
Definition predict `{DH.LinkGeometry} {C}
    (camera_chain target_chain : DH.DHChain)
    (result : KinematicCalibrationResult C) (m : KinematicMeasurement)
  : Isometry3d :=
  let camera_chain_fk := DH.getFK camera_chain (camera_chain_joints m) in
  let camera_base_to_camera :=
    compose camera_chain_fk (camera_mount_to_camera result) in
  let target_chain_fk := DH.getFK target_chain (target_chain_joints m) in
  let camera_base_to_target :=
    compose (compose (camera_base_to_target_base result) target_chain_fk)
            (target_mount_to_target result) in
  compose (inverse camera_base_to_camera) camera_base_to_target.

(** One turn of the loop: both accumulators take a sample. *)
Definition compare_step `{DH.LinkGeometry} `{Libm} {C}
    (camera_chain target_chain : DH.DHChain)
    (result : KinematicCalibrationResult C)
    (acc : accumulators.accumulator_set float * accumulators.accumulator_set float)
    (m : KinematicMeasurement)
  : accumulators.accumulator_set float * accumulators.accumulator_set float :=
  let camera_to_target_ := predict camera_chain target_chain result m in
  let diff := compose (inverse camera_to_target_) (camera_to_target m) in
  (accumulators.push (fst acc) (norm (translation diff)),
   accumulators.push (snd acc)
     (angularDistance (linear camera_to_target_) (linear (camera_to_target m)))).

(** [compareToMeasurements]. *)
Definition compareToMeasurements `{DH.LinkGeometry} `{Libm} {C}
    (initial_camera_chain initial_target_chain : DH.DHChain)
    (result : KinematicCalibrationResult C)
    (measurements : list KinematicMeasurement)
  : except DH.DimensionMismatch Stats :=
  camera_chain <- DH.withOffsets initial_camera_chain (camera_chain_dh_offsets result) ;;
  target_chain <- DH.withOffsets initial_target_chain (target_chain_dh_offsets result) ;;
  let acc :=
    fold_left (compare_step camera_chain target_chain result) measurements
              (accumulators.empty, accumulators.empty) in
  Return (mkStats (accumulators.mean (fst acc))
                  (PrimFloat.sqrt (accumulators.variance (fst acc)))
                  (accumulators.mean (snd acc))
                  (PrimFloat.sqrt (accumulators.variance (snd acc)))).

End kinematic_calibration.

(** ** rct_optimizations: [createDHMask] and [optimize]

    [dh_chain_kinematic_calibration.cpp] is not among the sources; [main]
    calls both functions.  They are modelled from the specification of the
    repository (sections 3, 4.2, 4.3 and 4.4). *)

Module optimizer.

Import Eigen EigenGeometry rct_optimizations calibration.

Inductive OptimizationError :=
| ConfigurationError
| CovarianceError.

(** Modelled from the spec: the numerical collaborators of [optimize],
    missing with the optimizer, as an interface: the damped least-squares
    iteration (from a residual function over the free vector and a start
    it gives the vector it stopped at and whether it converged), the
    covariance of the free parameters (which may fail), the rotation
    components of a linear part and back, and the six components of the
    difference of two poses. *)
Class Solver (Covariance : Type) := {
  minimize : (list float -> list float) -> list float -> list float * bool;
  computeCovariance :
    (list float -> list float) -> list float -> option Covariance;
  rotationVector : Matrix3d -> list float;
  fromRotationVector : list float -> Matrix3d;
  poseDifference : Isometry3d -> Isometry3d -> list float }.

(** Modelled from the spec: [createDHMask], missing with the optimizer.
    "Given a boolean grid (segments x 4) produce a Mask": the indices of
    the [true] cells, a cell being numbered as Eigen numbers the
    coefficients of a matrix, column after column. *)
Definition createDHMask (grid : list (bool * bool * bool * bool)) : list nat :=
  let rows := List.length grid in
  List.concat
    (map (fun rc : nat * (bool * bool * bool * bool) =>
            let '(row, (c0, c1, c2, c3)) := rc in
            (if c0 then [rows * 0 + row] else [])
            ++ (if c1 then [rows * 1 + row] else [])
            ++ (if c2 then [rows * 2 + row] else [])
            ++ (if c3 then [rows * 3 + row] else []))
         (combine (seq 0 rows) grid)).

(** Modelled from the spec: membership in a mask, "the set of
    locally-fixed component indices" of a group. *)
Definition frozen (fixed : list nat) (i : nat) : bool :=
  existsb (Nat.eqb i) fixed.

(** Modelled from the spec: the projection of a group of unknowns on its
    free components ("filtered by its mask"); [i] is the index of the head
    of [xs] in the group. *)
Fixpoint project (i : nat) (fixed : list nat) (xs : list float) : list float :=
  match xs with
  | [] => []
  | x :: rest =>
      if frozen fixed i then project (S i) fixed rest
      else x :: project (S i) fixed rest
  end.

(** Modelled from the spec: the embedding back.  "A masked component is
    held at its nominal/guess value throughout optimization and excluded
    from the free-parameter vector": a fixed component keeps the value of
    [xs], a free one takes the next value of the free vector.  The result
    comes with what is left of the free vector. *)
Fixpoint embed (i : nat) (fixed : list nat) (xs free : list float)
  : list float * list float :=
  match xs with
  | [] => ([], free)
  | x :: rest =>
      if frozen fixed i then
        let '(ys, unused) := embed (S i) fixed rest free in (x :: ys, unused)
      else
        match free with
        | [] => let '(ys, unused) := embed (S i) fixed rest [] in (x :: ys, unused)
        | v :: free' =>
            let '(ys, unused) := embed (S i) fixed rest free' in (v :: ys, unused)
        end
  end.

(** Modelled from the spec: the same over the groups of unknowns, "the
    mask for each logical unknown group is independent". *)
Fixpoint project_groups (masks : Mask) (groups : list (list float)) : list float :=
  match groups with
  | [] => []
  | g :: gs => project 0 (hd [] masks) g ++ project_groups (tl masks) gs
  end.

Fixpoint embed_groups (masks : Mask) (groups : list (list float))
    (free : list float) : list (list float) :=
  match groups with
  | [] => []
  | g :: gs =>
      let '(g', unused) := embed 0 (hd [] masks) g free in
      g' :: embed_groups (tl masks) gs unused
  end.

(** Modelled from the spec: a group of unknowns as an offset matrix ("rows
    indexed by segment, 4 columns"), the group holding the matrix column
    after column. *)
Definition unflatten (rows : nat) (g : list float) : DH.MatrixX4d :=
  map (fun row => DH.mkV4 (nth row g 0%float)
                          (nth (rows + row) g 0%float)
                          (nth (2 * rows + row) g 0%float)
                          (nth (3 * rows + row) g 0%float))
      (seq 0 rows).

(** Modelled from the spec: a transform as "3 translation + 3 rotation
    components" and back. *)
Definition position (t : Isometry3d) : list float :=
  [vx (translation t); vy (translation t); vz (translation t)].

Definition toIsometry `{Solver} (pos rot : list float) : Isometry3d :=
  mkIso (fromRotationVector rot)
        (mkV3 (nth 0 pos 0%float) (nth 1 pos 0%float) (nth 2 pos 0%float)).

(** Modelled from the spec: the unknowns before the optimization, in the
    eight groups of the mask.  "The three top-level transform guesses (each
    parameterized minimally, 3 translation + 3 rotation components), and
    each chain's offset matrix (initialized at zero)". *)
Definition initial_parameters `{Solver} (p : KinematicCalibrationProblemPose6D)
  : list (list float) :=
  [ repeat 0%float (4 * DH.dof (camera_chain p));
    repeat 0%float (4 * DH.dof (target_chain p));
    position (camera_mount_to_camera_guess p);
    rotationVector (linear (camera_mount_to_camera_guess p));
    position (target_mount_to_target_guess p);
    rotationVector (linear (target_mount_to_target_guess p));
    position (camera_base_to_target_base_guess p);
    rotationVector (linear (camera_base_to_target_base_guess p)) ].

(** Group [k] of the unknowns. *)
Definition group (k : nat) (groups : list (list float)) : list float :=
  nth k groups [].

(** Modelled from the spec: the prediction of a pose measurement.
    "Predicted camera-to-target = (FK of calibrated camera chain at camera
    joints, composed with camera-mount-to-camera) inverse, composed with
    (camera-base-to-target-base . FK of calibrated target chain at target
    joints . target-mount-to-target)". *)
Definition predicted_camera_to_target `{DH.LinkGeometry}
    (calibrated_camera_chain calibrated_target_chain : DH.DHChain)
    (camera_mount_to_camera target_mount_to_target
       camera_base_to_target_base : Isometry3d)
    (camera_joints target_joints : VectorXd) : Isometry3d :=
  compose
    (inverse (compose (DH.getFK calibrated_camera_chain camera_joints)
                      camera_mount_to_camera))
    (compose (compose camera_base_to_target_base
                      (DH.getFK calibrated_target_chain target_joints))
             target_mount_to_target).

(** Modelled from the spec: the residuals at a value of the unknowns: for
    every measurement the six components of the difference between the
    predicted and the measured pose, then for every free chain-offset
    component a prior "weighted by 1/stdev for that chain" and scaled by
    the prior weight. *)
Definition residuals `{DH.LinkGeometry} `{Solver}
    (p : KinematicCalibrationProblemPose6D) (offsetPriorWeight : float)
    (groups : list (list float)) : list float :=
  let cc := DH.applyOffsets (camera_chain p)
              (unflatten (DH.dof (camera_chain p)) (group 0 groups)) in
  let tc := DH.applyOffsets (target_chain p)
              (unflatten (DH.dof (target_chain p)) (group 1 groups)) in
  let cm := toIsometry (group 2 groups) (group 3 groups) in
  let tm := toIsometry (group 4 groups) (group 5 groups) in
  let bb := toIsometry (group 6 groups) (group 7 groups) in
  List.concat
    (map (fun m =>
            poseDifference
              (predicted_camera_to_target cc tc cm tm bb
                 (camera_chain_joints m) (target_chain_joints m))
              (camera_to_target m))
         (observations p))
  ++ map (fun o => offsetPriorWeight * (o * (1 / camera_chain_offset_stdev p)))%float
         (project 0 (nth 0 (mask p) []) (group 0 groups))
  ++ map (fun o => offsetPriorWeight * (o * (1 / target_chain_offset_stdev p)))%float
         (project 0 (nth 1 (mask p) []) (group 1 groups)).

(** Modelled from the spec: the cost per observation, "sum of squared
    residuals divided by observation count". *)
Definition cost_per_obs (p : KinematicCalibrationProblemPose6D)
    (rs : list float) : float :=
  (fold_left (fun s x => s + x * x) rs 0 / accumulators.double_of_count (List.length (observations p)))%float.

(** Modelled from the spec: the consistency of a problem.  "Fails with a
    configuration error if problem dimensions are inconsistent
    (joint-vector length differs from chain DOF for any observation; mask
    size mismatch with chain DOF)". *)
Definition consistent `{Solver} (p : KinematicCalibrationProblemPose6D) : bool :=
  forallb (fun m =>
             Nat.eqb (List.length (camera_chain_joints m)) (DH.dof (camera_chain p))
             && Nat.eqb (List.length (target_chain_joints m)) (DH.dof (target_chain p)))
          (observations p)
  && Nat.eqb (List.length (mask p)) 8
  && forallb (fun mg => forallb (fun i => Nat.ltb i (List.length (snd mg))) (fst mg))
             (combine (mask p) (initial_parameters p)).

(** Modelled from the spec: the residuals as a function of the free
    vector, the masked unknowns held at their initial values. *)
Definition free_residuals `{DH.LinkGeometry} `{Solver}
    (p : KinematicCalibrationProblemPose6D) (offsetPriorWeight : float)
    (free : list float) : list float :=
  residuals p offsetPriorWeight (embed_groups (mask p) (initial_parameters p) free).

(** Modelled from the spec: the run of the solver, from the projection of
    the initial unknowns. *)
Definition solve `{DH.LinkGeometry} `{Solver}
    (p : KinematicCalibrationProblemPose6D) (offsetPriorWeight : float)
  : list float * bool :=
  minimize (free_residuals p offsetPriorWeight)
           (project_groups (mask p) (initial_parameters p)).

(** Modelled from the spec: the unknowns after the optimization: the free
    vector the solver stopped at, embedded in the unknowns it started
    from. *)
Definition final_parameters `{DH.LinkGeometry} `{Solver}
    (p : KinematicCalibrationProblemPose6D) (offsetPriorWeight : float)
  : list (list float) :=
  embed_groups (mask p) (initial_parameters p) (fst (solve p offsetPriorWeight)).

(** Modelled from the spec: [optimize], missing with the optimizer.  An
    inconsistent problem is a configuration error "detected before the
    optimizer runs"; the solver's verdict becomes the flag [converged]
    ("reports non-convergence via result.converged = false rather than
    failing"); both costs are filled in; a covariance that cannot be
    computed is a covariance error. *)
Definition optimize `{DH.LinkGeometry} {Covariance} `{Solver Covariance}
    (p : KinematicCalibrationProblemPose6D) (offsetPriorWeight : float)
  : except OptimizationError (KinematicCalibrationResult Covariance) :=
  if consistent p then
    let start := project_groups (mask p) (initial_parameters p) in
    let final := fst (solve p offsetPriorWeight) in
    let groups := final_parameters p offsetPriorWeight in
    match computeCovariance (free_residuals p offsetPriorWeight) final with
    | None => Throw CovarianceError
    | Some cov =>
        Return (mkResult
                  (snd (solve p offsetPriorWeight))
                  (cost_per_obs p (free_residuals p offsetPriorWeight start))
                  (cost_per_obs p (free_residuals p offsetPriorWeight final))
                  (toIsometry (group 2 groups) (group 3 groups))
                  (toIsometry (group 4 groups) (group 5 groups))
                  (toIsometry (group 6 groups) (group 7 groups))
                  (unflatten (DH.dof (camera_chain p)) (group 0 groups))
                  (unflatten (DH.dof (target_chain p)) (group 1 groups))
                  cov)
    end
  else Throw ConfigurationError.

End optimizer.

(** ** [main]: the problem it builds and the masks it sets *)

Module main.

Import Eigen EigenGeometry rct_optimizations calibration kinematic_calibration.

(** [v.at(k) = x] on the eight groups of the mask ([k] below 8). *)
Fixpoint set_at {A} (k : nat) (x : A) (v : list A) : list A :=
  match v, k with
  | [], _ => []
  | _ :: rest, 0 => x :: rest
  | y :: rest, S k' => y :: set_at k' x rest
  end.

(** [Constant(rows, 4, b)] followed, when [last] is given, by
    [mask.bottomRows(1) << last]. *)
Definition grid (rows : nat) (b : bool) (last : option (bool * bool * bool * bool))
  : list (bool * bool * bool * bool) :=
  match last with
  | None => repeat (b, b, b, b) rows
  | Some row => removelast (repeat (b, b, b, b) rows) ++ [row]
  end.

(** The problem of the first run: an empty camera chain (its base offset
    is the identity), the two-axis positioner as target chain, the two
    guesses read from the parameter server, and the masks of groups 1, 6
    and 7. *)
Definition first_problem `{Libm}
    (measurements : list KinematicMeasurement)
    (camera_mount_to_camera_guess target_mount_to_target_guess : Isometry3d)
  : KinematicCalibrationProblemPose6D :=
  let target := createTwoAxisPositioner in
  let mask0 := repeat [] 8 in
  let mask1 :=
    set_at 1 (optimizer.createDHMask
                (grid (DH.dof target) false (Some (true, true, true, true))))
           mask0 in
  let mask6 := set_at 6 [0; 1; 2] mask1 in
  let mask7 := set_at 7 [0; 1; 2] mask6 in
  mkProblem (DH.mkDHChain [] Isometry3d_Identity) target measurements
            camera_mount_to_camera_guess target_mount_to_target_guess
            Isometry3d_Identity 0.001 0.005 mask7.

(** The problem of the second run: the same with the whole target chain
    masked. *)
Definition second_problem `{Libm}
    (measurements : list KinematicMeasurement)
    (camera_mount_to_camera_guess target_mount_to_target_guess : Isometry3d)
  : KinematicCalibrationProblemPose6D :=
  let p := first_problem measurements camera_mount_to_camera_guess
                         target_mount_to_target_guess in
  mkProblem (camera_chain p) (target_chain p) (observations p)
            (calibration.camera_mount_to_camera_guess p)
            (calibration.target_mount_to_target_guess p)
            (camera_base_to_target_base_guess p)
            (camera_chain_offset_stdev p) (target_chain_offset_stdev p)
            (set_at 1 (optimizer.createDHMask
                         (grid (DH.dof (target_chain p)) true None))
                    (mask p)).

End main.

(** ** Instances of the library interfaces for the worked examples

    The theorems below hold for every implementation of the interfaces;
    the examples need one to run. *)

Module fixture.

Import Eigen.

(** Decimal texts used by the examples, with the doubles they denote. *)
Definition decode_double (s : string) : option float :=
  if String.eqb s "0" then Some 0%float
  else if String.eqb s "1" then Some 1%float
  else if String.eqb s "2" then Some 2%float
  else if String.eqb s "0.5" then Some 0.5%float
  else if String.eqb s "1.5" then Some 1.5%float
  else if String.eqb s "-0.25" then Some (-0.25)%float
  else None.

Definition decode_index (s : string) : option nat :=
  if String.eqb s "0" then Some 0
  else if String.eqb s "1" then Some 1
  else if String.eqb s "2" then Some 2
  else None.

Definition convert : YAML.Convert := YAML.Build_Convert decode_double decode_index.

(** A stand-in for the C library: a quarter turn is the only angle the
    examples use. *)
Definition libm : EigenGeometry.Libm :=
  EigenGeometry.Build_Libm (fun _ => 1%float) (fun _ => 0%float)
                           (fun a b => (m00 a - m00 b)%float).

Definition geometry : DH.LinkGeometry :=
  DH.Build_LinkGeometry
    (fun p => mkIso Matrix3d_Identity (mkV3 (DH.d p) (DH.theta p) (DH.r p))).


(** A solver that moves every free unknown and converges. *)
Definition moving_solver : optimizer.Solver unit :=
  optimizer.Build_Solver unit
    (fun _ start => (map (fun x => (x + 1)%float) start, true))
    (fun _ _ => Some tt)
    (fun m => [m00 m; m11 m; m22 m])
    (fun v => mkM3 (nth 0 v 0%float) 0 0 0 (nth 1 v 0%float) 0 0 0 (nth 2 v 0%float))
    (fun a b => [(vx (translation a) - vx (translation b))%float]).

(** Measurement files.  [scalar l c s] is the scalar [s] at line [l],
    column [c]; the marks of sequences and maps play no part. *)
Definition scalar (l c : nat) (s : string) : YAML.Node :=
  YAML.Scalar (YAML.at_ l c) s.

Definition key (s : string) : YAML.Node := YAML.Scalar YAML.null_mark s.

Definition sequence (l : nat) (texts : list string) : YAML.Node :=
  YAML.Sequence (YAML.at_ l 0) (map (scalar l 0) texts).

Definition mapping (l : nat) (entries : list (string * YAML.Node)) : YAML.Node :=
  YAML.Map (YAML.at_ l 0) (map (fun e => (key (fst e), snd e)) entries).

Definition pose (l : nat) (x y z qw qx qy qz : string) : YAML.Node :=
  mapping l [ ("x", scalar (l + 1) 7 x); ("y", scalar (l + 2) 7 y);
              ("z", scalar (l + 3) 7 z); ("qw", scalar (l + 4) 8 qw);
              ("qx", scalar (l + 5) 8 qx); ("qy", scalar (l + 6) 8 qy);
              ("qz", scalar (l + 7) 8 qz) ]%string.

(** Two records; the quaternion of the second, (0, 2, 0, 0), has norm 2. *)
Definition file : YAML.Node :=
  mapping 0
    [ ("m0", mapping 1 [ ("target_joints", sequence 1 ["0.5"; "1.5"]);
                         ("camera_joints", sequence 2 []);
                         ("pose", pose 3 "1" "2" "0.5" "1" "0" "0" "0") ]);
      ("m1", mapping 12 [ ("target_joints", sequence 12 ["0"; "1"]);
                          ("camera_joints", sequence 13 []);
                          ("pose", pose 14 "0" "0" "1" "0" "2" "0" "0") ]) ]%string.

(** One record with no [target_joints] and no [camera_joints]. *)
Definition file_without_joints : YAML.Node :=
  mapping 0
    [ ("m0", mapping 1 [ ("pose", pose 1 "1" "2" "0.5" "1" "0" "0" "0") ]) ]%string.

(** One record with no [pose]. *)
Definition file_without_pose : YAML.Node :=
  mapping 0
    [ ("m0", mapping 1 [ ("target_joints", sequence 1 ["0.5"; "1.5"]);
                         ("camera_joints", sequence 2 []) ]) ]%string.

(** One record whose [pose] has the text [abc] under [y], at line 5,
    column 7 (counted from zero). *)
Definition file_with_text : YAML.Node :=
  mapping 0
    [ ("m0", mapping 1 [ ("target_joints", sequence 1 ["0.5"; "1.5"]);
                         ("camera_joints", sequence 2 []);
                         ("pose", pose 3 "1" "abc" "0.5" "1" "0" "0" "0") ]) ]%string.

(** One measurement of the two-axis positioner, both joints beyond their
    limits (4 > pi and 7 > 2 pi), and a result with zero offsets. *)
Definition measurement : rct_optimizations.KinematicMeasurement :=
  rct_optimizations.mkKinematicMeasurement
    (mkIso Matrix3d_Identity (mkV3 1 2 3)) [] [4%float; 7%float].

Definition result : calibration.KinematicCalibrationResult unit :=
  calibration.mkResult false 0 0
    Isometry3d_Identity Isometry3d_Identity Isometry3d_Identity
    [] [DH.mkV4 0 0 0 0; DH.mkV4 0 0 0 0] tt.

Definition camera_chain : DH.DHChain := DH.mkDHChain [] Isometry3d_Identity.

Definition target_chain : DH.DHChain :=
  @kinematic_calibration.createTwoAxisPositioner libm.

(** The positioner with both ranges narrowed to [-1, 1]. *)
Definition narrow_target_chain : DH.DHChain :=
  DH.mkDHChain
    (map (fun t => DH.mkDHTransform (DH.params t) (DH.type t) (DH.name t) 1 (-1))
         (DH.transforms target_chain))
    (DH.base_offset target_chain).

(** The statistics of the validation over that single measurement. *)
Definition validation : except DH.DimensionMismatch kinematic_calibration.Stats :=
  @kinematic_calibration.compareToMeasurements geometry libm unit
    camera_chain target_chain result [measurement].

(** Observations with the same joints: one with a correspondence, one
    with none, and one whose correspondence has a NaN coordinate. *)
Definition correspondence (u : float) : rct_optimizations.Correspondence 2 3 :=
  rct_optimizations.mkCorrespondence
    (Vector.of_list [u; 0.5%float]) (Vector.of_list [1; 2; 3]%float).

Definition observation : rct_optimizations.KinematicObservation 2 3 :=
  rct_optimizations.mkKinematicObservation [correspondence 1.5] [] [0.5%float].

Definition empty_observation : rct_optimizations.KinematicObservation 2 3 :=
  rct_optimizations.mkKinematicObservation [] [] [0.5%float].

Definition nan_observation : rct_optimizations.KinematicObservation 2 3 :=
  rct_optimizations.mkKinematicObservation [correspondence nan] [] [0.5%float].

(** The problem of the first run of [main] over that measurement. *)
Definition problem : calibration.KinematicCalibrationProblemPose6D :=
  @main.first_problem libm [measurement]
    (mkIso Matrix3d_Identity (mkV3 0.5 0 0))
    (mkIso Matrix3d_Identity (mkV3 0 0.5 0)).

End fixture.

(** ** Vocabulary of the statements *)

Module statements.

Import Eigen EigenGeometry rct_optimizations calibration kinematic_calibration.

(** What was printed, numbers and texts apart. *)
Definition numbers (out : list Output) : list float :=
  flat_map (fun o => match o with number x => [x] | _ => [] end) out.

Definition texts (out : list Output) : list string :=
  flat_map (fun o => match o with text s => [s] | _ => [] end) out.

(** The four statistics of a [Stats], in the order of its fields. *)
Definition statistics (s : Stats) : list float :=
  [pos_mean s; pos_stdev s; rot_mean s; rot_stdev s].

(** The difference of [x] and [y] as a percentage of [x]. *)
Definition percent_of (x y : float) : float := (100 * (x - y) / x)%float.

(** The mean of a list of samples, as a sum over the list, and their
    standard deviation: the square root of the variance that an accumulator
    set holds once it has taken the samples in order. *)
Definition mean_of (xs : list float) : float :=
  (fold_left PrimFloat.add xs 0 / accumulators.double_of_count (List.length xs))%float.

Definition accumulate {T} `{accumulators.Sample T} (xs : list T)
  : accumulators.accumulator_set T :=
  fold_left accumulators.push xs accumulators.empty.

Definition stdev_of (xs : list float) : float :=
  PrimFloat.sqrt (accumulators.variance (accumulate xs)).

(** The same accumulators over the real numbers, where no operation rounds,
    with the sum and the sum of the squares of a list of samples. *)
Definition real_Sample : accumulators.Sample R :=
  accumulators.Build_Sample R 0%R Rplus Rminus Rmult Rdiv INR.

Definition total (xs : list R) : R := fold_left Rplus xs 0%R.

Definition total_of_squares (xs : list R) : R :=
  fold_left (fun s x => s + x * x)%R xs 0%R.

(** *** Measurement files

    A record of a measurement file is well formed when it is a map whose
    [target_joints] and [camera_joints] are sequences of numbers and whose
    [pose] is a map with a number under each of its seven keys. *)

Definition is_map (n : YAML.Node) : bool :=
  match n with YAML.Map _ _ => true | _ => false end.

(** The value under [key] in a map, as yaml-cpp looks it up. *)
Definition field (n : YAML.Node) (key : string) : YAML.Node :=
  match n with
  | YAML.Map _ entries => YAML.find_entry (YAML.equals_string key) entries
  | _ => YAML.Undefined
  end.

Definition is_number `{YAML.Convert} (n : YAML.Node) : bool :=
  match n with
  | YAML.Scalar _ s =>
      match YAML.decode_double s with Some _ => true | None => false end
  | _ => false
  end.

Definition number_of `{YAML.Convert} (n : YAML.Node) : float :=
  match n with
  | YAML.Scalar _ s =>
      match YAML.decode_double s with Some x => x | None => 0%float end
  | _ => 0%float
  end.

Definition items_of (n : YAML.Node) : list YAML.Node :=
  match n with YAML.Sequence _ items => items | _ => [] end.

Definition is_number_sequence `{YAML.Convert} (n : YAML.Node) : bool :=
  match n with
  | YAML.Sequence _ items => forallb is_number items
  | _ => false
  end.

Definition pose_keys : list string := ["x"; "y"; "z"; "qw"; "qx"; "qy"; "qz"]%string.

Definition well_formed_record `{YAML.Convert} (r : YAML.Node) : bool :=
  is_map r
  && is_number_sequence (field r "target_joints")
  && is_number_sequence (field r "camera_joints")
  && is_map (field r "pose")
  && forallb (fun key => is_number (field (field r "pose") key)) pose_keys.

(** The records of a file, in file order. *)
Definition records (doc : YAML.Node) : list YAML.Node :=
  match doc with YAML.Map _ entries => map snd entries | _ => [] end.

Definition well_formed_file `{YAML.Convert} (doc : YAML.Node) : bool :=
  is_map doc && forallb well_formed_record (records doc).

Definition pose_number `{YAML.Convert} (r : YAML.Node) (key : string) : float :=
  number_of (field (field r "pose") key).

Definition pose_translation `{YAML.Convert} (r : YAML.Node) : Vector3d :=
  mkV3 (pose_number r "x") (pose_number r "y") (pose_number r "z").

Definition pose_quaternion `{YAML.Convert} (r : YAML.Node) : Quaterniond :=
  mkQuat (pose_number r "qw") (pose_number r "qx")
         (pose_number r "qy") (pose_number r "qz").

(** The measurement a well-formed record stands for. *)
Definition measurement_of `{YAML.Convert} (r : YAML.Node) : KinematicMeasurement :=
  mkKinematicMeasurement
    (rotate (translate Isometry3d_Identity (pose_translation r)) (pose_quaternion r))
    (map number_of (items_of (field r "camera_joints")))
    (map number_of (items_of (field r "target_joints"))).

(** The pose of a record holds its seven numbers. *)
Definition pose_complete `{YAML.Convert} (r : YAML.Node) : bool :=
  is_map (field r "pose")
  && forallb (fun key => is_number (field (field r "pose") key)) pose_keys.

(** The joints under [key] are a sequence with an entry that is no number. *)
Definition joints_defect `{YAML.Convert} (r : YAML.Node) (key : string) : bool :=
  match field r key with
  | YAML.Sequence _ items => negb (forallb is_number items)
  | _ => false
  end.

(** The defects of a record: a joint sequence with an entry that is not a
    number; a [pose] that is absent, or is not a map, or lacks a number
    under one of its seven keys. *)
Definition malformed_record `{YAML.Convert} (r : YAML.Node) : bool :=
  joints_defect r "target_joints" || joints_defect r "camera_joints"
  || negb (pose_complete r).

(** *** Joint limits *)

(** [q] lies outside the inclusive range of the segment [t]. *)
Definition out_of_range (t : DH.DHTransform) (q : float) : bool :=
  PrimFloat.ltb q (DH.min t) || PrimFloat.ltb (DH.max t) q.

(** Two chains that differ at most in the limits (and names) of their
    segments. *)
Definition same_up_to_limits (c c' : DH.DHChain) : Prop :=
  DH.base_offset c = DH.base_offset c'
  /\ Forall2 (fun t t' => DH.params t = DH.params t' /\ DH.type t = DH.type t')
             (DH.transforms c) (DH.transforms c').

(** The transform of segment [i] of [chain] at the joint value [q(i)],
    taken as it is. *)
Definition joint_transform `{DH.LinkGeometry}
    (chain : DH.DHChain) (q : VectorXd) (i : nat) : Isometry3d :=
  DH.canonicalTransform
    (DH.withJointValue
       (nth i (DH.transforms chain)
            (DH.mkDHTransform (DH.mkV4 0 0 0 0) DH.REVOLUTE "" 0 0))
       (nth i q 0%float)).

(** *** Offset matrices *)

(** Column [col] of a row of offsets, and the entry at [(row, col)] of an
    offset matrix. *)
Definition component (col : nat) (v : DH.Vector4d) : float :=
  match col with
  | 0 => DH.d v
  | 1 => DH.theta v
  | 2 => DH.r v
  | _ => DH.alpha v
  end.

Definition entry (m : DH.MatrixX4d) (row col : nat) : float :=
  component col (nth row m (DH.mkV4 0 0 0 0)).

(** *** Observations and binary64 classes *)

(** Every coefficient of a correspondence is finite: neither an infinity
    nor a NaN. *)
Definition finite_coefficients {N M} (c : Correspondence N M) : bool :=
  forallb PrimFloat.is_finite (Vector.to_list (in_image c))
  && forallb PrimFloat.is_finite (Vector.to_list (in_target c)).

(** A specification float that is no NaN and has sign [s]. *)
Definition signed (s : bool) (x : spec_float) : Prop :=
  match x with
  | S754_zero s' | S754_infinity s' | S754_finite s' _ _ => s' = s
  | S754_nan => False
  end.

(** A float that is a zero, a positive number or plus infinity. *)
Definition nonnegative (x : float) : Prop :=
  match Prim2SF x with
  | S754_zero _ | S754_finite false _ _ | S754_infinity false => True
  | _ => False
  end.

Section Errors.

Context `{G : DH.LinkGeometry} `{L : Libm} {C : Type}.
Variables (camera_chain target_chain : DH.DHChain).
Variable result : KinematicCalibrationResult C.

(** The prediction in the words of the specification, for the calibrated
    chains and the transforms of [result]. *)
Definition prediction (m : KinematicMeasurement) : Isometry3d :=
  optimizer.predicted_camera_to_target camera_chain target_chain
    (camera_mount_to_camera result) (target_mount_to_target result)
    (camera_base_to_target_base result)
    (camera_chain_joints m) (target_chain_joints m).

(** Norm of the translation between predicted and measured pose. *)
Definition translation_error (m : KinematicMeasurement) : float :=
  norm (translation (compose (inverse (prediction m)) (camera_to_target m))).

(** Angular distance between predicted and measured orientation. *)
Definition rotation_error (m : KinematicMeasurement) : float :=
  angularDistance (linear (prediction m)) (linear (camera_to_target m)).

End Errors.

End statements.

(** ** More vocabulary: measurement files *)

Module loading.

Import Eigen rct_optimizations kinematic_calibration statements.

(** A node with nothing to index: absent, null or a scalar. *)
Definition no_items (n : YAML.Node) : bool :=
  match n with
  | YAML.Undefined | YAML.Null _ | YAML.Scalar _ _ => true
  | _ => false
  end.

(** Joints that load: a sequence of numbers, or a node with nothing to
    index. *)
Definition joints_loadable `{YAML.Convert} (n : YAML.Node) : bool :=
  is_number_sequence n || no_items n.

Definition loadable_record `{YAML.Convert} (r : YAML.Node) : bool :=
  is_map r
  && joints_loadable (field r "target_joints")
  && joints_loadable (field r "camera_joints")
  && pose_complete r.

Definition loadable_file `{YAML.Convert} (doc : YAML.Node) : bool :=
  is_map doc && forallb loadable_record (records doc).

(** [r'] is the map [r] with further entries after its own. *)
Definition extends (r r' : YAML.Node) : Prop :=
  exists m m' entries more,
    r = YAML.Map m entries /\ r' = YAML.Map m' (entries ++ more).

(** A node that [operator[]] accepts: any but a scalar. *)
Definition subscriptable (n : YAML.Node) : bool :=
  match n with YAML.Scalar _ _ => false | _ => true end.

(** The nodes that the loop over [joints] converts, in order: the items of
    a sequence; for a map, what is found under 0, 1, ... up to its size;
    none for any other node. *)
Definition joint_nodes `{YAML.Convert} (joints : YAML.Node) : list YAML.Node :=
  match joints with
  | YAML.Sequence _ items => items
  | YAML.Map _ entries =>
      map (fun i => YAML.find_entry (YAML.equals_index i) entries)
          (seq 0 (List.length entries))
  | _ => []
  end.

(** The nodes of a record that are converted to a number, in the order of
    the conversions: target joints, camera joints, then the seven fields of
    the pose. *)
Definition nodes_read `{YAML.Convert} (r : YAML.Node) : list YAML.Node :=
  joint_nodes (field r "target_joints")
  ++ joint_nodes (field r "camera_joints")
  ++ map (field (field r "pose")) pose_keys.

Definition not_a_number `{YAML.Convert} (n : YAML.Node) : bool :=
  negb (is_number n).

(** The measurement made of the numbers of those nodes. *)
Definition measurement_read `{YAML.Convert} (r : YAML.Node) : KinematicMeasurement :=
  mkKinematicMeasurement
    (rotate (translate Isometry3d_Identity (pose_translation r)) (pose_quaternion r))
    (map number_of (joint_nodes (field r "camera_joints")))
    (map number_of (joint_nodes (field r "target_joints"))).

(** The three numbers of the translation of a record are finite. *)
Definition finite_translation `{YAML.Convert} (r : YAML.Node) : bool :=
  PrimFloat.is_finite (pose_number r "x")
  && PrimFloat.is_finite (pose_number r "y")
  && PrimFloat.is_finite (pose_number r "z").

(** The nine coefficients of a matrix, row by row. *)
Definition coefficients (a : Matrix3d) : list float :=
  [ m00 a; m01 a; m02 a; m10 a; m11 a; m12 a; m20 a; m21 a; m22 a ].

(** Eigen's matrix of the quaternion of a record has finite coefficients. *)
Definition finite_rotation `{YAML.Convert} (r : YAML.Node) : bool :=
  forallb PrimFloat.is_finite (coefficients (toRotationMatrix (pose_quaternion r))).

(** The two kinds of failure of the loop of [loadMeasurements]: the
    subscript of a scalar, or a conversion. *)
Definition subscript_or_conversion (ex : YAML.Exception) : Prop :=
  ex = YAML.BadSubscript \/ exists m, ex = YAML.TypedBadConversion m.

End loading.

(** ** rct_optimizations/types.h: [CameraIntrinsics], [Observation] and the
    comparison of [KinematicMeasurement] *)

Module types.

Import Eigen rct_optimizations.

(** [CameraIntrinsics]: [values] holds fx, fy, cx, cy. *)
Record CameraIntrinsics := mkCameraIntrinsics {
  fx : float; fy : float; cx : float; cy : float }.

(** [CameraIntrinsics::operator==]: [==] of [std::array], coefficient by
    coefficient with [==] of [double]. *)
Definition CameraIntrinsics_eq (lhs rhs : CameraIntrinsics) : bool :=
  PrimFloat.eqb (fx lhs) (fx rhs) && PrimFloat.eqb (fy lhs) (fy rhs)
  && PrimFloat.eqb (cx lhs) (cx rhs) && PrimFloat.eqb (cy lhs) (cy rhs).

(** The sixteen coefficients of the 4x4 matrix of an isometry, column by
    column as Eigen stores them; the last row is 0 0 0 1. *)
Definition matrix (t : Isometry3d) : list float :=
  [ m00 (linear t); m10 (linear t); m20 (linear t); 0;
    m01 (linear t); m11 (linear t); m21 (linear t); 0;
    m02 (linear t); m12 (linear t); m22 (linear t); 0;
    vx (translation t); vy (translation t); vz (translation t); 1 ]%float.

(** [a.isApprox(b)] for two isometries is that of their matrices. *)
Definition Isometry3d_isApprox (a b : Isometry3d) : bool :=
  isApproxCoeffs (matrix a) (matrix b).

(** [Observation<IMAGE_DIM, WORLD_DIM>]. *)
Record Observation (IMAGE_DIM WORLD_DIM : nat) := mkObservation {
  correspondence_set : list (Correspondence IMAGE_DIM WORLD_DIM);
  to_camera_mount : Isometry3d;
  to_target_mount : Isometry3d }.
Arguments mkObservation {IMAGE_DIM WORLD_DIM} _ _ _.
Arguments correspondence_set {IMAGE_DIM WORLD_DIM} _.
Arguments to_camera_mount {IMAGE_DIM WORLD_DIM} _.
Arguments to_target_mount {IMAGE_DIM WORLD_DIM} _.

(** [Observation::operator==]. *)
Definition Observation_eq {N M} (lhs rhs : Observation N M) : bool :=
  Isometry3d_isApprox (to_camera_mount lhs) (to_camera_mount rhs)
  && Isometry3d_isApprox (to_target_mount lhs) (to_target_mount rhs)
  && vector_eq Correspondence_eq (correspondence_set lhs) (correspondence_set rhs).

(** [KinematicMeasurement::operator==]: the pose first, then the joints of
    the camera chain, then those of the target chain. *)
Definition KinematicMeasurement_eq (lhs rhs : KinematicMeasurement) : option bool :=
  and_then (Some (Isometry3d_isApprox (camera_to_target lhs) (camera_to_target rhs)))
    (and_then (isApprox (camera_chain_joints lhs) (camera_chain_joints rhs))
       (isApprox (target_chain_joints lhs) (target_chain_joints rhs))).

End types.

(** ** rct_examples/src/tools/camera_intrinsic_calibration_validation.cpp *)

Module camera_intrinsic_calibration_validation.

Import Eigen EigenGeometry rct_optimizations types.

(** [IntrinsicCalibrationAccuracyResult], as [analyzeResults] reads it: a
    (mean, standard deviation) pair for the positional and for the angular
    error. *)
Record IntrinsicCalibrationAccuracyResult := mkAccuracyResult {
  pos_error : float * float;
  ang_error : float * float }.

(** What is written to a ROS log stream, and the level of a message. *)
Inductive Item :=
| text (s : string)
| number (x : float)
| count (n : nat).

Inductive Level := INFO | WARN | ERROR.

Definition Message : Type := Level * list Item.

Definition newline : string := String (ascii_of_nat 10) EmptyString.

(** [analyzeResults]. *)
Definition analyzeResults (result : IntrinsicCalibrationAccuracyResult)
    (pos_tol ang_tol : float) : list Message :=
  [ (INFO, [ text ("Positional Error:" ++ newline ++ "Mean (m): ");
             number (fst (pos_error result));
             text (newline ++ "Std. Dev. (m): ");
             number (snd (pos_error result)) ]);
    (INFO, [ text ("Angular Error:" ++ newline ++ "Mean (rad): ");
             number (fst (ang_error result));
             text (newline ++ "Std. Dev. (rad): ");
             number (snd (ang_error result)) ]) ]
  ++ (let pos_error := (fst (pos_error result) + 2.0 * snd (pos_error result))%float in
      let ang_error := (fst (ang_error result) + 2.0 * snd (ang_error result))%float in
      if PrimFloat.ltb pos_tol pos_error || PrimFloat.ltb ang_tol ang_error
      then [ (WARN, [ text ("Camera intrinsic calibration is not within tolerance"
                              ++ newline ++ "Position Error (m): ");
                      number pos_error; text " ("; number pos_tol;
                      text " allowed)";
                      text (newline ++ "Angular Error (rad): ");
                      number ang_error; text " ("; number ang_tol;
                      text " allowed)" ]) ]
      else [ (INFO, [ text "Camera intrinsic calibration is valid!" ]) ]).

(** What can be thrown, as the two handlers of [main] tell it apart: a
    [std::runtime_error] (or a class derived from it), another
    [std::exception], or an object that is no [std::exception]. *)
Inductive Exception :=
| runtime_error (what : string)
| exception (what : string)
| foreign.

Definition what (ex : Exception) : string :=
  match ex with
  | runtime_error s | exception s => s
  | foreign => EmptyString
  end.

(** [get<T>(nh, key)], on the outcome of [nh.getParam(key, val)]. *)
Definition get {T} (getParam : string -> option T) (key : string)
  : except Exception T :=
  match getParam key with
  | None => Throw (runtime_error ("Failed to get '" ++ key ++ "' parameter"))
  | Some val => Return val
  end.

(** How a run of [main], or of its loop, ends. *)
Inductive Outcome (A : Type) :=
| Completed (a : A)
| Raised (log : list Message) (ex : Exception)
| Undefined.
Arguments Completed {A} a.
Arguments Raised {A} log ex.
Arguments Undefined {A}.

Section Tool.

(** [cv::Mat], [rct_image_tools::TargetFeatures] and the configuration of
    the target finder. *)
Variables Image TargetFeatures XmlRpcValue : Type.

(** [rct_ros_tools::ExtrinsicDataSet]. *)
Record ExtrinsicDataSet := mkExtrinsicDataSet {
  images : list Image;
  tool_poses : list Isometry3d }.

(** The target finder plugin and the OpenCV window, as far as [main] calls
    them; [show image] is [cv::imshow(WINDOW, image); cv::waitKey();]. *)
Class TargetFinderPlugin := {
  findTargetFeatures : Image -> except Exception TargetFeatures;
  size : TargetFeatures -> nat;
  drawTargetFeatures : Image -> TargetFeatures -> except Exception Image;
  show : Image -> except Exception unit;
  createCorrespondences :
    TargetFeatures -> except Exception (list (Correspondence 2 3)) }.

(** The parameter server, the loaders and the accuracy measurement, as far
    as [main] calls them; [createInstance config] stands for reading the
    type of the finder from its configuration, creating the plugin and
    initialising it. *)
Class Node := {
  getParam_string : string -> option string;
  getParam_XmlRpcValue : string -> option XmlRpcValue;
  parseFromFile : string -> except Exception (option ExtrinsicDataSet);
  createInstance : XmlRpcValue -> except Exception TargetFinderPlugin;
  loadIntrinsics : string -> except Exception CameraIntrinsics;
  loadPose : string -> except Exception Isometry3d;
  namedWindow : except Exception unit;
  measureIntrinsicCalibrationAccuracy :
    list (Observation 2 3) -> CameraIntrinsics -> Isometry3d -> Isometry3d ->
    Isometry3d -> float -> except Exception IntrinsicCalibrationAccuracyResult }.

(** The [try] block of the loop of [main] for one image, with what it
    logs before it returns or throws. *)
Definition detect `{TargetFinderPlugin} (image : Image)
  : list Message * except Exception TargetFeatures :=
  match findTargetFeatures image with
  | Throw ex => ([], Throw ex)
  | Return target_features =>
      if Nat.eqb (size target_features) 0
      then ([], Throw (runtime_error "Failed to find any target features"))
      else
        ([ (INFO, [ text "Found "; count (size target_features);
                    text " target features" ]) ],
         drawn <- drawTargetFeatures image target_features ;;
         _ <- show drawn ;;
         Return target_features)
  end.

(** One turn of the loop for image [i]: a [std::runtime_error] of the
    [try] block is logged and the image skipped; [tool_poses[i]] beyond the
    end of the vector is undefined. *)
Definition turn `{TargetFinderPlugin} (data_set : ExtrinsicDataSet)
    (i : nat) (image : Image) (state : list Message * list (Observation 2 3))
  : Outcome (list Message * list (Observation 2 3)) :=
  let (log, observations) := state in
  let (found, detected) := detect image in
  match detected with
  | Throw (runtime_error msg) =>
      let warned :=
        log ++ found
        ++ [ (WARN, [ text "Image "; count i; text ": '"; text msg; text "'" ]) ] in
      match show image with
      | Throw ex => Raised warned ex
      | Return _ => Completed (warned, observations)
      end
  | Throw ex => Raised (log ++ found) ex
  | Return target_features =>
      match nth_error (tool_poses data_set) i with
      | None => Undefined
      | Some pose =>
          match createCorrespondences target_features with
          | Throw ex => Raised (log ++ found) ex
          | Return correspondences =>
              Completed
                (log ++ found,
                 observations
                 ++ [ mkObservation correspondences pose Isometry3d_Identity ])
          end
      end
  end.

(** [for (std::size_t i = 0; i < data_set.images.size(); ++i)], from [i]
    on. *)
Fixpoint loop `{TargetFinderPlugin} (data_set : ExtrinsicDataSet)
    (i : nat) (rest : list Image) (state : list Message * list (Observation 2 3))
  : Outcome (list Message * list (Observation 2 3)) :=
  match rest with
  | [] => Completed state
  | image :: rest' =>
      match turn data_set i image state with
      | Completed state' => loop data_set (S i) rest' state'
      | other => other
      end
  end.

Definition observe `{TargetFinderPlugin} (data_set : ExtrinsicDataSet)
  : Outcome (list Message * list (Observation 2 3)) :=
  loop data_set 0 (images data_set) ([], []).

Definition pos_tol : float := 1.0e-3%float.

Definition ang_tol : float := (0.05 * M_PI / 180.0)%float.

(** The [try] block of [main] up to the loop: what it needs of the
    parameters, or the exception that ends it. *)
Definition prepare `{Node}
  : except Exception
      (ExtrinsicDataSet * TargetFinderPlugin * CameraIntrinsics
       * Isometry3d * Isometry3d) :=
  data_path <- get getParam_string "data_path" ;;
  maybe_data_set <- parseFromFile data_path ;;
  data_set <-
    match maybe_data_set with
    | None =>
        Throw (runtime_error ("Failed to parse data set from path = " ++ data_path))
    | Some data_set => Return data_set
    end ;;
  target_finder_config <- get getParam_XmlRpcValue "target_finder" ;;
  target_finder <- createInstance target_finder_config ;;
  intr <- loadIntrinsics "intrinsics" ;;
  target_mount_to_target <- loadPose "base_to_target_guess" ;;
  camera_mount_to_camera <- loadPose "wrist_to_camera_guess" ;;
  _ <- namedWindow ;;
  Return (data_set, target_finder, intr, target_mount_to_target,
          camera_mount_to_camera).

(** The [try] block of [main]. *)
Definition run `{Node} : Outcome (list Message) :=
  match prepare with
  | Throw ex => Raised [] ex
  | Return (data_set, target_finder, intr, target_mount_to_target,
            camera_mount_to_camera) =>
      match @observe target_finder data_set with
      | Completed (log, observations) =>
          match
            measureIntrinsicCalibrationAccuracy observations intr
              camera_mount_to_camera target_mount_to_target
              Isometry3d_Identity 1.0
          with
          | Throw ex => Raised log ex
          | Return result =>
              Completed (log ++ analyzeResults result pos_tol ang_tol)
          end
      | Raised log ex => Raised log ex
      | Undefined => Undefined
      end
  end.

(** How the program ends: with an exit code, by [std::terminate] when what
    was thrown is no [std::exception], or undefined. *)
Inductive Exit :=
| Returned (log : list Message) (code : Z)
| Terminated
| UndefinedBehaviour.

(** [main]: every [std::exception] of the [try] block is logged as an
    error and the program returns -1; it returns 0 otherwise. *)
Definition main `{Node} : Exit :=
  match run with
  | Completed log => Returned log 0
  | Raised log foreign => Terminated
  | Raised log ex => Returned (log ++ [ (ERROR, [ text (what ex) ]) ]) (-1)
  | Undefined => UndefinedBehaviour
  end.

End Tool.

Arguments mkExtrinsicDataSet {Image} _ _.
Arguments images {Image} _.
Arguments tool_poses {Image} _.
Arguments findTargetFeatures {Image TargetFeatures _} _.
Arguments size {Image TargetFeatures _} _.
Arguments drawTargetFeatures {Image TargetFeatures _} _ _.
Arguments show {Image TargetFeatures _} _.
Arguments createCorrespondences {Image TargetFeatures _} _.
Arguments detect {Image TargetFeatures _} image.
Arguments turn {Image TargetFeatures _} data_set i image state.
Arguments loop {Image TargetFeatures _} data_set i rest state.
Arguments observe {Image TargetFeatures _} data_set.
Arguments prepare {Image TargetFeatures XmlRpcValue _}.
Arguments run {Image TargetFeatures XmlRpcValue _}.
Arguments main {Image TargetFeatures XmlRpcValue _}.
Arguments getParam_string {Image TargetFeatures XmlRpcValue _} _.
Arguments getParam_XmlRpcValue {Image TargetFeatures XmlRpcValue _} _.
Arguments parseFromFile {Image TargetFeatures XmlRpcValue _} _.
Arguments createInstance {Image TargetFeatures XmlRpcValue _} _.
Arguments loadIntrinsics {Image TargetFeatures XmlRpcValue _} _.
Arguments loadPose {Image TargetFeatures XmlRpcValue _} _.
Arguments namedWindow {Image TargetFeatures XmlRpcValue _}.
Arguments measureIntrinsicCalibrationAccuracy {Image TargetFeatures XmlRpcValue _} _ _ _ _ _ _.

End camera_intrinsic_calibration_validation.

(** ** More vocabulary: binary64 classes, logs, worked examples of the tool *)

Module binary64.

(** A float that is no NaN. *)
Definition a_number (x : float) : Prop := Prim2SF x <> S754_nan.

(** A positive finite float. *)
Definition positive_finite (x : float) : Prop :=
  exists m e, Prim2SF x = S754_finite false m e.

(** Two floats with the same value: the same float, or two zeros. *)
Definition same_value (a b : float) : Prop :=
  Prim2SF a = Prim2SF b
  \/ exists s s', Prim2SF a = S754_zero s /\ Prim2SF b = S754_zero s'.

End binary64.

Module validation_statements.

Import Eigen rct_optimizations types camera_intrinsic_calibration_validation.

(** One of the three numbers of a tolerance check is a NaN. *)
Definition has_nan (error : float * float) (tol : float) : bool :=
  PrimFloat.is_nan (fst error) || PrimFloat.is_nan (snd error)
  || PrimFloat.is_nan tol.

Definition is_warning (m : Message) : bool :=
  match fst m with WARN => true | _ => false end.

Definition is_error (m : Message) : bool :=
  match fst m with ERROR => true | _ => false end.

(** The number of warnings in a log. *)
Definition warnings (log : list Message) : nat :=
  List.length (filter is_warning log).

(** The last message of [analyzeResults] when the calibration passes. *)
Definition valid : Message :=
  (INFO, [ text "Camera intrinsic calibration is valid!" ]).

(** The [try] block of the loop went through for [image]. *)
Definition detected {Image TargetFeatures}
    `{TargetFinderPlugin Image TargetFeatures} (image : Image) : bool :=
  match snd (detect image) with
  | Return _ => true
  | Throw _ => false
  end.

(** Every coefficient of an isometry is finite. *)
Definition finite_isometry (t : Isometry3d) : bool :=
  forallb PrimFloat.is_finite (matrix t).

Definition finite_observation {N M} (o : Observation N M) : bool :=
  finite_isometry (to_camera_mount o) && finite_isometry (to_target_mount o)
  && forallb statements.finite_coefficients (correspondence_set o).

Definition finite_measurement (m : KinematicMeasurement) : bool :=
  finite_isometry (camera_to_target m)
  && forallb PrimFloat.is_finite (camera_chain_joints m)
  && forallb PrimFloat.is_finite (target_chain_joints m).

End validation_statements.

(** A data set of four images, each standing for the number of target
    features in it: the finder throws a [std::runtime_error] on 7, finds
    nothing in 0, and finds [n] features in any other image [n]. *)
Module samples.

Import Eigen rct_optimizations types camera_intrinsic_calibration_validation.

Definition finder : TargetFinderPlugin nat nat :=
  Build_TargetFinderPlugin nat nat
    (fun image =>
       if Nat.eqb image 7 then Throw (runtime_error "no board") else Return image)
    (fun target_features => target_features)
    (fun image _ => Return image)
    (fun _ => Return tt)
    (fun _ => Return []).

Definition pose (x : float) : Isometry3d := mkIso Matrix3d_Identity (mkV3 x 0 0).

Definition data_set : ExtrinsicDataSet nat :=
  mkExtrinsicDataSet [4; 7; 0; 5] [pose 1; pose 2; pose 3; pose 4].

(** A node whose accuracy measurement reports a positional error of 1 m. *)
Definition node : Node nat nat unit :=
  Build_Node nat nat unit
    (fun _ => Some "data.yaml"%string)
    (fun _ => Some tt)
    (fun _ => Return (Some data_set))
    (fun _ => Return finder)
    (fun _ => Return (mkCameraIntrinsics 1 1 0 0))
    (fun _ => Return Isometry3d_Identity)
    (Return tt)
    (fun _ _ _ _ _ _ => Return (mkAccuracyResult (1, 0) (0, 0))%float).

(** The same node without its data set. *)
Definition node_without_data : Node nat nat unit :=
  Build_Node nat nat unit
    (fun _ => Some "data.yaml"%string)
    (fun _ => Some tt)
    (fun _ => Return None)
    (fun _ => Return finder)
    (fun _ => Return (mkCameraIntrinsics 1 1 0 0))
    (fun _ => Return Isometry3d_Identity)
    (Return tt)
    (fun _ _ _ _ _ _ => Return (mkAccuracyResult (1, 0) (0, 0))%float).

(** The records of the sample measurement file, and the same records
    under another name, each followed by a second [pose] and an unknown
    key. *)
Definition entries : list (YAML.Node * YAML.Node) :=
  match fixture.file with YAML.Map _ es => es | _ => [] end.

Definition more : list (YAML.Node * YAML.Node) :=
  [ (fixture.key "pose", fixture.scalar 30 0 "later");
    (fixture.key "note", fixture.scalar 31 0 "unread") ].

Definition extend (r : YAML.Node) : YAML.Node :=
  match r with
  | YAML.Map m es => YAML.Map m (es ++ more)
  | other => other
  end.

Definition renamed_entries : list (YAML.Node * YAML.Node) :=
  map (fun e => (fixture.key "renamed", extend (snd e))) entries.

(** The sample node without its [data_path] parameter. *)
Definition node_without_path : Node nat nat unit :=
  Build_Node nat nat unit
    (fun _ => None)
    (fun _ => Some tt)
    (fun _ => Return (Some data_set))
    (fun _ => Return finder)
    (fun _ => Return (mkCameraIntrinsics 1 1 0 0))
    (fun _ => Return Isometry3d_Identity)
    (Return tt)
    (fun _ _ _ _ _ _ => Return (mkAccuracyResult (1, 0) (0, 0))%float).

(** One record whose [pose] is written as a scalar. *)
Definition file_with_scalar_pose : YAML.Node :=
  fixture.mapping 0
    [ ("m0", fixture.mapping 1
               [ ("target_joints", fixture.sequence 1 ["0.5"; "1.5"]);
                 ("camera_joints", fixture.sequence 2 []);
                 ("pose", fixture.scalar 3 8 "identity") ]) ]%string.


Definition observation : Observation 2 3 :=
  mkObservation [fixture.correspondence 1.5] (pose 1) Isometry3d_Identity.

Definition empty_observation : Observation 2 3 :=
  mkObservation [] (pose 1) Isometry3d_Identity.

End samples.

(** * Properties *)

Import Eigen EigenGeometry rct_optimizations calibration kinematic_calibration.
Import statements.

(** ** Binary64 facts, from the specification of the primitive operations *)
Lemma is_zero_spec (x : float) :
  PrimFloat.is_zero x = true -> exists s, Prim2SF x = S754_zero s.
Proof.
  unfold PrimFloat.is_zero. rewrite FloatAxioms.eqb_spec.
  change (Prim2SF PrimFloat.zero) with (S754_zero false).
  destruct (Prim2SF x) as [s | s | | s m e]; cbn.
  - intros _. now exists s.
  - destruct s; discriminate.
  - discriminate.
  - destruct s; discriminate.
Qed.

Lemma is_finite_false_of_spec (x : float) :
  (Prim2SF x = S754_nan \/ exists s, Prim2SF x = S754_infinity s) ->
  PrimFloat.is_finite x = false.
Proof.
  unfold PrimFloat.is_finite, PrimFloat.is_nan, PrimFloat.is_infinity.
  rewrite !FloatAxioms.eqb_spec, abs_spec.
  change (Prim2SF PrimFloat.infinity) with (S754_infinity false).
  intros [-> | [s ->]]; cbn; [reflexivity | destruct s; reflexivity].
Qed.

(** Dividing by a zero of either sign never gives a finite number. *)
Lemma div_by_zero_not_finite (x y : float) :
  PrimFloat.is_zero y = true -> PrimFloat.is_finite (x / y) = false.
Proof.
  intros Hy. apply is_zero_spec in Hy as [s Hs].
  apply is_finite_false_of_spec.
  rewrite div_spec, Hs. unfold SF64div.
  destruct (Prim2SF x) as [sx | sx | | sx mx ex]; cbn; eauto.
Qed.

(** ** C6 and C9: [Stats::percentDiff] *)

Lemma numbers_percentDiff (this other : Stats) :
  numbers (percentDiff this other)
  = map (fun xy => percent_of (fst xy) (snd xy))
        (combine (statistics this) (statistics other)).
Proof. reflexivity. Qed.

(** C6. For every pair of [Stats] values, [percentDiff] prints, for position
    mean, position standard deviation, orientation mean and orientation
    standard deviation in this order, 100 times (the receiver's statistic
    minus the other's) divided by the receiver's statistic, each after its
    label and followed by a percent sign. *)
Theorem percentDiff_reports_percent_of_receiver (this other : Stats) :
  numbers (percentDiff this other)
  = map (fun xy => percent_of (fst xy) (snd xy))
        (combine (statistics this) (statistics other))
  /\ texts (percentDiff this other)
     = [ "Position: "; "%"; "Position Std. Dev.: "; "%";
         "Orientation: "; "%"; "Orientation Std. Dev.: "; "%"; newline ]%string.
Proof. split; [apply numbers_percentDiff | reflexivity]. Qed.

(** C9. [percentDiff] has no guard on its divisors: whenever one of the
    receiver's four statistics is a zero, the division is carried out all
    the same and the number printed for that statistic is not finite (an
    infinity or a NaN); the function has no failure outcome. *)
Theorem percentDiff_divides_by_zero_statistic (this other : Stats) (k : nat) :
  k < 4 ->
  PrimFloat.is_zero (nth k (statistics this) 1%float) = true ->
  PrimFloat.is_finite (nth k (numbers (percentDiff this other)) 1%float) = false.
Proof.
  intros Hk Hz.
  rewrite numbers_percentDiff.
  destruct this as [a1 a2 a3 a4], other as [b1 b2 b3 b4].
  do 4 (destruct k as [|k]; [cbn in *; now apply div_by_zero_not_finite|]).
  lia.
Qed.

(** The validation of a single measurement: its standard deviation is 0,
    and the percentage of it is no number. *)
Lemma percentDiff_divides_by_zero_statistic_witness :
  exists this,
    fixture.validation = Return this
    /\ PrimFloat.is_zero (pos_stdev this) = true
    /\ PrimFloat.is_finite (nth 1 (numbers (percentDiff this this)) 1%float) = false.
Proof.
  eexists. split; [vm_compute; reflexivity|].
  split; [reflexivity|].
  apply (percentDiff_divides_by_zero_statistic _ _ 1); [lia | reflexivity].
Defined.

(** ** C1: [compareToMeasurements] *)

Section Validation.

Context `{G : DH.LinkGeometry} `{L : Libm} {C : Type}.
Variables (camera_chain target_chain : DH.DHChain).
Variable result : KinematicCalibrationResult C.

Lemma predict_is_prediction (m : KinematicMeasurement) :
  predict camera_chain target_chain result m
  = prediction camera_chain target_chain result m.
Proof. reflexivity. Qed.

Lemma compare_loop (ms : list KinematicMeasurement) :
  forall pos ori,
    fold_left (compare_step camera_chain target_chain result) ms (pos, ori)
    = (fold_left accumulators.push
         (map (translation_error camera_chain target_chain result) ms) pos,
       fold_left accumulators.push
         (map (rotation_error camera_chain target_chain result) ms) ori).
Proof.
  induction ms as [|m ms IH]; intros pos ori; [reflexivity|].
  cbn [fold_left map]. rewrite <- IH. reflexivity.
Qed.

End Validation.

Section Accumulating.

Context {T : Type} `{Smp : accumulators.Sample T}.

Lemma count_push (acc : accumulators.accumulator_set T) (x : T) :
  accumulators.count (accumulators.push acc x) = S (accumulators.count acc).
Proof. unfold accumulators.push. now destruct (Nat.ltb _ _). Qed.

Lemma sum_push (acc : accumulators.accumulator_set T) (x : T) :
  accumulators.sum (accumulators.push acc x)
  = accumulators.add (accumulators.sum acc) x.
Proof. unfold accumulators.push. now destruct (Nat.ltb _ _). Qed.

Lemma count_push_all (xs : list T) :
  forall acc,
    accumulators.count (fold_left accumulators.push xs acc)
    = accumulators.count acc + List.length xs.
Proof.
  induction xs as [|x xs IH]; intros acc; cbn [fold_left List.length].
  - now rewrite Nat.add_0_r.
  - rewrite IH, count_push. lia.
Qed.

Lemma sum_push_all (xs : list T) :
  forall acc,
    accumulators.sum (fold_left accumulators.push xs acc)
    = fold_left accumulators.add xs (accumulators.sum acc).
Proof.
  induction xs as [|x xs IH]; intros acc; cbn [fold_left]; [reflexivity|].
  now rewrite IH, sum_push.
Qed.

End Accumulating.

Lemma mean_accumulate (xs : list float) :
  accumulators.mean (accumulate xs) = mean_of xs.
Proof.
  unfold accumulators.mean, accumulate. now rewrite count_push_all, sum_push_all.
Qed.

(** The accumulators over the real numbers, sample after sample. *)
Lemma accumulate_snoc {T} `{accumulators.Sample T} (xs : list T) (x : T) :
  accumulate (xs ++ [x]) = accumulators.push (accumulate xs) x.
Proof. unfold accumulate. now rewrite fold_left_app. Qed.

Lemma accumulate_exact (xs : list R) :
  xs <> [] ->
  let acc := @accumulate R real_Sample xs in
  accumulators.count acc = List.length xs
  /\ accumulators.sum acc = total xs
  /\ (INR (List.length xs) * accumulators.variance acc
      = total_of_squares xs - total xs * total xs / INR (List.length xs))%R.
Proof.
  induction xs as [|x xs IH] using rev_ind; [congruence|]. intros _.
  cbn zeta. rewrite accumulate_snoc.
  unfold total, total_of_squares. rewrite !fold_left_app, length_app.
  cbn [fold_left List.length]. fold (total xs) (total_of_squares xs).
  destruct xs as [|y ys].
  - cbn. unfold total, total_of_squares. cbn. repeat split; field.
  - destruct IH as (Hc & Hs & Hv); [discriminate|].
    set (zs := y :: ys) in *.
    unfold accumulators.push. rewrite Hc.
    assert (Hlt : Nat.ltb 1 (S (List.length zs)) = true)
      by (apply Nat.ltb_lt; cbn; lia).
    rewrite Hlt. unfold accumulators.mean.
    cbn [accumulators.count accumulators.sum accumulators.variance].
    rewrite Hs.
    replace (S (List.length zs) - 1)%nat with (List.length zs) by lia.
    replace (List.length zs + 1)%nat with (S (List.length zs)) by lia.
    split; [reflexivity|]. split; [reflexivity|].
    cbn [accumulators.add accumulators.sub accumulators.mul accumulators.div
         accumulators.of_count real_Sample].
    rewrite S_INR.
    assert (Hn : INR (List.length zs) <> 0%R) by (apply not_0_INR; discriminate).
    assert (Hn1 : (INR (List.length zs) + 1 <> 0)%R).
    { pose proof (pos_INR (List.length zs)). lra. }
    set (n := INR (List.length zs)) in *.
    assert (Hvar : accumulators.variance (@accumulate R real_Sample zs)
                   = ((total_of_squares zs - total zs * total zs / n) / n)%R).
    { rewrite <- Hv. field. exact Hn. }
    rewrite Hvar. field. split; assumption.
Qed.

(** X1. Without rounding, the variance whose square root
    [compareToMeasurements] returns is the variance of the samples as a
    population: the mean of their squares minus the square of their mean. *)
Theorem variance_is_population_variance (xs : list R) :
  xs <> [] ->
  accumulators.variance (@accumulate R real_Sample xs)
  = (total_of_squares xs / INR (List.length xs)
     - (total xs / INR (List.length xs)) * (total xs / INR (List.length xs)))%R.
Proof.
  intros Hne. destruct (accumulate_exact xs Hne) as (_ & _ & Hv).
  assert (Hn : INR (List.length xs) <> 0%R).
  { apply not_0_INR. now destruct xs. }
  apply (Rmult_eq_reg_l (INR (List.length xs))); [|exact Hn].
  rewrite Hv. field. exact Hn.
Qed.

Lemma variance_is_population_variance_witness :
  accumulators.variance (@accumulate R real_Sample [1; 3]%R)
  = (total_of_squares [1; 3] / INR 2 - (total [1; 3] / INR 2) * (total [1; 3] / INR 2))%R.
Proof.
  apply (variance_is_population_variance [1; 3]%R). discriminate.
Defined.

(** C1. For every result and measurement set, [compareToMeasurements]
    rebuilds both chains from the offset matrices of the result (a rebuild
    that fails on a row count is the failure of the whole call) and returns
    the mean and the standard deviation (as the accumulators compute them,
    sample after sample), over all measurements, of the norm of the
    translation error and of the angular distance between the
    measured pose and the pose predicted as (FK of the camera chain composed
    with camera mount to camera) inverse, composed with (camera base to
    target base, FK of the target chain, target mount to target).  No solver
    takes part. *)
Theorem compareToMeasurements_mean_and_stdev
    `{G : DH.LinkGeometry} `{L : Libm} {C : Type}
    (initial_camera_chain initial_target_chain : DH.DHChain)
    (result : KinematicCalibrationResult C)
    (measurements : list KinematicMeasurement) :
  compareToMeasurements initial_camera_chain initial_target_chain result measurements
  = (cc <- DH.withOffsets initial_camera_chain (camera_chain_dh_offsets result) ;;
     tc <- DH.withOffsets initial_target_chain (target_chain_dh_offsets result) ;;
     Return
       (mkStats
          (mean_of (map (translation_error cc tc result) measurements))
          (stdev_of (map (translation_error cc tc result) measurements))
          (mean_of (map (rotation_error cc tc result) measurements))
          (stdev_of (map (rotation_error cc tc result) measurements)))).
Proof.
  unfold compareToMeasurements.
  destruct (DH.withOffsets initial_camera_chain _) as [e | cc]; [reflexivity|].
  destruct (DH.withOffsets initial_target_chain _) as [e | tc]; [reflexivity|].
  cbn [bind]. rewrite compare_loop. cbn [fst snd].
  now rewrite <- !mean_accumulate.
Qed.


(** ** The failure monad *)

Lemma mapM_map {E A B C} (f : B -> except E C) (h : A -> B) (xs : list A) :
  mapM f (map h xs) = mapM (fun x => f (h x)) xs.
Proof.
  induction xs as [|x xs IH]; [reflexivity|].
  cbn [map mapM]. now rewrite IH.
Qed.

Lemma mapM_ext_in {E A B} (f g : A -> except E B) (xs : list A) :
  (forall x, In x xs -> f x = g x) -> mapM f xs = mapM g xs.
Proof.
  induction xs as [|x xs IH]; intros Hfg; [reflexivity|].
  cbn [mapM]. rewrite (Hfg x) by now left.
  rewrite IH; [reflexivity|]. intros y Hy. apply Hfg. now right.
Qed.

Lemma mapM_Return {E A B} (f : A -> except E B) (g : A -> B) (xs : list A) :
  (forall x, In x xs -> f x = Return (g x)) -> mapM f xs = Return (map g xs).
Proof.
  induction xs as [|x xs IH]; intros Hfg; [reflexivity|].
  cbn [mapM map]. rewrite (Hfg x) by now left.
  cbn [bind]. rewrite IH; [reflexivity|]. intros y Hy. apply Hfg. now right.
Qed.

Lemma mapM_Throw {E A B} (f : A -> except E B) (xs : list A) (x : A) :
  In x xs -> (exists e, f x = Throw e) -> exists e, mapM f xs = Throw e.
Proof.
  induction xs as [|y xs IH]; intros Hin Hx; [destruct Hin|].
  cbn [mapM]. destruct (f y) as [e | b] eqn:Hy; [now exists e|].
  destruct Hin as [-> | Hin].
  - destruct Hx as [e He]. congruence.
  - destruct (IH Hin Hx) as [e ->]. now exists e.
Qed.

Lemma mapM_length {E A B} (f : A -> except E B) (xs : list A) (ys : list B) :
  mapM f xs = Return ys -> List.length ys = List.length xs.
Proof.
  revert ys. induction xs as [|x xs IH]; intros ys; cbn [mapM].
  - now intros [= <-].
  - destruct (f x) as [e | y]; [discriminate|]. cbn [bind].
    destruct (mapM f xs) as [e | ys']; [discriminate|]. cbn [bind].
    intros [= <-]. cbn. now rewrite (IH ys').
Qed.

(** ** C5, C2, C10: [loadMeasurements] *)

Lemma forallb_false_witness {A} (p : A -> bool) (xs : list A) :
  forallb p xs = false -> exists x, In x xs /\ p x = false.
Proof.
  induction xs as [|x xs IH]; cbn; [discriminate|].
  destruct (p x) eqn:Hx; cbn.
  - intros H. destruct (IH H) as [y [Hy Hp]]. exists y. auto.
  - intros _. exists x. auto.
Qed.

Section Loading.

Context `{Cv : YAML.Convert}.

Lemma as_double_number (n : YAML.Node) :
  is_number n = true -> YAML.as_double n = Return (number_of n).
Proof.
  destruct n as [| m | m s | m items | m entries]; try discriminate.
  cbn. now destruct (YAML.decode_double s).
Qed.

Lemma as_double_not_number (n : YAML.Node) :
  is_number n = false -> YAML.as_double n = Throw (YAML.TypedBadConversion (YAML.Mark_of n)).
Proof.
  destruct n as [| m | m s | m items | m entries]; try reflexivity.
  cbn. now destruct (YAML.decode_double s).
Qed.

Lemma as_double_Return (n : YAML.Node) (x : float) :
  YAML.as_double n = Return x -> is_number n = true.
Proof.
  destruct (is_number n) eqn:Hn; [reflexivity|].
  now rewrite as_double_not_number.
Qed.

(** Reading a sequence goes through its items in order. *)
Lemma readJoints_items (m : YAML.Mark) (items : list YAML.Node) :
  readJoints (YAML.Sequence m items) = mapM YAML.as_double items.
Proof.
  unfold readJoints. cbn [YAML.size YAML.at_index].
  induction items as [|x items IH]; [reflexivity|].
  cbn [List.length seq mapM nth bind].
  rewrite <- IH, <- seq_shift, mapM_map. reflexivity.
Qed.

Lemma readJoints_numbers (n : YAML.Node) :
  is_number_sequence n = true ->
  readJoints n = Return (map number_of (items_of n)).
Proof.
  destruct n as [| m | m s | m items | m entries]; try discriminate.
  cbn [is_number_sequence items_of]. intros Hall.
  rewrite readJoints_items. apply mapM_Return.
  intros x Hx. apply as_double_number.
  rewrite forallb_forall in Hall. now apply Hall.
Qed.

Lemma readJoints_defect (r : YAML.Node) (key : string) :
  joints_defect r key = true -> exists e, readJoints (field r key) = Throw e.
Proof.
  unfold joints_defect.
  destruct (field r key) as [| m | m s | m items | m entries]; try discriminate.
  intros Hbad. apply negb_true_iff in Hbad.
  rewrite readJoints_items.
  destruct (forallb_false_witness _ _ Hbad) as [x [Hx Hnum]].
  apply (mapM_Throw _ _ x Hx).
  eexists. now apply as_double_not_number.
Qed.

(** No position of a sequence, written in decimal, is one of the keys the
    loader asks for: each key starts with a letter. *)
Definition starts_with_letter (key : string) : Prop :=
  forall i, String.eqb (YAML.decimal i) key = false.

Lemma keys_start_with_letter :
  Forall starts_with_letter
         ("target_joints" :: "camera_joints" :: "pose" :: pose_keys)%string.
Proof.
  repeat constructor; intros i; unfold YAML.decimal;
    destruct (Nat.to_uint i); reflexivity.
Qed.

Lemma find_entry_none (p : YAML.Node -> bool) (entries : list (YAML.Node * YAML.Node)) :
  (forall k v, In (k, v) entries -> p k = false) ->
  YAML.find_entry p entries = YAML.Undefined.
Proof.
  induction entries as [|[k v] entries IH]; intros Hp; [reflexivity|].
  cbn [YAML.find_entry]. rewrite (Hp k v) by now left.
  apply IH. intros k' v' Hin. apply (Hp k' v'). now right.
Qed.

Lemma subscript_field (r : YAML.Node) (key : string) :
  starts_with_letter key ->
  YAML.subscript r key = Return (field r key)
  \/ YAML.subscript r key = Throw YAML.BadSubscript.
Proof.
  intros Hkey. destruct r as [| m | m s | m items | m entries]; auto.
  left. cbn [YAML.subscript field]. f_equal.
  apply find_entry_none. intros k v Hin.
  apply in_combine_l, in_map_iff in Hin as [i [<- _]].
  apply Hkey.
Qed.

Lemma subscript_map (r : YAML.Node) (key : string) :
  is_map r = true -> YAML.subscript r key = Return (field r key).
Proof. destruct r; try discriminate. reflexivity. Qed.

Lemma readField_map (pose : YAML.Node) (key : string) :
  is_map pose = true -> readField pose key = YAML.as_double (field pose key).
Proof. intros Hm. unfold readField. now rewrite subscript_map. Qed.

(** Whatever the node is, reading a field that has no number fails. *)
Lemma readField_not_number (pose : YAML.Node) (key : string) :
  starts_with_letter key ->
  is_number (field pose key) = false ->
  exists e, readField pose key = Throw e.
Proof.
  intros Hkey Hnum. unfold readField.
  destruct (subscript_field pose key Hkey) as [-> | ->].
  - cbn [bind]. rewrite (as_double_not_number _ Hnum). eauto.
  - cbn [bind]. eauto.
Qed.

(** A well-formed record loads, as the measurement it stands for. *)
Lemma loadMeasurement_record (r : YAML.Node) :
  well_formed_record r = true ->
  loadMeasurement (Some r) = Return (measurement_of r).
Proof.
  unfold well_formed_record. rewrite !andb_true_iff.
  intros [[[[Hmap Htj] Hcj] Hpose] Hkeys].
  cbn [forallb pose_keys] in Hkeys. rewrite !andb_true_iff in Hkeys.
  destruct Hkeys as (Hx & Hy & Hz & Hqw & Hqx & Hqy & Hqz & _).
  unfold loadMeasurement. cbn [YAML.subscript_second].
  rewrite !(subscript_map r) by assumption. cbn [bind].
  rewrite (readJoints_numbers _ Htj), (readJoints_numbers _ Hcj). cbn [bind].
  rewrite !(readField_map _ _ Hpose).
  rewrite !as_double_number by assumption.
  reflexivity.
Qed.

(** The seven reads of the pose succeed only on a complete pose. *)
Lemma pose_reads (r : YAML.Node) (x y z qw qx qy qz : float) :
  is_map (field r "pose") = true ->
  readField (field r "pose") "x" = Return x ->
  readField (field r "pose") "y" = Return y ->
  readField (field r "pose") "z" = Return z ->
  readField (field r "pose") "qw" = Return qw ->
  readField (field r "pose") "qx" = Return qx ->
  readField (field r "pose") "qy" = Return qy ->
  readField (field r "pose") "qz" = Return qz ->
  pose_complete r = true.
Proof.
  intros Hm. rewrite !(readField_map _ _ Hm). intros Hx Hy Hz Hqw Hqx Hqy Hqz.
  unfold pose_complete. rewrite Hm. cbn [andb forallb pose_keys].
  now rewrite (as_double_Return _ _ Hx), (as_double_Return _ _ Hy),
    (as_double_Return _ _ Hz), (as_double_Return _ _ Hqw),
    (as_double_Return _ _ Hqx), (as_double_Return _ _ Hqy),
    (as_double_Return _ _ Hqz).
Qed.

(** Closes a goal [exists e, c = Throw e] once [c] has thrown. *)
Ltac thrown := cbn [bind]; eexists; reflexivity.

(** A record with one of the defects does not load. *)
Lemma loadMeasurement_defect (r : YAML.Node) :
  malformed_record r = true -> exists e, loadMeasurement (Some r) = Throw e.
Proof.
  unfold malformed_record. rewrite !orb_true_iff. intros Hdefect.
  pose proof keys_start_with_letter as Hkeys.
  inversion_clear Hkeys as [|? ? Htj Hkeys'].
  inversion_clear Hkeys' as [|? ? Hcj Hkeys].
  inversion_clear Hkeys as [|? ? Hpose Hkeys'].
  inversion_clear Hkeys' as [|? ? Hx _].
  unfold loadMeasurement. cbn [YAML.subscript_second].
  destruct (subscript_field r "target_joints" Htj) as [-> | ->]; [|thrown].
  cbn [bind].
  destruct (readJoints (field r "target_joints")) as [e | tj] eqn:Hrtj; [thrown|].
  cbn [bind].
  destruct (subscript_field r "camera_joints" Hcj) as [-> | ->]; [|thrown].
  cbn [bind].
  destruct (readJoints (field r "camera_joints")) as [e | cj] eqn:Hrcj; [thrown|].
  cbn [bind].
  destruct (subscript_field r "pose" Hpose) as [-> | ->]; [|thrown].
  cbn [bind].
  destruct Hdefect as [[Hd | Hd] | Hd].
  - apply readJoints_defect in Hd as [e He]. congruence.
  - apply readJoints_defect in Hd as [e He]. congruence.
  - apply negb_true_iff in Hd.
    destruct (is_map (field r "pose")) eqn:Hm.
    + destruct (readField (field r "pose") "x") as [e | x] eqn:Rx; [thrown|].
      destruct (readField (field r "pose") "y") as [e | y] eqn:Ry; [thrown|].
      destruct (readField (field r "pose") "z") as [e | z] eqn:Rz; [thrown|].
      destruct (readField (field r "pose") "qw") as [e | qw] eqn:Rqw; [thrown|].
      destruct (readField (field r "pose") "qx") as [e | qx] eqn:Rqx; [thrown|].
      destruct (readField (field r "pose") "qy") as [e | qy] eqn:Rqy; [thrown|].
      destruct (readField (field r "pose") "qz") as [e | qz] eqn:Rqz; [thrown|].
      rewrite (pose_reads r x y z qw qx qy qz) in Hd by assumption.
      discriminate.
    + destruct (readField_not_number (field r "pose") "x" Hx) as [e ->];
        [|thrown].
      now destruct (field r "pose").
Qed.

Lemma seconds_records (doc : YAML.Node) :
  is_map doc = true -> YAML.seconds doc = map Some (records doc).
Proof.
  destruct doc as [| m | m s | m items | m entries]; try discriminate.
  intros _. cbn. now rewrite map_map.
Qed.

Lemma loadMeasurements_records (doc : YAML.Node) :
  well_formed_file doc = true ->
  loadMeasurements (Return doc) = Return (map measurement_of (records doc)).
Proof.
  unfold well_formed_file. rewrite andb_true_iff. intros [Hmap Hall].
  unfold loadMeasurements. cbn [bind].
  rewrite (seconds_records _ Hmap), mapM_map.
  rewrite (mapM_Return _ measurement_of); [reflexivity|].
  intros r Hr. apply loadMeasurement_record.
  rewrite forallb_forall in Hall. now apply Hall.
Qed.

End Loading.

(** C5. A well-formed measurement file loads: there are as many
    measurements as records, in file order; the joint vectors of a
    measurement hold the numbers of the two sequences of its record, so they
    have their lengths; and its pose is the identity translated by
    (x, y, z), then rotated by the quaternion (qw, qx, qy, qz). *)
Theorem loadMeasurements_well_formed `{Cv : YAML.Convert} (doc : YAML.Node) :
  well_formed_file doc = true ->
  exists ms,
    loadMeasurements (Return doc) = Return ms
    /\ List.length ms = List.length (records doc)
    /\ forall i r,
        nth_error (records doc) i = Some r ->
        exists meas,
          nth_error ms i = Some meas
          /\ target_chain_joints meas = map number_of (items_of (field r "target_joints"))
          /\ List.length (target_chain_joints meas)
             = List.length (items_of (field r "target_joints"))
          /\ camera_chain_joints meas = map number_of (items_of (field r "camera_joints"))
          /\ List.length (camera_chain_joints meas)
             = List.length (items_of (field r "camera_joints"))
          /\ camera_to_target meas
             = rotate (translate Isometry3d_Identity (pose_translation r))
                      (pose_quaternion r).
Proof.
  intros Hwf. exists (map measurement_of (records doc)).
  split; [now apply loadMeasurements_records|].
  split; [now rewrite length_map|].
  intros i r Hr. exists (measurement_of r).
  split; [now apply map_nth_error|].
  cbn [measurement_of target_chain_joints camera_chain_joints camera_to_target].
  now rewrite !length_map.
Qed.

Lemma loadMeasurements_well_formed_witness :
  @well_formed_file fixture.convert fixture.file = true
  /\ exists ms,
      @loadMeasurements fixture.convert (Return fixture.file) = Return ms
      /\ List.length ms = 2.
Proof.
  split; [reflexivity|].
  destruct (@loadMeasurements_well_formed fixture.convert fixture.file eq_refl)
    as [ms [Hload [Hlen _]]].
  exists ms. split; [exact Hload | exact Hlen].
Defined.

(** What the sample file loads as: the joints in order, the translation of
    the pose, and Eigen's rotation matrix of the raw quaternion. *)
Example loadMeasurements_file :
  @loadMeasurements fixture.convert (Return fixture.file)
  = Return
      [ mkKinematicMeasurement
          (mkIso Matrix3d_Identity (mkV3 1 2 0.5)) [] [0.5; 1.5]%float;
        mkKinematicMeasurement
          (mkIso (mkM3 1 0 0 0 (-7) 0 0 0 (-7)) (mkV3 0 0 1)) [] [0; 1]%float ].
Proof. vm_compute. reflexivity. Qed.

(** C10. Loading never looks at the norm of the quaternion: for every
    well-formed file, whatever the four numbers are, the linear part of each
    stored pose is the identity times Eigen's rotation matrix of the raw
    quaternion, which is not normalised; for the quaternion (0, 2, 0, 0), of
    norm 2, that linear part is diag(1, -7, -7), which is no rotation. *)
Theorem loadMeasurements_keeps_raw_quaternion `{Cv : YAML.Convert} (doc : YAML.Node) :
  well_formed_file doc = true ->
  exists ms,
    loadMeasurements (Return doc) = Return ms
    /\ forall i r,
        nth_error (records doc) i = Some r ->
        exists meas,
          nth_error ms i = Some meas
          /\ linear (camera_to_target meas)
             = mulMM Matrix3d_Identity (toRotationMatrix (pose_quaternion r))
          /\ (pose_quaternion r = mkQuat 0 2 0 0 ->
              linear (camera_to_target meas) = mkM3 1 0 0 0 (-7) 0 0 0 (-7)).
Proof.
  intros Hwf. exists (map measurement_of (records doc)).
  split; [now apply loadMeasurements_records|].
  intros i r Hr. exists (measurement_of r).
  split; [now apply map_nth_error|].
  split; [reflexivity|].
  intros Hq. cbn [measurement_of camera_to_target rotate rotateM linear].
  rewrite Hq. reflexivity.
Qed.

Lemma loadMeasurements_keeps_raw_quaternion_witness :
  @well_formed_file fixture.convert fixture.file = true
  /\ exists r meas ms,
      nth_error (records fixture.file) 1 = Some r
      /\ @pose_quaternion fixture.convert r = mkQuat 0 2 0 0
      /\ @loadMeasurements fixture.convert (Return fixture.file) = Return ms
      /\ nth_error ms 1 = Some meas
      /\ linear (camera_to_target meas) = mkM3 1 0 0 0 (-7) 0 0 0 (-7).
Proof.
  split; [reflexivity|].
  destruct (@loadMeasurements_keeps_raw_quaternion fixture.convert fixture.file eq_refl)
    as [ms [Hload Hall]].
  destruct (Hall 1 _ eq_refl) as [meas [Hnth [_ Hlin]]].
  eexists; exists meas, ms.
  split; [reflexivity|].
  split; [reflexivity|].
  split; [exact Hload|].
  split; [exact Hnth|].
  apply Hlin. reflexivity.
Defined.

(** diag(1, -7, -7) is no rotation: its product with its transpose is
    diag(1, 49, 49), not the identity. *)
Example raw_quaternion_matrix_is_no_rotation :
  let R := toRotationMatrix (mkQuat 0 2 0 0) in
  mulMM R (transpose R) = mkM3 1 0 0 0 49 0 0 0 49.
Proof. reflexivity. Qed.

(** C2, as stated, fails: a record with neither [target_joints] nor
    [camera_joints] loads, with two empty joint vectors. *)
Lemma loadMeasurements_without_joints_loads :
  (exists r, records fixture.file_without_joints = [r]
             /\ field r "target_joints" = YAML.Undefined
             /\ field r "camera_joints" = YAML.Undefined)
  /\ @loadMeasurements fixture.convert (Return fixture.file_without_joints)
     = Return [ mkKinematicMeasurement
                  (mkIso Matrix3d_Identity (mkV3 1 2 0.5)) [] [] ].
Proof.
  split.
  - eexists. repeat split; reflexivity.
  - vm_compute. reflexivity.
Qed.

(** The text of the failure names the place of a scalar that is not a
    number, counted from one; for a missing [pose] there is no place to
    name. *)
Example loadMeasurements_file_with_text :
  @loadMeasurements fixture.convert (Return fixture.file_with_text)
  = Throw (mkBadFileException
             "YAML failure: yaml-cpp: error at line 6, column 8: bad conversion").
Proof. vm_compute. reflexivity. Qed.

Example loadMeasurements_file_without_pose :
  @loadMeasurements fixture.convert (Return fixture.file_without_pose)
  = Throw (mkBadFileException "YAML failure: bad conversion").
Proof. vm_compute. reflexivity. Qed.

(** ** C7: forward kinematics and joint limits *)

Lemma fold_left_map {A B C} (f : A -> B -> A) (g : C -> B) (xs : list C) :
  forall a, fold_left f (map g xs) a = fold_left (fun a x => f a (g x)) xs a.
Proof. induction xs as [|x xs IH]; intros a; [reflexivity|]. cbn. apply IH. Qed.

Lemma combine_by_index {A B} (da : A) (db : B) (xs : list A) :
  forall ys : list B,
    List.length ys = List.length xs ->
    combine xs ys
    = map (fun i => (nth i xs da, nth i ys db)) (seq 0 (List.length xs)).
Proof.
  induction xs as [|x xs IH]; intros [|y ys] Hlen; try discriminate; [reflexivity|].
  cbn [combine List.length seq map nth]. f_equal.
  rewrite <- seq_shift, map_map. cbn [nth]. apply IH. now injection Hlen.
Qed.

Section Limits.

Context `{G : DH.LinkGeometry}.

Lemma getFK_by_index (chain : DH.DHChain) (q : VectorXd) :
  List.length q = DH.dof chain ->
  DH.getFK chain q
  = fold_left compose (map (joint_transform chain q) (seq 0 (DH.dof chain)))
              (DH.base_offset chain).
Proof.
  intros Hlen. unfold DH.getFK, DH.dof.
  rewrite (combine_by_index (DH.mkDHTransform (DH.mkV4 0 0 0 0) DH.REVOLUTE "" 0 0)
             0%float _ _ Hlen).
  now rewrite !fold_left_map.
Qed.

Lemma withJointValue_limits (t t' : DH.DHTransform) (v : float) :
  DH.params t = DH.params t' -> DH.type t = DH.type t' ->
  DH.withJointValue t v = DH.withJointValue t' v.
Proof. unfold DH.withJointValue. now intros -> ->. Qed.

Lemma getFK_limits (c c' : DH.DHChain) (q : VectorXd) :
  same_up_to_limits c c' -> DH.getFK c' q = DH.getFK c q.
Proof.
  intros [Hbase Hsegs]. unfold DH.getFK. rewrite <- Hbase.
  generalize (DH.base_offset c). revert q.
  induction Hsegs as [|t t' ts ts' [Hp Ht] _ IH]; intros q a; [reflexivity|].
  destruct q as [|v q]; [reflexivity|].
  cbn [combine fold_left fst snd].
  now rewrite (withJointValue_limits t t' v Hp Ht), IH.
Qed.

Lemma same_up_to_limits_dof (c c' : DH.DHChain) :
  same_up_to_limits c c' -> DH.dof c' = DH.dof c.
Proof. intros [_ Hsegs]. unfold DH.dof. symmetry. exact (Forall2_length Hsegs). Qed.

Lemma applyOffsets_limits (c c' : DH.DHChain) (offsets : DH.MatrixX4d) :
  same_up_to_limits c c' ->
  same_up_to_limits (DH.applyOffsets c offsets) (DH.applyOffsets c' offsets).
Proof.
  intros [Hbase Hsegs]. split; [exact Hbase|].
  cbn [DH.applyOffsets DH.transforms]. revert offsets.
  induction Hsegs as [|t t' ts ts' [Hp Ht] _ IH]; intros [|o offsets];
    cbn [combine map]; constructor; auto.
  cbn. now rewrite Hp, Ht.
Qed.

End Limits.

Section ValidationLimits.

Context `{G : DH.LinkGeometry} `{L : Libm} {C : Type}.

Lemma predict_limits (cc tc tc' : DH.DHChain)
    (result : KinematicCalibrationResult C) (m : KinematicMeasurement) :
  same_up_to_limits tc tc' -> predict cc tc' result m = predict cc tc result m.
Proof. intros Hsame. unfold predict. now rewrite (getFK_limits tc tc'). Qed.

Lemma compare_loop_limits (cc tc tc' : DH.DHChain)
    (result : KinematicCalibrationResult C) (ms : list KinematicMeasurement) :
  same_up_to_limits tc tc' ->
  forall acc,
    fold_left (compare_step cc tc' result) ms acc
    = fold_left (compare_step cc tc result) ms acc.
Proof.
  intros Hsame. induction ms as [|m ms IH]; intros acc; [reflexivity|].
  cbn [fold_left]. rewrite IH. unfold compare_step.
  now rewrite (predict_limits cc tc tc' result m Hsame).
Qed.

Lemma compareToMeasurements_limits (camera tc tc' : DH.DHChain)
    (result : KinematicCalibrationResult C) (ms : list KinematicMeasurement) :
  same_up_to_limits tc tc' ->
  compareToMeasurements camera tc' result ms
  = compareToMeasurements camera tc result ms.
Proof.
  intros Hsame. unfold compareToMeasurements.
  destruct (DH.withOffsets camera _) as [e | cc]; [reflexivity|]. cbn [bind].
  unfold DH.withOffsets. rewrite (same_up_to_limits_dof tc tc' Hsame).
  destruct (Nat.eqb _ _); [|reflexivity]. cbn [bind].
  now rewrite (compare_loop_limits cc _ _ result ms
                 (applyOffsets_limits tc tc' _ Hsame)).
Qed.

Lemma compareToMeasurements_returns (camera tc : DH.DHChain)
    (result : KinematicCalibrationResult C) (ms : list KinematicMeasurement) :
  List.length (camera_chain_dh_offsets result) = DH.dof camera ->
  List.length (target_chain_dh_offsets result) = DH.dof tc ->
  exists stats, compareToMeasurements camera tc result ms = Return stats.
Proof.
  intros Hc Ht. unfold compareToMeasurements, DH.withOffsets.
  rewrite Hc, Ht, !Nat.eqb_refl. cbn [bind]. eexists. reflexivity.
Qed.

End ValidationLimits.

(** C7. Forward kinematics never clamps: for a joint vector as long as the
    chain, the result is the base offset composed, in segment order, with
    the transform of each segment at its joint value taken as it is, and it
    is the same for every chain that differs only in the declared limits,
    so a value outside [min, max] is used like any other.  The validation
    pass inherits both facts: its outcome does not depend on the limits of
    the target chain, and it returns statistics whenever the offset
    matrices of the result fit the chains. *)
Theorem getFK_uses_joint_values_as_they_are
    `{G : DH.LinkGeometry} `{L : Libm} {C : Type}
    (chain chain' : DH.DHChain) (q : VectorXd) :
  List.length q = DH.dof chain ->
  same_up_to_limits chain chain' ->
  DH.getFK chain q
  = fold_left compose (map (joint_transform chain q) (seq 0 (DH.dof chain)))
              (DH.base_offset chain)
  /\ DH.getFK chain' q = DH.getFK chain q
  /\ forall (camera : DH.DHChain) (result : KinematicCalibrationResult C)
            (ms : list KinematicMeasurement),
      compareToMeasurements camera chain' result ms
      = compareToMeasurements camera chain result ms
      /\ (List.length (camera_chain_dh_offsets result) = DH.dof camera ->
          List.length (target_chain_dh_offsets result) = DH.dof chain ->
          exists stats, compareToMeasurements camera chain result ms = Return stats).
Proof.
  intros Hlen Hsame.
  split; [now apply getFK_by_index|].
  split; [now apply getFK_limits|].
  intros camera result ms.
  split; [now apply compareToMeasurements_limits|].
  apply compareToMeasurements_returns.
Qed.

Lemma getFK_uses_joint_values_as_they_are_witness :
  Forall2 (fun t v => out_of_range t v = true)
          (DH.transforms fixture.narrow_target_chain) [4; 7]%float
  /\ Forall2 (fun t v => out_of_range t v = true)
             (DH.transforms fixture.target_chain) [4; 7]%float
  /\ @DH.getFK fixture.geometry fixture.narrow_target_chain [4; 7]%float
     = @DH.getFK fixture.geometry fixture.target_chain [4; 7]%float.
Proof.
  split; [repeat constructor|].
  split; [repeat constructor|].
  refine (proj1 (proj2
    (@getFK_uses_joint_values_as_they_are fixture.geometry fixture.libm unit
       fixture.target_chain fixture.narrow_target_chain [4; 7]%float
       eq_refl _))).
  split; [reflexivity|]. repeat constructor.
Defined.

(** ** C3 and C4: the optimizer *)

Lemma frozen_In (fixed : list nat) (i : nat) :
  In i fixed -> optimizer.frozen fixed i = true.
Proof.
  intros Hin. unfold optimizer.frozen. apply existsb_exists.
  exists i. split; [exact Hin | apply Nat.eqb_refl].
Qed.

(** A fixed component comes out of the embedding as it went in, whatever
    the free vector holds. *)
Lemma embed_fixed (fixed : list nat) (xs : list float) :
  forall (i k : nat) (free : list float) (dflt : float),
    In (i + k) fixed ->
    nth k (fst (optimizer.embed i fixed xs free)) dflt = nth k xs dflt.
Proof.
  induction xs as [|x xs IH]; intros i k free dflt Hin; [reflexivity|].
  cbn [optimizer.embed].
  destruct k as [|k].
  - rewrite Nat.add_0_r in Hin. rewrite (frozen_In _ _ Hin).
    now destruct (optimizer.embed (S i) fixed xs free).
  - assert (Hin' : In (S i + k) fixed) by (now rewrite Nat.add_succ_comm).
    destruct (optimizer.frozen fixed i).
    + specialize (IH (S i) k free dflt Hin').
      now destruct (optimizer.embed (S i) fixed xs free).
    + destruct free as [|v free].
      * specialize (IH (S i) k [] dflt Hin').
        now destruct (optimizer.embed (S i) fixed xs []).
      * specialize (IH (S i) k free dflt Hin').
        now destruct (optimizer.embed (S i) fixed xs free).
Qed.

Lemma embed_groups_fixed (groups : list (list float)) :
  forall (masks : Mask) (free : list float) (g k : nat) (dflt : float),
    In k (nth g masks []) ->
    nth k (nth g (optimizer.embed_groups masks groups free) []) dflt
    = nth k (nth g groups []) dflt.
Proof.
  induction groups as [|x groups IH]; intros masks free g k dflt Hin.
  - now destruct g.
  - cbn [optimizer.embed_groups].
    destruct (optimizer.embed 0 (hd [] masks) x free) as [x' unused] eqn:Hx.
    destruct g as [|g]; cbn [nth].
    + change x' with (fst (x', unused)). rewrite <- Hx.
      apply embed_fixed. now destruct masks.
    + apply IH. now destruct masks; [destruct g|].
Qed.



Lemma nth_map_seq {A} (f : nat -> A) (n i : nat) (dflt : A) :
  i < n -> nth i (map f (seq 0 n)) dflt = f i.
Proof.
  intros Hi. rewrite (nth_indep _ dflt (f 0)) by now rewrite length_map, length_seq.
  rewrite map_nth, seq_nth by assumption. reflexivity.
Qed.

Lemma entry_unflatten (rows : nat) (g : list float) (row col : nat) :
  row < rows -> col < 4 ->
  entry (optimizer.unflatten rows g) row col = nth (rows * col + row) g 0%float.
Proof.
  intros Hrow Hcol. unfold entry, optimizer.unflatten.
  rewrite nth_map_seq by assumption.
  do 4 (destruct col as [|col]; [cbn [component DH.d DH.theta DH.r DH.alpha];
                                 f_equal; lia|]).
  lia.
Qed.

Lemma nth_position_toIsometry `{S : optimizer.Solver} (pos rot : list float) (i : nat) :
  i < 3 -> nth i (optimizer.position (optimizer.toIsometry pos rot)) 0%float
           = nth i pos 0%float.
Proof.
  intros Hi. do 3 (destruct i as [|i]; [reflexivity|]). lia.
Qed.

Section Optimizer.

Context `{G : DH.LinkGeometry} {Covariance : Type} `{S : optimizer.Solver Covariance}.
Variable p : KinematicCalibrationProblemPose6D.
Variable offsetPriorWeight : float.

(** Whatever the solver returns, a masked unknown ends as it started. *)
Lemma final_parameters_fixed (g k : nat) :
  In k (nth g (mask p) []) ->
  nth k (optimizer.group g (optimizer.final_parameters p offsetPriorWeight)) 0%float
  = nth k (optimizer.group g (optimizer.initial_parameters p)) 0%float.
Proof. intros Hin. now apply embed_groups_fixed. Qed.


Lemma optimize_Return (r : KinematicCalibrationResult Covariance) :
  optimizer.optimize p offsetPriorWeight = Return r ->
  let groups := optimizer.final_parameters p offsetPriorWeight in
  camera_mount_to_camera r
  = optimizer.toIsometry (optimizer.group 2 groups) (optimizer.group 3 groups)
  /\ target_mount_to_target r
     = optimizer.toIsometry (optimizer.group 4 groups) (optimizer.group 5 groups)
  /\ camera_base_to_target_base r
     = optimizer.toIsometry (optimizer.group 6 groups) (optimizer.group 7 groups)
  /\ camera_chain_dh_offsets r
     = optimizer.unflatten (DH.dof (camera_chain p)) (optimizer.group 0 groups)
  /\ target_chain_dh_offsets r
     = optimizer.unflatten (DH.dof (target_chain p)) (optimizer.group 1 groups).
Proof.
  unfold optimizer.optimize.
  destruct (optimizer.consistent p); [|discriminate].
  destruct (optimizer.computeCovariance _ _); [|discriminate].
  intros [= <-]. cbn. repeat split; reflexivity.
Qed.

Lemma masked_offset_is_zero (g : nat) (chain : DH.DHChain) (row col : nat) :
  optimizer.group g (optimizer.initial_parameters p)
  = repeat 0%float (4 * DH.dof chain) ->
  row < DH.dof chain -> col < 4 ->
  In (DH.dof chain * col + row) (nth g (mask p) []) ->
  entry (optimizer.unflatten (DH.dof chain)
           (optimizer.group g (optimizer.final_parameters p offsetPriorWeight)))
        row col
  = 0%float.
Proof.
  intros Hinit Hrow Hcol Hin.
  rewrite entry_unflatten by assumption.
  rewrite (final_parameters_fixed _ _ Hin), Hinit.
  apply nth_repeat.
Qed.

End Optimizer.

(** C3. When [optimize] returns, whatever the solver did and whether or not
    it converged: an offset entry whose index is in the mask of its chain
    is 0, the value every offset starts from; a masked translation component
    of each of the three transforms is the component of its guess; and the
    linear part of each transform is rebuilt from rotation components of
    which the masked ones are those of the guess.  A masked unknown is not
    in the free vector, so the solver cannot reach it. *)
Theorem optimize_keeps_masked_parameters
    `{G : DH.LinkGeometry} {Covariance : Type} `{S : optimizer.Solver Covariance}
    (p : KinematicCalibrationProblemPose6D) (offsetPriorWeight : float)
    (r : KinematicCalibrationResult Covariance) :
  optimizer.optimize p offsetPriorWeight = Return r ->
  (forall row col,
      row < DH.dof (camera_chain p) -> col < 4 ->
      In (DH.dof (camera_chain p) * col + row) (nth 0 (mask p) []) ->
      entry (camera_chain_dh_offsets r) row col = 0%float)
  /\ (forall row col,
        row < DH.dof (target_chain p) -> col < 4 ->
        In (DH.dof (target_chain p) * col + row) (nth 1 (mask p) []) ->
        entry (target_chain_dh_offsets r) row col = 0%float)
  /\ (forall i, i < 3 ->
        (In i (nth 2 (mask p) []) ->
         nth i (optimizer.position (camera_mount_to_camera r)) 0%float
         = nth i (optimizer.position (camera_mount_to_camera_guess p)) 0%float)
        /\ (In i (nth 4 (mask p) []) ->
            nth i (optimizer.position (target_mount_to_target r)) 0%float
            = nth i (optimizer.position (target_mount_to_target_guess p)) 0%float)
        /\ (In i (nth 6 (mask p) []) ->
            nth i (optimizer.position (camera_base_to_target_base r)) 0%float
            = nth i (optimizer.position (camera_base_to_target_base_guess p)) 0%float))
  /\ exists rc rt rb,
      linear (camera_mount_to_camera r) = optimizer.fromRotationVector rc
      /\ linear (target_mount_to_target r) = optimizer.fromRotationVector rt
      /\ linear (camera_base_to_target_base r) = optimizer.fromRotationVector rb
      /\ forall i,
          (In i (nth 3 (mask p) []) ->
           nth i rc 0%float
           = nth i (optimizer.rotationVector (linear (camera_mount_to_camera_guess p)))
                 0%float)
          /\ (In i (nth 5 (mask p) []) ->
              nth i rt 0%float
              = nth i (optimizer.rotationVector (linear (target_mount_to_target_guess p)))
                    0%float)
          /\ (In i (nth 7 (mask p) []) ->
              nth i rb 0%float
              = nth i (optimizer.rotationVector
                         (linear (camera_base_to_target_base_guess p)))
                    0%float).
Proof.
  intros Hopt.
  destruct (optimize_Return p offsetPriorWeight r Hopt)
    as (Hcm & Htm & Hbb & Hco & Hto).
  split; [|split; [|split]].
  - intros row col Hrow Hcol Hin. rewrite Hco.
    now apply (masked_offset_is_zero p offsetPriorWeight 0 (camera_chain p)).
  - intros row col Hrow Hcol Hin. rewrite Hto.
    now apply (masked_offset_is_zero p offsetPriorWeight 1 (target_chain p)).
  - intros i Hi. rewrite Hcm, Htm, Hbb, !nth_position_toIsometry by assumption.
    repeat split; intros Hin;
      apply (final_parameters_fixed p offsetPriorWeight _ _ Hin).
  - eexists _, _, _. rewrite Hcm, Htm, Hbb.
    do 3 (split; [reflexivity|]).
    intros i. repeat split; intros Hin;
      apply (final_parameters_fixed p offsetPriorWeight _ _ Hin).
Qed.

(** The first run of [main] under a solver that moves every free unknown by
    one: the last row of the target offsets and the base transform, all
    masked, end as they started; the first row and the mounts have moved. *)
Lemma optimize_keeps_masked_parameters_witness :
  exists r,
    @optimizer.optimize fixture.geometry unit fixture.moving_solver
      fixture.problem 100 = Return r
    /\ converged r = true
    /\ target_chain_dh_offsets r = [DH.mkV4 1 1 1 1; DH.mkV4 0 0 0 0]
    /\ camera_base_to_target_base r = Isometry3d_Identity
    /\ translation (camera_mount_to_camera r) = mkV3 1.5 1 1
    /\ entry (target_chain_dh_offsets r) 1 3 = 0%float.
Proof.
  eexists. split; [vm_compute; reflexivity|].
  do 4 (split; [reflexivity|]).
  refine (proj1 (proj2
    (@optimize_keeps_masked_parameters fixture.geometry unit fixture.moving_solver
       fixture.problem 100 _ eq_refl)) 1 3 _ _ _).
  - cbn. lia.
  - lia.
  - vm_compute. auto.
Defined.




(** ** C8: [KinematicObservation::operator==]

    Rounding keeps the sign: the facts about sums and products of binary64
    numbers that the comparison of a vector with itself needs. *)

Lemma shr_1_nonneg mrs : (0 <= shr_m mrs)%Z -> (0 <= shr_m (shr_1 mrs))%Z.
Proof.
  destruct mrs as [m r s]. destruct m as [|q|q]; cbn; try lia; destruct q; cbn; lia.
Qed.

Lemma iter_shr_1_nonneg (q : positive) :
  forall mrs, (0 <= shr_m mrs)%Z -> (0 <= shr_m (SpecFloat.iter_pos shr_1 q mrs))%Z.
Proof.
  induction q as [q IH | q IH |]; intros mrs Hm; cbn.
  - apply IH, IH. now apply shr_1_nonneg.
  - now apply IH, IH.
  - now apply shr_1_nonneg.
Qed.

Lemma shr_fexp_nonneg m e l :
  (0 <= m)%Z -> (0 <= shr_m (fst (shr_fexp prec emax m e l)))%Z.
Proof.
  intros Hm. unfold shr_fexp, shr.
  assert (H0 : (0 <= shr_m (shr_record_of_loc m l))%Z).
  { destruct l as [|[]]; exact Hm. }
  destruct (Z.sub _ _); cbn [fst]; auto.
  now apply iter_shr_1_nonneg.
Qed.

Lemma round_nearest_even_nonneg mx lx :
  (0 <= mx)%Z -> (0 <= round_nearest_even mx lx)%Z.
Proof.
  intros Hm. destruct lx as [|[]]; cbn; try lia.
  destruct (Z.even mx); lia.
Qed.

Lemma binary_round_aux_signed sx mx ex lx :
  (0 <= mx)%Z -> signed sx (binary_round_aux prec emax sx mx ex lx).
Proof.
  intros Hm. unfold binary_round_aux.
  pose proof (shr_fexp_nonneg mx ex lx Hm) as H1.
  destruct (shr_fexp prec emax mx ex lx) as [mrs' e'].
  cbn [fst] in H1.
  pose proof (shr_fexp_nonneg _ e' loc_Exact
                (round_nearest_even_nonneg _ (loc_of_shr_record mrs') H1)) as H2.
  destruct (shr_fexp prec emax _ e' loc_Exact) as [mrs'' e''].
  cbn [fst] in H2.
  destruct (shr_m mrs'') as [|q|q]; [reflexivity | | lia].
  destruct (Z.leb _ _); reflexivity.
Qed.

Lemma binary_round_signed sx mx ex : signed sx (binary_round prec emax sx mx ex).
Proof.
  unfold binary_round. destruct (shl_align _ _ _) as [mz ez].
  now apply binary_round_aux_signed.
Qed.

Lemma signed_false_nonneg x : signed false (Prim2SF x) -> nonnegative x.
Proof. unfold nonnegative. destruct (Prim2SF x) as [s|s| |s m e]; cbn; intros; subst; auto. Qed.

Lemma is_finite_spec (x : float) :
  PrimFloat.is_finite x = true ->
  (exists s, Prim2SF x = S754_zero s) \/ exists s m e, Prim2SF x = S754_finite s m e.
Proof.
  unfold PrimFloat.is_finite, PrimFloat.is_nan, PrimFloat.is_infinity.
  rewrite !FloatAxioms.eqb_spec, abs_spec.
  change (Prim2SF PrimFloat.infinity) with (S754_infinity false).
  destruct (Prim2SF x) as [s|s| |s m e]; cbn; try discriminate; eauto.
  destruct s; discriminate.
Qed.

Lemma sub_self (x : float) : PrimFloat.is_finite x = true -> (x - x = 0)%float.
Proof.
  intros Hx. apply Prim2SF_inj. rewrite sub_spec.
  change (Prim2SF 0) with (S754_zero false).
  destruct (is_finite_spec x Hx) as [[s ->] | (s & m & e & ->)].
  - now destruct s.
  - unfold SF64sub, SFsub. now rewrite Z.sub_diag.
Qed.

Lemma square_nonnegative (x : float) :
  PrimFloat.is_finite x = true -> nonnegative (x * x).
Proof.
  intros Hx. apply signed_false_nonneg. rewrite mul_spec.
  destruct (is_finite_spec x Hx) as [[s ->] | (s & m & e & ->)].
  - cbn. now destruct s.
  - unfold SF64mul, SFmul. replace false with (xorb s s) by now destruct s.
    now apply binary_round_aux_signed.
Qed.

Lemma add_nonnegative (x y : float) :
  nonnegative x -> nonnegative y -> nonnegative (x + y).
Proof.
  unfold nonnegative. rewrite add_spec. unfold SF64add, SFadd.
  destruct (Prim2SF x) as [sx|sx| |sx mx ex], (Prim2SF y) as [sy|sy| |sy my ey];
    try (destruct sx); try (destruct sy); try tauto; intros _ _.
  - unfold cond_Zopp.
    match goal with |- context [binary_normalize _ _ ?z _ _] =>
      assert (Hz : exists q, z = Zpos q) by (cbn; eauto) end.
    destruct Hz as [q ->]. cbn [binary_normalize].
    pose proof (binary_round_signed false q (Z.min ex ey)) as Hs.
    destruct (binary_round _ _ _ _ _) as [s|s| |s m e]; cbn in Hs; subst; auto.
Qed.

Lemma mul_positive_nonnegative (c x : float) :
  (exists m e, Prim2SF c = S754_finite false m e) ->
  nonnegative x -> nonnegative (c * x).
Proof.
  intros (mc & ec & Hc). unfold nonnegative. rewrite mul_spec, Hc.
  unfold SF64mul, SFmul.
  destruct (Prim2SF x) as [sx|sx| |sx mx ex]; try (destruct sx);
    try (cbn [xorb]; tauto); intros _.
  assert (Hpos : (0 <= Zpos (mc * mx))%Z) by lia.
  pose proof (binary_round_aux_signed false _ (ec + ex) loc_Exact Hpos) as Hs.
  cbn [xorb]. destruct (binary_round_aux _ _ _ _ _ _) as [s|s| |s m e];
    cbn in Hs; try (rewrite Hs); auto.
Qed.

Lemma leb_zero_nonnegative (x : float) :
  nonnegative x -> (0 <=? x)%float = true.
Proof.
  unfold nonnegative. rewrite leb_spec.
  change (Prim2SF 0) with (S754_zero false).
  destruct (Prim2SF x) as [sx|sx| |sx mx ex]; try (destruct sx); try tauto;
    reflexivity.
Qed.

Lemma zero_nonnegative : nonnegative 0.
Proof. exact I. Qed.

Lemma fold_add_nonnegative (xs : list float) :
  Forall nonnegative xs ->
  forall a, nonnegative a -> nonnegative (fold_left PrimFloat.add xs a).
Proof.
  induction 1 as [|x xs Hx _ IH]; intros a Ha; [exact Ha|].
  cbn [fold_left]. apply IH. now apply add_nonnegative.
Qed.

Lemma sum_nonnegative (xs : list float) :
  Forall nonnegative xs -> nonnegative (Eigen.sum xs).
Proof.
  intros Hall. destruct Hall as [|x xs Hx Hxs]; [exact zero_nonnegative|].
  now apply fold_add_nonnegative.
Qed.

Lemma cwiseAbs2_nonnegative (v : list float) :
  forallb PrimFloat.is_finite v = true -> Forall nonnegative (cwiseAbs2 v).
Proof.
  rewrite forallb_forall. intros Hfin. apply Forall_forall. intros y Hy.
  apply in_map_iff in Hy as [x [<- Hx]]. apply square_nonnegative. auto.
Qed.

(** The squares of the differences of a finite vector with itself are all
    zero, and so is their sum. *)
Lemma cwiseSub_self (v : list float) :
  forallb PrimFloat.is_finite v = true ->
  cwiseAbs2 (cwiseSub v v) = repeat 0%float (List.length v).
Proof.
  induction v as [|x v IH]; [reflexivity|].
  cbn [forallb]. rewrite andb_true_iff. intros [Hx Hv].
  cbn [cwiseSub cwiseAbs2 map List.length repeat].
  rewrite (sub_self x Hx). f_equal. now apply IH.
Qed.

Lemma sum_zeros (n : nat) : Eigen.sum (repeat 0%float n) = 0%float.
Proof.
  destruct n as [|n]; [reflexivity|]. cbn [repeat Eigen.sum].
  induction n as [|n IH]; [reflexivity|]. exact IH.
Qed.

(** A vector of finite coefficients is approximately equal to itself. *)
Lemma isApproxCoeffs_self (v : list float) :
  forallb PrimFloat.is_finite v = true -> isApproxCoeffs v v = true.
Proof.
  intros Hfin. unfold isApproxCoeffs.
  rewrite (cwiseSub_self v Hfin), sum_zeros.
  apply leb_zero_nonnegative, mul_positive_nonnegative.
  - eexists _, _. vm_compute. reflexivity.
  - unfold mini. destruct (PrimFloat.ltb _ _);
      now apply sum_nonnegative, cwiseAbs2_nonnegative.
Qed.

Lemma Correspondence_eq_self {N M} (c : Correspondence N M) :
  finite_coefficients c = true -> Correspondence_eq c c = true.
Proof.
  unfold finite_coefficients, Correspondence_eq. rewrite !andb_true_iff.
  intros [Hi Ht]. split; now apply isApproxCoeffs_self.
Qed.

Lemma vector_eq_self {A} (eq : A -> A -> bool) (xs : list A) :
  (forall x, In x xs -> eq x x = true) -> vector_eq eq xs xs = true.
Proof.
  induction xs as [|x xs IH]; intros Hrefl; [reflexivity|].
  cbn [vector_eq]. rewrite (Hrefl x) by now left.
  apply IH. intros y Hy. apply Hrefl. now right.
Qed.

(** C8, as stated, fails: with a NaN coordinate in the correspondences of
    the left operand the comparison is false, even of an observation with
    itself, although the joints are approximately equal. *)
Lemma KinematicObservation_eq_false_on_nan :
  isApprox (ko_camera_chain_joints fixture.nan_observation)
           (ko_camera_chain_joints fixture.nan_observation) = Some true
  /\ isApprox (ko_target_chain_joints fixture.nan_observation)
              (ko_target_chain_joints fixture.nan_observation) = Some true
  /\ KinematicObservation_eq fixture.nan_observation fixture.nan_observation
     = Some false.
Proof. repeat split; vm_compute; reflexivity. Qed.

(** C8, amended. When the joints of two observations are approximately
    equal and every coordinate in the correspondences of the left operand
    is finite, [a == b] is true whatever the correspondences of [b] are:
    the operator compares the correspondences of [a] with themselves and
    never reads those of [b]. *)
Theorem KinematicObservation_eq_ignores_rhs_correspondences {N M : nat}
    (a b : KinematicObservation N M) :
  isApprox (ko_camera_chain_joints a) (ko_camera_chain_joints b) = Some true ->
  isApprox (ko_target_chain_joints a) (ko_target_chain_joints b) = Some true ->
  forallb finite_coefficients (correspondence_set a) = true ->
  KinematicObservation_eq a b = Some true.
Proof.
  intros Hcam Htgt Hfin. unfold KinematicObservation_eq.
  rewrite Hcam, Htgt. cbn [and_then]. f_equal.
  apply vector_eq_self. intros c Hc. apply Correspondence_eq_self.
  rewrite forallb_forall in Hfin. now apply Hfin.
Qed.

Lemma KinematicObservation_eq_ignores_rhs_correspondences_witness :
  correspondence_set fixture.observation
  <> correspondence_set fixture.empty_observation
  /\ KinematicObservation_eq fixture.observation fixture.empty_observation
     = Some true.
Proof.
  split; [discriminate|].
  apply (KinematicObservation_eq_ignores_rhs_correspondences
           fixture.observation fixture.empty_observation);
    vm_compute; reflexivity.
Defined.

(** ** Further properties of the sources *)

(** X2. Over an empty measurement set, with offset matrices that fit the
    chains, [compareToMeasurements] returns NaN for both means (0 divided
    by a count of 0) and 0 for both standard deviations. *)
Theorem compareToMeasurements_no_measurements
    `{G : DH.LinkGeometry} `{L : Libm} {C : Type}
    (initial_camera_chain initial_target_chain : DH.DHChain)
    (result : KinematicCalibrationResult C) :
  List.length (camera_chain_dh_offsets result) = DH.dof initial_camera_chain ->
  List.length (target_chain_dh_offsets result) = DH.dof initial_target_chain ->
  compareToMeasurements initial_camera_chain initial_target_chain result []
  = Return (mkStats nan 0 nan 0).
Proof.
  intros Hc Ht. unfold compareToMeasurements, DH.withOffsets.
  now rewrite Hc, Ht, !Nat.eqb_refl.
Qed.

Lemma compareToMeasurements_no_measurements_witness :
  @compareToMeasurements fixture.geometry fixture.libm unit
    fixture.camera_chain fixture.target_chain fixture.result []
  = Return (mkStats nan 0 nan 0).
Proof.
  apply (@compareToMeasurements_no_measurements fixture.geometry fixture.libm unit
           fixture.camera_chain fixture.target_chain fixture.result);
    reflexivity.
Defined.

(** X3. What is not a map of records: a failure of [YAML::LoadFile]
    itself leaves [loadMeasurements] as a [BadFileException] with the same
    prefix; a document that is a sequence with at least one item does not
    load, because the loop asks the iterator of a sequence for [second] and
    the subscript of that invalid node throws; a document that is a scalar
    or null has nothing to iterate and loads as the empty set. *)
Theorem loadMeasurements_not_a_map `{Cv : YAML.Convert}
    (ex : YAML.Exception) (m : YAML.Mark) (item : YAML.Node)
    (items : list YAML.Node) (text : string) :
  loadMeasurements (Throw ex)
  = Throw (mkBadFileException ("YAML failure: " ++ YAML.what ex))
  /\ loadMeasurements (Return (YAML.Sequence m (item :: items)))
     = Throw (mkBadFileException ("YAML failure: " ++ YAML.what YAML.InvalidNode))
  /\ loadMeasurements (Return (YAML.Scalar m text)) = Return []
  /\ loadMeasurements (Return (YAML.Null m)) = Return [].
Proof. repeat split; reflexivity. Qed.

(** ** More on [loadMeasurements] *)

Import loading.

Section LoadingMore.

Context `{Cv : YAML.Convert}.

Lemma readJoints_loadable (n : YAML.Node) :
  joints_loadable n = true ->
  readJoints n = Return (map number_of (items_of n)).
Proof.
  unfold joints_loadable. rewrite orb_true_iff. intros [Hseq | Hnone].
  - now apply readJoints_numbers.
  - destruct n; try discriminate; reflexivity.
Qed.

Lemma loadMeasurement_loadable (r : YAML.Node) :
  loadable_record r = true ->
  loadMeasurement (Some r) = Return (measurement_of r).
Proof.
  unfold loadable_record, pose_complete. rewrite !andb_true_iff.
  intros [[[Hmap Htj] Hcj] [Hpose Hkeys]].
  cbn [forallb pose_keys] in Hkeys. rewrite !andb_true_iff in Hkeys.
  destruct Hkeys as (Hx & Hy & Hz & Hqw & Hqx & Hqy & Hqz & _).
  unfold loadMeasurement. cbn [YAML.subscript_second].
  rewrite !(subscript_map r) by assumption. cbn [bind].
  rewrite (readJoints_loadable _ Htj), (readJoints_loadable _ Hcj). cbn [bind].
  rewrite !(readField_map _ _ Hpose).
  rewrite !as_double_number by assumption.
  reflexivity.
Qed.

Lemma loadMeasurements_loadable (doc : YAML.Node) :
  loadable_file doc = true ->
  loadMeasurements (Return doc) = Return (map measurement_of (records doc)).
Proof.
  unfold loadable_file. rewrite andb_true_iff. intros [Hmap Hall].
  unfold loadMeasurements. cbn [bind].
  rewrite (seconds_records _ Hmap), mapM_map.
  rewrite (mapM_Return _ measurement_of); [reflexivity|].
  intros r Hr. apply loadMeasurement_loadable.
  rewrite forallb_forall in Hall. now apply Hall.
Qed.

Lemma length_seconds (doc : YAML.Node) :
  List.length (YAML.seconds doc) = YAML.size doc.
Proof. destruct doc; cbn; now rewrite ?length_map. Qed.

Lemma find_entry_app (p : YAML.Node -> bool) (entries more : list (YAML.Node * YAML.Node)) :
  YAML.find_entry p entries <> YAML.Undefined ->
  YAML.find_entry p (entries ++ more) = YAML.find_entry p entries.
Proof.
  induction entries as [|[k v] entries IH]; cbn [YAML.find_entry app].
  - congruence.
  - destruct (p k); auto.
Qed.

Lemma field_app (m m' : YAML.Mark) (entries more : list (YAML.Node * YAML.Node))
    (key : string) :
  field (YAML.Map m entries) key <> YAML.Undefined ->
  field (YAML.Map m' (entries ++ more)) key = field (YAML.Map m entries) key.
Proof. apply find_entry_app. Qed.

Lemma extends_well_formed (r r' : YAML.Node) :
  extends r r' ->
  well_formed_record r = true ->
  well_formed_record r' = true /\ measurement_of r' = measurement_of r.
Proof.
  intros (m & m' & entries & more & -> & ->) Hwf.
  unfold well_formed_record in *. rewrite !andb_true_iff in Hwf.
  destruct Hwf as [[[[_ Htj] Hcj] Hpose] Hkeys].
  assert (Ftj : field (YAML.Map m' (entries ++ more)) "target_joints"
                = field (YAML.Map m entries) "target_joints").
  { apply field_app. intros H0. now rewrite H0 in Htj. }
  assert (Fcj : field (YAML.Map m' (entries ++ more)) "camera_joints"
                = field (YAML.Map m entries) "camera_joints").
  { apply field_app. intros H0. now rewrite H0 in Hcj. }
  assert (Fp : field (YAML.Map m' (entries ++ more)) "pose"
               = field (YAML.Map m entries) "pose").
  { apply field_app. intros H0. now rewrite H0 in Hpose. }
  split.
  - rewrite Ftj, Fcj, Fp, Htj, Hcj, Hpose, Hkeys. reflexivity.
  - unfold measurement_of, pose_translation, pose_quaternion, pose_number.
    now rewrite Ftj, Fcj, Fp.
Qed.

(** Converting a list of nodes stops at the first that is no number, with
    its mark. *)
Lemma mapM_as_double (ns : list YAML.Node) :
  mapM YAML.as_double ns
  = match find not_a_number ns with
    | Some n => Throw (YAML.TypedBadConversion (YAML.Mark_of n))
    | None => Return (map number_of ns)
    end.
Proof.
  induction ns as [|n ns IH]; [reflexivity|].
  cbn [mapM find map]. unfold not_a_number at 1.
  destruct (is_number n) eqn:Hn; cbn [negb].
  - rewrite (as_double_number _ Hn), IH. cbn [bind].
    now destruct (find not_a_number ns).
  - now rewrite (as_double_not_number _ Hn).
Qed.

Lemma readJoints_joint_nodes (joints : YAML.Node) :
  readJoints joints = mapM YAML.as_double (joint_nodes joints).
Proof.
  destruct joints as [| m | m s | m items | m entries]; try reflexivity.
  - apply readJoints_items.
  - unfold readJoints. cbn [YAML.size joint_nodes YAML.at_index].
    now rewrite mapM_map.
Qed.

Lemma subscript_subscriptable (r : YAML.Node) (key : string) :
  starts_with_letter key ->
  subscriptable r = true ->
  YAML.subscript r key = Return (field r key).
Proof.
  intros Hkey Hr. destruct (subscript_field r key Hkey) as [H | H]; [exact H|].
  now destruct r.
Qed.

Lemma find_app {A} (p : A -> bool) (xs ys : list A) :
  find p (xs ++ ys)
  = match find p xs with Some x => Some x | None => find p ys end.
Proof.
  induction xs as [|x xs IH]; [reflexivity|].
  cbn [app find]. now destruct (p x).
Qed.

(** One record: the conversions go through [nodes_read] in order. *)
Lemma loadMeasurement_nodes_read (r : YAML.Node) :
  subscriptable r = true ->
  subscriptable (field r "pose") = true ->
  loadMeasurement (Some r)
  = match find not_a_number (nodes_read r) with
    | Some n => Throw (YAML.TypedBadConversion (YAML.Mark_of n))
    | None => Return (measurement_read r)
    end.
Proof.
  intros Hr Hpose.
  assert (Hkey : forall key,
             In key ("target_joints" :: "camera_joints" :: "pose" :: pose_keys)%string ->
             starts_with_letter key)
    by (apply Forall_forall, keys_start_with_letter).
  unfold loadMeasurement, nodes_read, readField. cbn [YAML.subscript_second].
  rewrite !(subscript_subscriptable r)
    by first [assumption | apply Hkey; cbn; tauto].
  cbn [bind]. rewrite !readJoints_joint_nodes, !mapM_as_double, !find_app.
  destruct (find not_a_number (joint_nodes (field r "target_joints")));
    [reflexivity|].
  cbn [bind].
  destruct (find not_a_number (joint_nodes (field r "camera_joints")));
    [reflexivity|].
  cbn [bind].
  rewrite !(subscript_subscriptable (field r "pose"))
    by first [assumption | apply Hkey; cbn; tauto].
  cbn [bind map pose_keys find]. unfold not_a_number.
  repeat match goal with
         | |- context [is_number ?n] =>
             let H := fresh "Hn" in
             destruct (is_number n) eqn:H; cbn [negb];
             [rewrite (as_double_number _ H); cbn [bind]
             |now rewrite (as_double_not_number _ H)]
         end.
  unfold measurement_read, pose_translation, pose_quaternion, pose_number.
  reflexivity.
Qed.

End LoadingMore.

Section Failures.

Context `{Cv : YAML.Convert}.

Lemma mapM_Throw_inv {E A B} (f : A -> except E B) (xs : list A) (e : E) :
  mapM f xs = Throw e -> exists x, In x xs /\ f x = Throw e.
Proof.
  induction xs as [|x xs IH]; cbn [mapM]; [discriminate|].
  destruct (f x) as [e' | y] eqn:Hx; cbn [bind].
  - intros [= <-]. exists x. split; [now left | exact Hx].
  - destruct (mapM f xs) as [e' | ys]; cbn [bind]; [|discriminate].
    intros [= <-]. destruct (IH eq_refl) as (x' & Hin & Hx').
    exists x'. split; [now right | exact Hx'].
Qed.

Lemma readJoints_failure (joints : YAML.Node) (ex : YAML.Exception) :
  readJoints joints = Throw ex -> subscript_or_conversion ex.
Proof.
  rewrite readJoints_joint_nodes, mapM_as_double.
  destruct (find not_a_number (joint_nodes joints)); [|discriminate].
  intros [= <-]. right. eauto.
Qed.

Lemma readField_failure (pose : YAML.Node) (key : string) (ex : YAML.Exception) :
  starts_with_letter key ->
  readField pose key = Throw ex -> subscript_or_conversion ex.
Proof.
  intros Hkey. unfold readField.
  destruct (subscript_field pose key Hkey) as [-> | ->]; cbn [bind].
  - destruct (is_number (field pose key)) eqn:Hn.
    + now rewrite (as_double_number _ Hn).
    + rewrite (as_double_not_number _ Hn). intros [= <-]. right. eauto.
  - intros [= <-]. now left.
Qed.

(** Whatever the record is, the body of the loop fails only on a subscript
    of a scalar or on a conversion. *)
Lemma loadMeasurement_failure (r : YAML.Node) (ex : YAML.Exception) :
  loadMeasurement (Some r) = Throw ex -> subscript_or_conversion ex.
Proof.
  assert (Hkey : forall key,
             In key ("target_joints" :: "camera_joints" :: "pose" :: pose_keys)%string ->
             starts_with_letter key)
    by (apply Forall_forall, keys_start_with_letter).
  unfold loadMeasurement. cbn [YAML.subscript_second].
  destruct (subscript_field r "target_joints") as [-> | ->];
    [apply Hkey; cbn; tauto | | intros [= <-]; now left].
  cbn [bind].
  destruct (readJoints (field r "target_joints")) as [e | tj] eqn:Htj;
    [intros [= <-]; now apply readJoints_failure in Htj|].
  cbn [bind].
  destruct (subscript_field r "camera_joints") as [-> | ->];
    [apply Hkey; cbn; tauto | | intros [= <-]; now left].
  cbn [bind].
  destruct (readJoints (field r "camera_joints")) as [e | cj] eqn:Hcj;
    [intros [= <-]; now apply readJoints_failure in Hcj|].
  cbn [bind].
  destruct (subscript_field r "pose") as [-> | ->];
    [apply Hkey; cbn; tauto | | intros [= <-]; now left].
  cbn [bind].
  repeat match goal with
         | |- bind (readField ?pose ?key) _ = Throw _ -> _ =>
             let H := fresh "Hread" in
             destruct (readField pose key) as [e | ?] eqn:H;
             [intros [= <-];
              apply readField_failure in H; [exact H | apply Hkey; cbn; tauto]
             |cbn [bind]]
         end.
  discriminate.
Qed.

(** Over records and poses that are no scalars, the loop stops at the
    first node, in reading order, that is not a number. *)
Lemma loadMeasurement_all_nodes_read (rs : list YAML.Node) :
  forallb (fun r => subscriptable r && subscriptable (field r "pose")) rs = true ->
  mapM (fun r => loadMeasurement (Some r)) rs
  = match find not_a_number (flat_map nodes_read rs) with
    | Some n => Throw (YAML.TypedBadConversion (YAML.Mark_of n))
    | None => Return (map measurement_read rs)
    end.
Proof.
  induction rs as [|r rs IH]; [reflexivity|].
  cbn [forallb]. rewrite !andb_true_iff. intros [[Hr Hpose] Hrest].
  cbn [mapM flat_map map]. rewrite find_app.
  rewrite (loadMeasurement_nodes_read r Hr Hpose).
  destruct (find not_a_number (nodes_read r)); [reflexivity|].
  cbn [bind]. rewrite (IH Hrest).
  now destruct (find not_a_number (flat_map nodes_read rs)).
Qed.

End Failures.

(** C2, amended. A file with a record in which an entry of a joint
    sequence is not a number, or whose [pose] is absent, is not a map, or
    lacks a number under one of its seven keys, does not load:
    [loadMeasurements] throws a [BadFileException] whose text is
    "YAML failure: " followed by the message of the subscript of a scalar,
    which names no place, or by that of a bad conversion.  When no record
    of the file and no pose is a scalar, the failure is the bad conversion
    of the first node, in reading order, that is not a number: its message
    names the line and the column of that node, counted from one, when the
    node carries a position, and none when it does not, as for an absent
    [pose] or an absent key of it. *)
Theorem loadMeasurements_malformed `{Cv : YAML.Convert} (doc r : YAML.Node) :
  In r (records doc) ->
  malformed_record r = true ->
  (loadMeasurements (Return doc)
   = Throw (mkBadFileException "YAML failure: operator[] call on a scalar")
   \/ exists m,
       loadMeasurements (Return doc)
       = Throw (mkBadFileException
                  ("YAML failure: "
                     ++ match m with
                        | YAML.null_mark => "bad conversion"
                        | YAML.at_ line column =>
                            "yaml-cpp: error at line " ++ YAML.decimal (line + 1)
                              ++ ", column " ++ YAML.decimal (column + 1)
                              ++ ": bad conversion"
                        end)))
  /\ (forallb (fun r => subscriptable r && subscriptable (field r "pose"))
              (records doc) = true ->
      exists n,
        find not_a_number (flat_map nodes_read (records doc)) = Some n
        /\ loadMeasurements (Return doc)
           = Throw (mkBadFileException
                      ("YAML failure: "
                         ++ match YAML.Mark_of n with
                            | YAML.null_mark => "bad conversion"
                            | YAML.at_ line column =>
                                "yaml-cpp: error at line " ++ YAML.decimal (line + 1)
                                  ++ ", column " ++ YAML.decimal (column + 1)
                                  ++ ": bad conversion"
                            end))).
Proof.
  intros Hin Hbad.
  assert (Hmap : is_map doc = true) by (now destruct doc).
  unfold loadMeasurements. cbn [bind].
  rewrite (seconds_records _ Hmap), mapM_map.
  destruct (mapM_Throw loadMeasurement (map Some (records doc)) (Some r))
    as [ex Hex]; [now apply in_map | now apply loadMeasurement_defect |].
  rewrite mapM_map in Hex. rewrite Hex. split.
  - destruct (mapM_Throw_inv _ _ _ Hex) as (r0 & _ & Hr0).
    destruct (loadMeasurement_failure r0 ex Hr0) as [-> | [m ->]].
    + now left.
    + right. exists m. now destruct m.
  - intros Hsub. rewrite (loadMeasurement_all_nodes_read _ Hsub) in Hex.
    destruct (find not_a_number (flat_map nodes_read (records doc))) as [n|];
      [|discriminate].
    injection Hex as <-. exists n. split; [reflexivity|].
    now destruct (YAML.Mark_of n).
Qed.

(** The record of the sample file whose pose has the text [abc] under [y],
    at line 5, column 7 counted from zero. *)
Lemma loadMeasurements_malformed_witness :
  exists r,
    In r (records fixture.file_with_text)
    /\ @malformed_record fixture.convert r = true
    /\ @loadMeasurements fixture.convert (Return fixture.file_with_text)
       = Throw (mkBadFileException
                  "YAML failure: yaml-cpp: error at line 6, column 8: bad conversion").
Proof.
  exists (hd YAML.Undefined (records fixture.file_with_text)).
  split; [left; reflexivity|].
  split; [reflexivity|].
  destruct (@loadMeasurements_malformed fixture.convert fixture.file_with_text
              (hd YAML.Undefined (records fixture.file_with_text))
              (or_introl eq_refl) eq_refl) as [_ Hfirst].
  destruct (Hfirst eq_refl) as (n & Hn & Hload).
  vm_compute in Hn. injection Hn as <-. exact Hload.
Defined.

(** A pose written as a scalar: the failure is the subscript of a scalar,
    and its message names no place. *)
Example loadMeasurements_file_with_scalar_pose :
  @loadMeasurements fixture.convert (Return samples.file_with_scalar_pose)
  = Throw (mkBadFileException "YAML failure: operator[] call on a scalar").
Proof. vm_compute. reflexivity. Qed.


(** X4. Whenever [loadMeasurements] returns, it returns one measurement per
    element of the document: no record is dropped or read twice. *)
Theorem loadMeasurements_one_per_record `{Cv : YAML.Convert}
    (doc : YAML.Node) (ms : list KinematicMeasurement) :
  loadMeasurements (Return doc) = Return ms ->
  List.length ms = YAML.size doc.
Proof.
  unfold loadMeasurements. cbn [bind].
  destruct (mapM loadMeasurement (YAML.seconds doc)) as [e | ms'] eqn:Hm;
    [discriminate|].
  intros [= <-]. now rewrite (mapM_length _ _ _ Hm), length_seconds.
Qed.

Lemma loadMeasurements_one_per_record_witness :
  exists ms,
    @loadMeasurements fixture.convert (Return fixture.file) = Return ms
    /\ List.length ms = YAML.size fixture.file.
Proof.
  eexists. split; [vm_compute; reflexivity|].
  apply (@loadMeasurements_one_per_record fixture.convert fixture.file).
  vm_compute. reflexivity.
Defined.

(** X5. Joints that are absent, null or a scalar are not an error: in a
    file whose records have a complete pose and whose joints are each a
    sequence of numbers or such a node, every record loads, and a joint
    vector read from such a node is empty. *)
Theorem loadMeasurements_joints_without_items `{Cv : YAML.Convert} (doc : YAML.Node) :
  loadable_file doc = true ->
  exists ms,
    loadMeasurements (Return doc) = Return ms
    /\ forall i r,
        nth_error (records doc) i = Some r ->
        exists meas,
          nth_error ms i = Some meas
          /\ (no_items (field r "target_joints") = true ->
              target_chain_joints meas = [])
          /\ (no_items (field r "camera_joints") = true ->
              camera_chain_joints meas = []).
Proof.
  intros Hdoc. exists (map measurement_of (records doc)).
  split; [now apply loadMeasurements_loadable|].
  intros i r Hr. exists (measurement_of r).
  split; [now apply map_nth_error|].
  cbn [measurement_of target_chain_joints camera_chain_joints].
  split; intros Hnone.
  - now destruct (field r "target_joints").
  - now destruct (field r "camera_joints").
Qed.

Lemma loadMeasurements_joints_without_items_witness :
  @loadable_file fixture.convert fixture.file_without_joints = true
  /\ exists ms,
      @loadMeasurements fixture.convert (Return fixture.file_without_joints)
      = Return ms
      /\ exists meas,
          nth_error ms 0 = Some meas
          /\ target_chain_joints meas = []
          /\ camera_chain_joints meas = [].
Proof.
  split; [reflexivity|].
  destruct (@loadMeasurements_joints_without_items fixture.convert
              fixture.file_without_joints eq_refl) as [ms [Hload Hall]].
  destruct (Hall 0 _ eq_refl) as [meas [Hnth [Htj Hcj]]].
  exists ms. split; [exact Hload|].
  exists meas. split; [exact Hnth|].
  split; [apply Htj | apply Hcj]; reflexivity.
Defined.

(** X6. The names of the records are never read, and in a well-formed record
    whatever follows its own entries is ignored, unknown keys and repeated
    keys alike: a file whose records are those of a well-formed file, each
    with further entries appended and under any name, loads as the same
    measurements. *)
Theorem loadMeasurements_ignores_names_and_later_entries `{Cv : YAML.Convert}
    (m m' : YAML.Mark) (entries entries' : list (YAML.Node * YAML.Node)) :
  Forall2 (fun e e' => extends (snd e) (snd e')) entries entries' ->
  well_formed_file (YAML.Map m entries) = true ->
  loadMeasurements (Return (YAML.Map m' entries'))
  = loadMeasurements (Return (YAML.Map m entries)).
Proof.
  intros Hext Hwf.
  rewrite (loadMeasurements_records _ Hwf).
  unfold well_formed_file in Hwf. cbn [is_map andb records] in Hwf.
  assert (Hboth : forallb well_formed_record (map snd entries') = true
                  /\ map measurement_of (map snd entries')
                     = map measurement_of (map snd entries)).
  { induction Hext as [|e e' es es' He _ IH]; [now split|].
    cbn [map forallb] in *. apply andb_true_iff in Hwf as [Hr Hrest].
    destruct (extends_well_formed _ _ He Hr) as [Hl Hm].
    destruct (IH Hrest) as [Hls Hms].
    now rewrite Hl, Hls, Hm, Hms. }
  destruct Hboth as [Hl Hm].
  rewrite loadMeasurements_records; [cbn [records]; now rewrite Hm|].
  unfold well_formed_file. now cbn [is_map andb records].
Qed.

Lemma loadMeasurements_ignores_names_and_later_entries_witness :
  YAML.Map (YAML.at_ 0 0) samples.entries = fixture.file
  /\ @loadMeasurements fixture.convert
       (Return (YAML.Map YAML.null_mark samples.renamed_entries))
     = @loadMeasurements fixture.convert (Return fixture.file).
Proof.
  split; [reflexivity|].
  apply (@loadMeasurements_ignores_names_and_later_entries fixture.convert
           (YAML.at_ 0 0) YAML.null_mark samples.entries samples.renamed_entries).
  - repeat constructor; eexists _, _, _, samples.more; split; reflexivity.
  - reflexivity.
Defined.

(** X7. The order of the conversions decides the outcome.  In a file that
    is a map, whose records and their poses are no scalars, the nodes
    converted to numbers are, record by record, the target joints, the
    camera joints and the seven fields of the pose.  If each is a number the
    file loads; otherwise the failure is a bad conversion that carries the
    mark of the first one that is not, and nothing after it is looked at. *)
Theorem loadMeasurements_reads_in_order `{Cv : YAML.Convert} (doc : YAML.Node) :
  is_map doc = true ->
  forallb (fun r => subscriptable r && subscriptable (field r "pose"))
          (records doc) = true ->
  loadMeasurements (Return doc)
  = match find not_a_number (flat_map nodes_read (records doc)) with
    | Some n =>
        Throw (mkBadFileException
                 ("YAML failure: "
                    ++ YAML.build_what (YAML.Mark_of n) "bad conversion"))
    | None => Return (map measurement_read (records doc))
    end.
Proof.
  intros Hmap Hall. unfold loadMeasurements. cbn [bind].
  rewrite (seconds_records _ Hmap), mapM_map.
  assert (Hm : mapM (fun r => loadMeasurement (Some r)) (records doc)
               = match find not_a_number (flat_map nodes_read (records doc)) with
                 | Some n => Throw (YAML.TypedBadConversion (YAML.Mark_of n))
                 | None => Return (map measurement_read (records doc))
                 end).
  { induction (records doc) as [|r rs IH]; [reflexivity|].
    cbn [forallb] in Hall. rewrite !andb_true_iff in Hall.
    destruct Hall as [[Hr Hpose] Hrest].
    cbn [mapM flat_map map]. rewrite find_app.
    rewrite (loadMeasurement_nodes_read r Hr Hpose).
    destruct (find not_a_number (nodes_read r)); [reflexivity|].
    cbn [bind]. rewrite (IH Hrest).
    now destruct (find not_a_number (flat_map nodes_read rs)). }
  rewrite Hm.
  now destruct (find not_a_number (flat_map nodes_read (records doc))).
Qed.

Lemma loadMeasurements_reads_in_order_witness :
  @loadMeasurements fixture.convert (Return fixture.file_with_text)
  = Throw (mkBadFileException
             "YAML failure: yaml-cpp: error at line 6, column 8: bad conversion").
Proof.
  apply (@loadMeasurements_reads_in_order fixture.convert fixture.file_with_text);
    reflexivity.
Defined.

Import binary64.


(** ** Binary64: counts, quotients and square roots *)

Lemma digits2_pos_log2 (p : positive) :
  Zpos (digits2_pos p) = (Z.log2 (Zpos p) + 1)%Z.
Proof.
  induction p as [p IH | p IH |]; cbn [digits2_pos]; [| |reflexivity].
  - rewrite Pos2Z.inj_succ, IH.
    change (Zpos p~1) with (2 * Zpos p + 1)%Z.
    rewrite Z.log2_succ_double by lia. lia.
  - rewrite Pos2Z.inj_succ, IH.
    change (Zpos p~0) with (2 * Zpos p)%Z.
    rewrite Z.log2_double by lia. lia.
Qed.

Lemma digits2_pos_iter_xO (k p : positive) :
  Zpos (digits2_pos (Pos.iter xO p k)) = (Zpos (digits2_pos p) + Zpos k)%Z.
Proof.
  induction k as [|k IH] using Pos.peano_ind.
  - cbn. lia.
  - rewrite Pos.iter_succ. cbn [digits2_pos]. rewrite Pos2Z.inj_succ, IH. lia.
Qed.

(** A mantissa that already fits its exponent is not rounded. *)
Lemma binary_round_aux_canonical (s : bool) (m : positive) (e : Z) :
  canonical_mantissa prec emax m e = true ->
  (e <= emax - prec)%Z ->
  binary_round_aux prec emax s (Zpos m) e loc_Exact = S754_finite s m e.
Proof.
  unfold canonical_mantissa. intros Hc He. apply Z.eqb_eq in Hc.
  unfold binary_round_aux, shr_fexp. cbn [Zdigits2 shr_record_of_loc].
  rewrite Hc, Z.sub_diag. cbn [shr shr_m loc_of_shr_record round_nearest_even Zdigits2].
  rewrite Hc, Z.sub_diag. cbn [shr shr_m].
  apply Z.leb_le in He. now rewrite He.
Qed.

Lemma binary_round_small (p : positive) :
  (Zpos p < 2 ^ 53)%Z ->
  exists m e, binary_round prec emax false p 0 = S754_finite false m e.
Proof.
  intros Hp.
  assert (Hd : (1 <= Zpos (digits2_pos p) <= 53)%Z).
  { rewrite digits2_pos_log2. pose proof (Z.log2_nonneg (Zpos p)).
    assert (Z.log2 (Zpos p) < 53)%Z by (apply Z.log2_lt_pow2; lia). lia. }
  unfold binary_round, shl_align. rewrite Z.add_0_r.
  assert (Hf : fexp prec emax (Zpos (digits2_pos p)) = (Zpos (digits2_pos p) - 53)%Z).
  { unfold fexp, emin, prec, emax. lia. }
  rewrite Hf, Z.sub_0_r.
  destruct (Zpos (digits2_pos p) - 53)%Z as [|q|q] eqn:Hq; try lia.
  - eexists _, _. apply binary_round_aux_canonical.
    + unfold canonical_mantissa. rewrite Z.add_0_r, Hf. reflexivity.
    + unfold prec, emax. lia.
  - eexists _, _. apply binary_round_aux_canonical.
    + unfold canonical_mantissa. rewrite digits2_pos_iter_xO.
      apply Z.eqb_eq. unfold fexp, emin, prec, emax. lia.
    + unfold prec, emax. lia.
Qed.

(** A count from 1 to 2^53 - 1 is a positive finite [double]. *)
Lemma double_of_count_positive (n : nat) :
  (0 < Z.of_nat n < 2 ^ 53)%Z ->
  positive_finite (accumulators.double_of_count n).
Proof.
  intros Hn. unfold positive_finite, accumulators.double_of_count.
  rewrite of_uint63_spec, Uint63.of_Z_spec.
  rewrite Z.mod_small by (unfold Uint63.wB; cbn; lia).
  destruct (Z.of_nat n) as [|p|p] eqn:Hp; try lia.
  cbn [binary_normalize]. apply binary_round_small. lia.
Qed.

Lemma a_number_is_nan (x : float) : a_number x <-> PrimFloat.is_nan x = false.
Proof.
  unfold a_number, PrimFloat.is_nan. rewrite FloatAxioms.eqb_spec.
  destruct (Prim2SF x) as [s|s| |s m e]; cbn.
  - split; [reflexivity | discriminate].
  - destruct s; (split; [reflexivity | discriminate]).
  - split; [congruence | discriminate].
  - unfold SFeqb, SFcompare. destruct s; rewrite Z.compare_refl, Pos.compare_cont_refl;
      (split; [reflexivity | discriminate]).
Qed.

Lemma nonnegative_a_number (x : float) : nonnegative x -> a_number x.
Proof. unfold nonnegative, a_number. now destruct (Prim2SF x). Qed.

Lemma finite_a_number (x : float) : PrimFloat.is_finite x = true -> a_number x.
Proof.
  intros Hx. unfold a_number.
  destruct (is_finite_spec x Hx) as [[s ->] | (s & m & e & ->)]; discriminate.
Qed.

Lemma binary_normalize_a_number (m e : Z) (s : bool) :
  binary_normalize prec emax m e s <> S754_nan.
Proof.
  destruct m as [|q|q]; cbn [binary_normalize]; [discriminate| |].
  - pose proof (binary_round_signed false q e) as Hs.
    destruct (binary_round _ _ _ _ _); cbn in Hs; congruence.
  - pose proof (binary_round_signed true q e) as Hs.
    destruct (binary_round _ _ _ _ _); cbn in Hs; congruence.
Qed.

(** Adding a finite number to a number gives a number. *)
Lemma add_finite_a_number (a x : float) :
  a_number a -> PrimFloat.is_finite x = true -> a_number (a + x).
Proof.
  unfold a_number. intros Ha Hx. rewrite add_spec. unfold SF64add, SFadd.
  destruct (is_finite_spec x Hx) as [[s ->] | (s & m & e & ->)];
    destruct (Prim2SF a) as [sa|sa| |sa ma ea]; try congruence;
    try (destruct sa, s; discriminate).
  apply binary_normalize_a_number.
Qed.

(** Subtracting a number from a finite number gives a number. *)
Lemma sub_finite_a_number (x a : float) :
  PrimFloat.is_finite x = true -> a_number a -> a_number (x - a).
Proof.
  unfold a_number. intros Hx Ha. rewrite sub_spec. unfold SF64sub, SFsub.
  destruct (is_finite_spec x Hx) as [[s ->] | (s & m & e & ->)];
    destruct (Prim2SF a) as [sa|sa| |sa ma ea]; try congruence;
    try (destruct sa, s; discriminate).
  apply binary_normalize_a_number.
Qed.

(** The square of a number is not negative. *)
Lemma square_a_number (x : float) : a_number x -> nonnegative (x * x).
Proof.
  unfold a_number. intros Hx. apply signed_false_nonneg. rewrite mul_spec.
  unfold SF64mul, SFmul.
  destruct (Prim2SF x) as [s|s| |s m e]; try congruence.
  - cbn. now destruct s.
  - cbn. now destruct s.
  - replace false with (xorb s s) by now destruct s.
    now apply binary_round_aux_signed.
Qed.

Lemma mul_nonnegative_positive (x c : float) :
  nonnegative x -> positive_finite c -> nonnegative (x * c).
Proof.
  intros Hx (mc & ec & Hc). revert Hx. unfold nonnegative. rewrite mul_spec, Hc.
  unfold SF64mul, SFmul.
  destruct (Prim2SF x) as [sx|sx| |sx mx ex]; try (destruct sx);
    try (cbn [xorb]; tauto); intros _.
  assert (Hpos : (0 <= Zpos (mx * mc))%Z) by lia.
  pose proof (binary_round_aux_signed false _ (ex + ec) loc_Exact Hpos) as Hs.
  cbn [xorb]. destruct (binary_round_aux _ _ _ _ _ _) as [s|s| |s m e];
    cbn in Hs; try (rewrite Hs); auto.
Qed.

Lemma SFdiv_core_binary_nonneg (mx my : positive) (ex ey : Z) :
  (0 <= fst (fst (SFdiv_core_binary prec emax (Zpos mx) ex (Zpos my) ey)))%Z.
Proof.
  unfold SFdiv_core_binary.
  match goal with |- context [Z.div_eucl ?a ?b] =>
    assert (Ha : (0 <= a)%Z);
    [| pose proof (Z.div_pos a b Ha ltac:(lia)) as Hq;
       unfold Z.div in Hq; destruct (Z.div_eucl a b) as [q r]; exact Hq ]
  end.
  destruct (Z.sub _ _) as [|s|s]; try lia.
  apply Z.shiftl_nonneg. lia.
Qed.

(** The quotient of a number by a positive finite number: a number, and
    not negative when the dividend is not. *)
Lemma div_positive_a_number (x c : float) :
  a_number x -> positive_finite c -> a_number (x / c).
Proof.
  unfold a_number. intros Hx (mc & ec & Hc). rewrite FloatAxioms.div_spec, Hc.
  unfold SF64div, SFdiv.
  destruct (Prim2SF x) as [sx|sx| |sx mx ex]; try congruence; try discriminate.
  pose proof (SFdiv_core_binary_nonneg mx mc ex ec) as Hq.
  destruct (SFdiv_core_binary _ _ _ _ _ _) as [[mz ez] lz]. cbn [fst] in Hq.
  pose proof (binary_round_aux_signed (xorb sx false) mz ez lz Hq) as Hs.
  destruct (binary_round_aux _ _ _ _ _ _); cbn in Hs; congruence.
Qed.

Lemma div_nonnegative_positive (x c : float) :
  nonnegative x -> positive_finite c -> nonnegative (x / c).
Proof.
  intros Hx (mc & ec & Hc). revert Hx. unfold nonnegative. rewrite FloatAxioms.div_spec, Hc.
  unfold SF64div, SFdiv.
  destruct (Prim2SF x) as [sx|sx| |sx mx ex]; try (destruct sx);
    try (cbn [xorb]; tauto); intros _.
  pose proof (SFdiv_core_binary_nonneg mx mc ex ec) as Hq.
  destruct (SFdiv_core_binary _ _ _ _ _ _) as [[mz ez] lz]. cbn [fst] in Hq.
  pose proof (binary_round_aux_signed (xorb false false) mz ez lz Hq) as Hs.
  destruct (binary_round_aux _ _ _ _ _ _) as [s|s| |s m e];
    cbn in Hs; try (rewrite Hs); auto.
Qed.

Lemma SFsqrt_core_binary_nonneg (m : positive) (e : Z) :
  (0 <= fst (fst (SFsqrt_core_binary prec emax (Zpos m) e)))%Z.
Proof.
  unfold SFsqrt_core_binary.
  match goal with |- context [Z.sqrtrem ?a] =>
    pose proof (Z.sqrtrem_sqrt a) as Hs; pose proof (Z.sqrt_nonneg a) as Hn;
    destruct (Z.sqrtrem a) as [q r]; cbn [fst] in *; lia
  end.
Qed.

(** The square root of a float that is not negative is a number. *)
Lemma sqrt_nonnegative (x : float) : nonnegative x -> nonnegative (PrimFloat.sqrt x).
Proof.
  unfold nonnegative. rewrite FloatAxioms.sqrt_spec. unfold SF64sqrt, SFsqrt.
  destruct (Prim2SF x) as [sx|sx| |sx mx ex]; try (destruct sx); try tauto.
  intros _.
  pose proof (SFsqrt_core_binary_nonneg mx ex) as Hq.
  destruct (SFsqrt_core_binary _ _ _ _) as [[mz ez] lz]. cbn [fst] in Hq.
  pose proof (binary_round_aux_signed false mz ez lz Hq) as Hs.
  destruct (binary_round_aux _ _ _ _ _ _) as [s|s| |s m e];
    cbn in Hs; try (rewrite Hs); auto.
Qed.

(** ** The accumulators over finite samples *)

Lemma push_finite (acc : accumulators.accumulator_set float) (x : float) :
  (Z.of_nat (accumulators.count acc) + 1 < 2 ^ 53)%Z ->
  a_number (accumulators.sum acc) ->
  nonnegative (accumulators.variance acc) ->
  PrimFloat.is_finite x = true ->
  a_number (accumulators.sum (accumulators.push acc x))
  /\ nonnegative (accumulators.variance (accumulators.push acc x)).
Proof.
  intros Hn Hs Hv Hx. split.
  - rewrite sum_push. now apply add_finite_a_number.
  - unfold accumulators.push.
    destruct (Nat.ltb 1 (S (accumulators.count acc))) eqn:Hlt; [|exact Hv].
    apply Nat.ltb_lt in Hlt.
    cbn [accumulators.variance accumulators.sum accumulators.count
         accumulators.mean accumulators.add accumulators.sub accumulators.mul
         accumulators.div accumulators.of_count accumulators.double_Sample].
    assert (Hc : positive_finite
                   (accumulators.double_of_count (S (accumulators.count acc))))
      by (apply double_of_count_positive; lia).
    assert (Hc1 : positive_finite
                    (accumulators.double_of_count (S (accumulators.count acc) - 1)))
      by (apply double_of_count_positive; lia).
    apply add_nonnegative.
    + apply div_nonnegative_positive; [|exact Hc].
      now apply mul_nonnegative_positive.
    + apply div_nonnegative_positive; [|exact Hc1].
      apply square_a_number, sub_finite_a_number; [exact Hx|].
      apply div_positive_a_number; [|exact Hc].
      now apply add_finite_a_number.
Qed.

Lemma push_all_finite (xs : list float) :
  forallb PrimFloat.is_finite xs = true ->
  forall acc,
    (Z.of_nat (accumulators.count acc) + Z.of_nat (List.length xs) < 2 ^ 53)%Z ->
    a_number (accumulators.sum acc) ->
    nonnegative (accumulators.variance acc) ->
    a_number (accumulators.sum (fold_left accumulators.push xs acc))
    /\ nonnegative (accumulators.variance (fold_left accumulators.push xs acc)).
Proof.
  induction xs as [|x xs IH]; intros Hfin acc Hn Hs Hv; [now split|].
  cbn [forallb] in Hfin. apply andb_true_iff in Hfin as [Hx Hxs].
  cbn [List.length] in Hn. cbn [fold_left].
  destruct (push_finite acc x) as [Hs' Hv']; try assumption; [lia|].
  apply IH; try assumption. rewrite count_push. lia.
Qed.

Lemma accumulate_finite (xs : list float) :
  forallb PrimFloat.is_finite xs = true ->
  (Z.of_nat (List.length xs) < 2 ^ 53)%Z ->
  nonnegative (stdev_of xs)
  /\ (xs <> [] -> a_number (mean_of xs)).
Proof.
  intros Hfin Hn.
  destruct (push_all_finite xs Hfin accumulators.empty) as [Hs Hv];
    [cbn; lia | cbn; discriminate | exact I |].
  split.
  - apply sqrt_nonnegative. exact Hv.
  - intros Hne. rewrite <- mean_accumulate. unfold accumulators.mean.
    cbn [accumulators.div accumulators.of_count accumulators.double_Sample].
    apply div_positive_a_number; [exact Hs|].
    apply double_of_count_positive. unfold accumulate.
    rewrite count_push_all. cbn [accumulators.count accumulators.empty].
    destruct xs; [congruence | cbn [List.length] in *; lia].
Qed.

(** X8. Finite errors give statistics that are numbers.  When the error
    of every measurement is finite and there are fewer than 2^53
    measurements, both standard deviations that [compareToMeasurements]
    returns are zero or positive, never a NaN (the variance it keeps is a sum
    of quotients that are not negative), and over at least one measurement
    both means are numbers. *)
Theorem compareToMeasurements_finite_errors
    `{G : DH.LinkGeometry} `{L : Libm} {C : Type}
    (initial_camera_chain initial_target_chain camera_chain target_chain : DH.DHChain)
    (result : KinematicCalibrationResult C)
    (measurements : list KinematicMeasurement) :
  DH.withOffsets initial_camera_chain (camera_chain_dh_offsets result)
  = Return camera_chain ->
  DH.withOffsets initial_target_chain (target_chain_dh_offsets result)
  = Return target_chain ->
  forallb PrimFloat.is_finite
    (map (translation_error camera_chain target_chain result) measurements) = true ->
  forallb PrimFloat.is_finite
    (map (rotation_error camera_chain target_chain result) measurements) = true ->
  (Z.of_nat (List.length measurements) < 2 ^ 53)%Z ->
  exists stats,
    compareToMeasurements initial_camera_chain initial_target_chain result measurements
    = Return stats
    /\ PrimFloat.leb 0 (pos_stdev stats) = true
    /\ PrimFloat.leb 0 (rot_stdev stats) = true
    /\ (measurements <> [] ->
        PrimFloat.is_nan (pos_mean stats) = false
        /\ PrimFloat.is_nan (rot_mean stats) = false).
Proof.
  intros Hcc Htc Hpos Hrot Hn. unfold compareToMeasurements.
  rewrite Hcc, Htc. cbn [bind]. rewrite compare_loop. cbn [fst snd].
  eexists. split; [reflexivity|].
  cbn [pos_stdev rot_stdev pos_mean rot_mean].
  destruct (accumulate_finite _ Hpos) as [Hps Hpm]; [now rewrite length_map|].
  destruct (accumulate_finite _ Hrot) as [Hrs Hrm]; [now rewrite length_map|].
  split; [now apply leb_zero_nonnegative|].
  split; [now apply leb_zero_nonnegative|].
  intros Hne.
  assert (Hmap : forall (f : KinematicMeasurement -> float), map f measurements <> []).
  { intros f. destruct measurements; [congruence | discriminate]. }
  split; apply a_number_is_nan.
  - rewrite <- mean_accumulate in Hpm. apply Hpm, Hmap.
  - rewrite <- mean_accumulate in Hrm. apply Hrm, Hmap.
Qed.

Lemma compareToMeasurements_finite_errors_witness :
  exists stats,
    fixture.validation = Return stats
    /\ PrimFloat.leb 0 (pos_stdev stats) = true
    /\ PrimFloat.leb 0 (rot_stdev stats) = true
    /\ PrimFloat.is_nan (pos_mean stats) = false
    /\ PrimFloat.is_nan (rot_mean stats) = false.
Proof.
  destruct (@compareToMeasurements_finite_errors fixture.geometry fixture.libm unit
              fixture.camera_chain fixture.target_chain
              fixture.camera_chain fixture.target_chain
              fixture.result [fixture.measurement])
    as (stats & Hs & Hp & Hr & Hm);
    try (vm_compute; reflexivity).
  exists stats. split; [exact Hs|]. split; [exact Hp|]. split; [exact Hr|].
  apply Hm. discriminate.
Defined.

Lemma variance_of_one_sample (x : float) :
  PrimFloat.sqrt
    (accumulators.variance (accumulators.push accumulators.empty x)) = 0%float.
Proof. reflexivity. Qed.

Lemma is_zero_of_spec (x : float) (s : bool) :
  Prim2SF x = S754_zero s -> PrimFloat.is_zero x = true.
Proof.
  intros Hx. unfold PrimFloat.is_zero. rewrite FloatAxioms.eqb_spec, Hx.
  change (Prim2SF PrimFloat.zero) with (S754_zero false). reflexivity.
Qed.

(** X9. One measurement is not enough for a comparison: over a single
    measurement both standard deviations that [compareToMeasurements]
    returns are exactly 0, whatever the measurement, so [percentDiff] of
    these statistics prints no finite number for either standard deviation,
    whatever they are compared with. *)
Theorem compareToMeasurements_single_measurement
    `{G : DH.LinkGeometry} `{L : Libm} {C : Type}
    (initial_camera_chain initial_target_chain camera_chain target_chain : DH.DHChain)
    (result : KinematicCalibrationResult C) (m : KinematicMeasurement) :
  DH.withOffsets initial_camera_chain (camera_chain_dh_offsets result)
  = Return camera_chain ->
  DH.withOffsets initial_target_chain (target_chain_dh_offsets result)
  = Return target_chain ->
  exists stats,
    compareToMeasurements initial_camera_chain initial_target_chain result [m]
    = Return stats
    /\ pos_stdev stats = 0%float
    /\ rot_stdev stats = 0%float
    /\ forall other,
        PrimFloat.is_finite (nth 1 (numbers (percentDiff stats other)) 0%float) = false
        /\ PrimFloat.is_finite (nth 3 (numbers (percentDiff stats other)) 0%float) = false.
Proof.
  intros Hcc Htc. unfold compareToMeasurements.
  rewrite Hcc, Htc. cbn [bind fold_left compare_step fst snd].
  eexists. split; [reflexivity|].
  cbn [pos_stdev rot_stdev]. rewrite !variance_of_one_sample.
  split; [reflexivity|]. split; [reflexivity|].
  intros other. rewrite numbers_percentDiff.
  cbn [statistics combine map nth fst snd pos_stdev rot_stdev]. unfold percent_of.
  split; now apply div_by_zero_not_finite.
Qed.

Lemma compareToMeasurements_single_measurement_witness :
  exists stats,
    fixture.validation = Return stats
    /\ pos_stdev stats = 0%float
    /\ rot_stdev stats = 0%float.
Proof.
  destruct (@compareToMeasurements_single_measurement fixture.geometry fixture.libm unit
              fixture.camera_chain fixture.target_chain
              fixture.camera_chain fixture.target_chain
              fixture.result fixture.measurement)
    as (stats & Hs & Hp & Hr & _);
    try (vm_compute; reflexivity).
  exists stats. split; [exact Hs|]. split; [exact Hp | exact Hr].
Defined.

Lemma zero_percent (x : float) :
  PrimFloat.is_finite x = true ->
  PrimFloat.is_zero x = false ->
  PrimFloat.is_zero (percent_of x x) = true.
Proof.
  intros Hfin Hz. unfold percent_of. rewrite (sub_self x Hfin).
  change (100 * 0)%float with 0%float.
  destruct (is_finite_spec x Hfin) as [[s Hx] | (s & m & e & Hx)].
  - now rewrite (is_zero_of_spec x s Hx) in Hz.
  - apply (is_zero_of_spec _ (xorb false s)).
    rewrite FloatAxioms.div_spec, Hx. reflexivity.
Qed.

(** X10. Compared with itself, a [Stats] differs by nothing: for each of
    its statistics that is finite and not zero, [percentDiff] prints a
    zero. *)
Theorem percentDiff_of_itself (this : Stats) (k : nat) :
  k < 4 ->
  PrimFloat.is_finite (nth k (statistics this) 0%float) = true ->
  PrimFloat.is_zero (nth k (statistics this) 0%float) = false ->
  PrimFloat.is_zero (nth k (numbers (percentDiff this this)) 1%float) = true.
Proof.
  intros Hk Hfin Hz. rewrite numbers_percentDiff.
  destruct this as [a1 a2 a3 a4].
  do 4 (destruct k as [|k]; [cbn in *; now apply zero_percent|]).
  lia.
Qed.

Lemma percentDiff_of_itself_witness :
  PrimFloat.is_zero
    (nth 0 (numbers (percentDiff (mkStats 2 1 3 1) (mkStats 2 1 3 1))) 1%float) = true.
Proof.
  apply (percentDiff_of_itself (mkStats 2 1 3 1) 0); [lia | reflexivity | reflexivity].
Defined.

(** ** The translation of a loaded pose *)

Lemma iter_shr_1_xO (k : nat) :
  forall m : positive,
    Nat.iter k shr_1 (Build_shr_record (Zpos (Nat.iter k xO m)) false false)
    = Build_shr_record (Zpos m) false false.
Proof.
  induction k as [|k IH]; intros m; [reflexivity|].
  rewrite Nat.iter_succ_r. cbn [Nat.iter]. cbn [shr_1 orb]. apply IH.
Qed.

Lemma digits2_pos_iter (m : positive) (k : nat) :
  Zpos (digits2_pos (Nat.iter k xO m)) = (Zpos (digits2_pos m) + Z.of_nat k)%Z.
Proof.
  induction k as [|k IH]; [cbn; lia|].
  rewrite Nat.iter_succ. cbn [digits2_pos]. rewrite Pos2Z.inj_succ, IH. lia.
Qed.

(** Multiplying by 1 changes nothing. *)
Lemma mul_1_l (x : float) : (1 * x = x)%float.
Proof.
  apply Prim2SF_inj. rewrite mul_spec.
  change (Prim2SF 1) with (S754_finite false 4503599627370496 (-52)).
  pose proof (Prim2SF_valid x) as Hv.
  destruct (Prim2SF x) as [s | s | | s m e]; try reflexivity.
  unfold SF64mul, SFmul. cbn [xorb].
  cbn [valid_binary] in Hv. unfold bounded in Hv.
  apply andb_true_iff in Hv as [Hc He].
  unfold canonical_mantissa in Hc. apply Z.eqb_eq in Hc. apply Z.leb_le in He.
  change (4503599627370496 * m)%positive with (Nat.iter 52 xO m).
  pose proof (digits2_pos_iter m 52) as Hd. cbn [Z.of_nat Pos.of_succ_nat Pos.succ] in Hd.
  unfold binary_round_aux, shr_fexp. cbn [Zdigits2 shr_record_of_loc].
  rewrite Hd.
  replace (Zpos (digits2_pos m) + 52 + (-52 + e))%Z with (Zpos (digits2_pos m) + e)%Z by lia.
  rewrite Hc.
  replace (e - (-52 + e))%Z with 52%Z by lia.
  cbn [shr].
  change (SpecFloat.iter_pos shr_1 52 ?r) with (Nat.iter 52 shr_1 r).
  rewrite iter_shr_1_xO.
  cbn [shr_m loc_of_shr_record round_nearest_even Zdigits2 shr_record_of_loc].
  replace (-52 + e + 52)%Z with e by lia.
  rewrite Hc, Z.sub_diag. cbn [shr shr_m].
  apply Z.leb_le in He. now rewrite He.
Qed.

Lemma mul_0_l_finite (y : float) :
  PrimFloat.is_finite y = true -> exists s, Prim2SF (0 * y) = S754_zero s.
Proof.
  intros Hy. rewrite mul_spec. change (Prim2SF 0) with (S754_zero false).
  destruct (is_finite_spec y Hy) as [[s ->] | (s & m & e & ->)]; cbn; eauto.
Qed.

Lemma same_value_refl (a : float) : same_value a a.
Proof. now left. Qed.

(** Adding a zero changes no value. *)
Lemma add_zero_r (a' a z : float) (s : bool) :
  same_value a' a -> Prim2SF z = S754_zero s -> same_value (a' + z) a.
Proof.
  unfold same_value. intros Ha Hz. rewrite add_spec, Hz. unfold SF64add, SFadd.
  destruct Ha as [Ha | (s1 & s2 & Ha' & Ha)].
  - rewrite Ha. destruct (Prim2SF a) as [sa | sa | | sa m e]; auto.
    right. destruct sa, s; eauto.
  - rewrite Ha', Ha. right. destruct s1, s; eauto.
Qed.

Lemma add_zero_l (a' a z : float) (s : bool) :
  Prim2SF z = S754_zero s -> same_value a' a -> same_value (z + a') a.
Proof.
  unfold same_value. intros Hz Ha. rewrite add_spec, Hz. unfold SF64add, SFadd.
  destruct Ha as [Ha | (s1 & s2 & Ha' & Ha)].
  - rewrite Ha. destruct (Prim2SF a) as [sa | sa | | sa m e]; auto.
    right. destruct sa, s; eauto.
  - rewrite Ha', Ha. right. destruct s, s1; eauto.
Qed.

(** For numbers, to have the same value is to compare equal. *)
Lemma same_value_eqb (a b : float) :
  same_value a b -> a_number b -> PrimFloat.eqb a b = true.
Proof.
  intros Hab Hb. rewrite FloatAxioms.eqb_spec.
  destruct Hab as [-> | (s & s' & -> & ->)]; [|reflexivity].
  apply a_number_is_nan in Hb. unfold PrimFloat.is_nan in Hb.
  rewrite FloatAxioms.eqb_spec in Hb. now destruct (SFeqb _ _).
Qed.

(** A row of the identity picks one term of the product. *)
Lemma dot3_first (a b c : float) :
  PrimFloat.is_finite b = true -> PrimFloat.is_finite c = true ->
  same_value (dot3 1 a 0 b 0 c) a.
Proof.
  intros Hb Hc. destruct (mul_0_l_finite _ Hb) as [sb Zb].
  destruct (mul_0_l_finite _ Hc) as [sc Zc].
  unfold dot3. rewrite mul_1_l.
  apply (add_zero_r _ _ _ sc); [|exact Zc].
  apply (add_zero_r _ _ _ sb); [|exact Zb]. apply same_value_refl.
Qed.

Lemma dot3_second (a b c : float) :
  PrimFloat.is_finite a = true -> PrimFloat.is_finite c = true ->
  same_value (dot3 0 a 1 b 0 c) b.
Proof.
  intros Ha Hc. destruct (mul_0_l_finite _ Ha) as [sa Za].
  destruct (mul_0_l_finite _ Hc) as [sc Zc].
  unfold dot3. rewrite mul_1_l.
  apply (add_zero_r _ _ _ sc); [|exact Zc].
  apply (add_zero_l _ _ _ sa Za). apply same_value_refl.
Qed.

Lemma dot3_third (a b c : float) :
  PrimFloat.is_finite a = true -> PrimFloat.is_finite b = true ->
  same_value (dot3 0 a 0 b 1 c) c.
Proof.
  intros Ha Hb. destruct (mul_0_l_finite _ Ha) as [sa Za].
  destruct (mul_0_l_finite _ Hb) as [sb Zb].
  unfold dot3. rewrite mul_1_l.
  assert (Hs : exists s, Prim2SF (0 * a + 0 * b) = S754_zero s).
  { rewrite add_spec, Za, Zb. destruct sa, sb; cbn; eauto. }
  destruct Hs as [s Hs].
  apply (add_zero_l _ _ _ s Hs). apply same_value_refl.
Qed.

(** The translation of the identity translated by a finite vector has the
    values of the vector. *)
Lemma translate_Identity (v : Vector3d) :
  PrimFloat.is_finite (vx v) = true ->
  PrimFloat.is_finite (vy v) = true ->
  PrimFloat.is_finite (vz v) = true ->
  let t := translation (translate Isometry3d_Identity v) in
  same_value (vx t) (vx v) /\ same_value (vy t) (vy v) /\ same_value (vz t) (vz v).
Proof.
  intros Hx Hy Hz.
  cbn [translate translation linear Isometry3d_Identity Matrix3d_Identity addV mulMV
       vx vy vz m00 m01 m02 m10 m11 m12 m20 m21 m22].
  repeat split; apply (add_zero_l _ _ 0 false eq_refl).
  - now apply dot3_first.
  - now apply dot3_second.
  - now apply dot3_third.
Qed.

(** The identity times a matrix of finite coefficients has the values of
    the matrix. *)
Lemma mulMM_Identity (a : Matrix3d) :
  forallb PrimFloat.is_finite (coefficients a) = true ->
  Forall2 same_value (coefficients (mulMM Matrix3d_Identity a)) (coefficients a).
Proof.
  cbn [coefficients forallb]. rewrite !andb_true_iff.
  intros (H00 & H01 & H02 & H10 & H11 & H12 & H20 & H21 & H22 & _).
  cbn [mulMM Matrix3d_Identity m00 m01 m02 m10 m11 m12 m20 m21 m22].
  repeat (apply Forall2_cons;
          [first [ now apply dot3_first | now apply dot3_second
                 | now apply dot3_third ] |]).
  apply Forall2_nil.
Qed.

(** X11. The position of a loaded pose is the position written in the
    file: for every record of a well-formed file whose x, y and z are
    finite, the three coordinates of the translation of the stored pose
    compare equal to x, y and z. *)
Theorem loadMeasurements_keeps_translation `{Cv : YAML.Convert} (doc : YAML.Node) :
  well_formed_file doc = true ->
  exists ms,
    loadMeasurements (Return doc) = Return ms
    /\ forall i r,
        nth_error (records doc) i = Some r ->
        finite_translation r = true ->
        exists meas,
          nth_error ms i = Some meas
          /\ PrimFloat.eqb (vx (translation (camera_to_target meas)))
                           (pose_number r "x") = true
          /\ PrimFloat.eqb (vy (translation (camera_to_target meas)))
                           (pose_number r "y") = true
          /\ PrimFloat.eqb (vz (translation (camera_to_target meas)))
                           (pose_number r "z") = true.
Proof.
  intros Hwf. exists (map measurement_of (records doc)).
  split; [now apply loadMeasurements_records|].
  intros i r Hr Hfin. exists (measurement_of r).
  split; [now apply map_nth_error|].
  unfold finite_translation in Hfin. rewrite !andb_true_iff in Hfin.
  destruct Hfin as [[Hx Hy] Hz].
  destruct (translate_Identity (pose_translation r) Hx Hy Hz) as (Sx & Sy & Sz).
  cbn [measurement_of camera_to_target rotate rotateM translation].
  repeat split; apply same_value_eqb; try assumption; now apply finite_a_number.
Qed.

Lemma loadMeasurements_keeps_translation_witness :
  exists ms meas,
    @loadMeasurements fixture.convert (Return fixture.file) = Return ms
    /\ nth_error ms 0 = Some meas
    /\ PrimFloat.eqb (vx (translation (camera_to_target meas))) 1 = true
    /\ PrimFloat.eqb (vy (translation (camera_to_target meas))) 2 = true
    /\ PrimFloat.eqb (vz (translation (camera_to_target meas))) 0.5 = true.
Proof.
  destruct (@loadMeasurements_keeps_translation fixture.convert fixture.file eq_refl)
    as [ms [Hload Hall]].
  destruct (Hall 0 _ eq_refl eq_refl) as (meas & Hnth & Hx & Hy & Hz).
  exists ms, meas. repeat split; assumption.
Defined.

(** X12. The orientation of a loaded pose is Eigen's matrix of the
    quaternion written in the file: for every record of a well-formed file
    for which that matrix has finite coefficients, the nine coefficients of
    the linear part of the stored pose compare equal to its coefficients. *)
Theorem loadMeasurements_keeps_rotation_matrix `{Cv : YAML.Convert} (doc : YAML.Node) :
  well_formed_file doc = true ->
  exists ms,
    loadMeasurements (Return doc) = Return ms
    /\ forall i r,
        nth_error (records doc) i = Some r ->
        finite_rotation r = true ->
        exists meas,
          nth_error ms i = Some meas
          /\ Forall2 (fun a b => PrimFloat.eqb a b = true)
               (coefficients (linear (camera_to_target meas)))
               (coefficients (toRotationMatrix (pose_quaternion r))).
Proof.
  intros Hwf. exists (map measurement_of (records doc)).
  split; [now apply loadMeasurements_records|].
  intros i r Hr Hfin. exists (measurement_of r).
  split; [now apply map_nth_error|].
  cbn [measurement_of camera_to_target rotate rotateM translate linear
       Isometry3d_Identity].
  unfold finite_rotation in Hfin.
  pose proof (mulMM_Identity _ Hfin) as Hsame.
  rewrite forallb_forall in Hfin.
  revert Hsame Hfin.
  generalize (coefficients (toRotationMatrix (pose_quaternion r))).
  generalize (coefficients (mulMM Matrix3d_Identity (toRotationMatrix (pose_quaternion r)))).
  induction 1 as [|a b la lb Hab _ IH]; intros Hfin; constructor.
  - apply same_value_eqb; [exact Hab|]. apply finite_a_number, Hfin. now left.
  - apply IH. intros x Hx. apply Hfin. now right.
Qed.

Lemma loadMeasurements_keeps_rotation_matrix_witness :
  exists ms meas,
    @loadMeasurements fixture.convert (Return fixture.file) = Return ms
    /\ nth_error ms 1 = Some meas
    /\ Forall2 (fun a b => PrimFloat.eqb a b = true)
         (coefficients (linear (camera_to_target meas)))
         (coefficients (toRotationMatrix (mkQuat 0 2 0 0))).
Proof.
  destruct (@loadMeasurements_keeps_rotation_matrix fixture.convert fixture.file eq_refl)
    as [ms [Hload Hall]].
  destruct (Hall 1 _ eq_refl eq_refl) as (meas & Hnth & Hlin).
  exists ms, meas. repeat split; assumption.
Defined.

(** ** [types.h]: [Observation] and [KinematicMeasurement] *)

Import types validation_statements.

Lemma vector_eq_length {A} (eq : A -> A -> bool) (xs ys : list A) :
  vector_eq eq xs ys = true -> List.length xs = List.length ys.
Proof.
  revert ys. induction xs as [|x xs IH]; intros [|y ys]; cbn [vector_eq];
    try discriminate; [reflexivity|].
  rewrite andb_true_iff. intros [_ H]. cbn [List.length]. now rewrite (IH ys H).
Qed.

Lemma Isometry3d_isApprox_self (t : Isometry3d) :
  finite_isometry t = true -> Isometry3d_isApprox t t = true.
Proof. apply isApproxCoeffs_self. Qed.

Lemma isApprox_self (v : VectorXd) :
  forallb PrimFloat.is_finite v = true -> isApprox v v = Some true.
Proof.
  intros Hv. unfold isApprox. now rewrite Nat.eqb_refl, isApproxCoeffs_self.
Qed.

(** X13. [Observation::operator==] holds between an observation and itself
    when every coefficient of its two transforms and of its correspondences
    is finite. *)
Theorem Observation_eq_reflexive_on_finite {N M : nat} (a : Observation N M) :
  finite_observation a = true -> Observation_eq a a = true.
Proof.
  unfold finite_observation, Observation_eq. rewrite !andb_true_iff.
  intros [[Hc Ht] Hcs]. repeat split.
  - now apply Isometry3d_isApprox_self.
  - now apply Isometry3d_isApprox_self.
  - apply vector_eq_self. intros c Hin. apply Correspondence_eq_self.
    rewrite forallb_forall in Hcs. now apply Hcs.
Qed.

Lemma Observation_eq_reflexive_on_finite_witness :
  Observation_eq samples.observation samples.observation = true.
Proof.
  apply (Observation_eq_reflexive_on_finite samples.observation).
  vm_compute. reflexivity.
Defined.

(** X14. Unlike that of [KinematicObservation], [Observation::operator==]
    reads the correspondences of its right operand: two observations with
    different numbers of correspondences are never equal. *)
Theorem Observation_eq_compares_correspondences {N M : nat} (a b : Observation N M) :
  List.length (correspondence_set a) <> List.length (correspondence_set b) ->
  Observation_eq a b = false.
Proof.
  intros Hlen. unfold Observation_eq.
  destruct (vector_eq Correspondence_eq (correspondence_set a) (correspondence_set b))
    eqn:Heq.
  - now apply vector_eq_length in Heq.
  - apply andb_false_r.
Qed.

Lemma Observation_eq_compares_correspondences_witness :
  Observation_eq samples.observation samples.empty_observation = false.
Proof.
  apply (Observation_eq_compares_correspondences
           samples.observation samples.empty_observation).
  cbn. discriminate.
Defined.

(** X15. [KinematicMeasurement::operator==] holds between a measurement
    and itself when every coefficient of its pose and of its joint vectors
    is finite; joint vectors of size zero are no exception. *)
Theorem KinematicMeasurement_eq_reflexive_on_finite (m : KinematicMeasurement) :
  finite_measurement m = true -> KinematicMeasurement_eq m m = Some true.
Proof.
  unfold finite_measurement, KinematicMeasurement_eq. rewrite !andb_true_iff.
  intros [[Hp Hc] Ht].
  rewrite (Isometry3d_isApprox_self _ Hp), (isApprox_self _ Hc), (isApprox_self _ Ht).
  reflexivity.
Qed.

Lemma KinematicMeasurement_eq_reflexive_on_finite_witness :
  KinematicMeasurement_eq fixture.measurement fixture.measurement = Some true.
Proof.
  apply (KinematicMeasurement_eq_reflexive_on_finite fixture.measurement).
  vm_compute. reflexivity.
Defined.

(** X16. Measurements of chains with different numbers of joints are not
    simply unequal: when the joint vectors of the camera chain differ in
    size, [KinematicMeasurement::operator==] is false if the poses are not
    approximately equal, and otherwise runs into the comparison of two
    vectors of different sizes, which Eigen does not define. *)
Theorem KinematicMeasurement_eq_different_sizes (a b : KinematicMeasurement) :
  List.length (camera_chain_joints a) <> List.length (camera_chain_joints b) ->
  KinematicMeasurement_eq a b
  = if Isometry3d_isApprox (camera_to_target a) (camera_to_target b)
    then None else Some false.
Proof.
  intros Hlen. unfold KinematicMeasurement_eq, isApprox.
  apply Nat.eqb_neq in Hlen. rewrite Hlen.
  now destruct (Isometry3d_isApprox _ _).
Qed.

Lemma KinematicMeasurement_eq_different_sizes_witness :
  KinematicMeasurement_eq fixture.measurement
    (mkKinematicMeasurement (camera_to_target fixture.measurement) [1%float] [])
  = None.
Proof.
  apply (KinematicMeasurement_eq_different_sizes fixture.measurement
           (mkKinematicMeasurement (camera_to_target fixture.measurement) [1%float] [])).
  cbn. discriminate.
Defined.

(** X17. [CameraIntrinsics::operator==] compares exactly, so it holds
    between intrinsics and themselves if and only if none of the four values
    is a NaN. *)
Theorem CameraIntrinsics_eq_reflexive_iff_no_nan (a : CameraIntrinsics) :
  CameraIntrinsics_eq a a = true
  <-> PrimFloat.is_nan (fx a) || PrimFloat.is_nan (fy a)
      || PrimFloat.is_nan (cx a) || PrimFloat.is_nan (cy a) = false.
Proof.
  unfold CameraIntrinsics_eq, PrimFloat.is_nan.
  destruct (PrimFloat.eqb (fx a) (fx a)), (PrimFloat.eqb (fy a) (fy a)),
    (PrimFloat.eqb (cx a) (cx a)), (PrimFloat.eqb (cy a) (cy a));
    cbn; split; congruence.
Qed.

(** ** [camera_intrinsic_calibration_validation.cpp] *)

Import camera_intrinsic_calibration_validation.

Lemma is_nan_spec (x : float) : PrimFloat.is_nan x = true -> Prim2SF x = S754_nan.
Proof.
  intros Hx. destruct (Prim2SF x) as [s|s| |s m e] eqn:Hs; try reflexivity;
    assert (Ha : a_number x) by (unfold a_number; congruence);
    apply a_number_is_nan in Ha; congruence.
Qed.

Lemma ltb_nan_r (t x : float) : Prim2SF x = S754_nan -> PrimFloat.ltb t x = false.
Proof.
  intros Hx. rewrite ltb_spec, Hx. unfold SFltb, SFcompare.
  now destruct (Prim2SF t).
Qed.

Lemma ltb_nan_l (t x : float) : Prim2SF t = S754_nan -> PrimFloat.ltb t x = false.
Proof. intros Ht. rewrite ltb_spec, Ht. reflexivity. Qed.

Lemma add_nan_l (a b : float) : Prim2SF a = S754_nan -> Prim2SF (a + b) = S754_nan.
Proof. intros Ha. rewrite add_spec, Ha. reflexivity. Qed.

Lemma add_nan_r (a b : float) : Prim2SF b = S754_nan -> Prim2SF (a + b) = S754_nan.
Proof. intros Hb. rewrite add_spec, Hb. unfold SF64add, SFadd. now destruct (Prim2SF a). Qed.

Lemma mul_nan_r (a b : float) : Prim2SF b = S754_nan -> Prim2SF (a * b) = S754_nan.
Proof. intros Hb. rewrite mul_spec, Hb. unfold SF64mul, SFmul. now destruct (Prim2SF a). Qed.

(** A check with a NaN among its three numbers does not trip. *)
Lemma check_with_nan (error : float * float) (tol : float) :
  has_nan error tol = true ->
  PrimFloat.ltb tol (fst error + 2.0 * snd error) = false.
Proof.
  unfold has_nan. rewrite !orb_true_iff. intros [[H | H] | H];
    apply is_nan_spec in H.
  - now apply ltb_nan_r, add_nan_l.
  - now apply ltb_nan_r, add_nan_r, mul_nan_r.
  - now apply ltb_nan_l.
Qed.

(** X18. A NaN never fails the validation: when, for the position and for
    the angle, the mean, the standard deviation or the tolerance is a NaN,
    [analyzeResults] issues no warning and ends on the message that the
    calibration is valid. *)
Theorem analyzeResults_nan_is_valid
    (result : IntrinsicCalibrationAccuracyResult) (pos_tol ang_tol : float) :
  has_nan (pos_error result) pos_tol = true ->
  has_nan (ang_error result) ang_tol = true ->
  warnings (analyzeResults result pos_tol ang_tol) = 0
  /\ last (analyzeResults result pos_tol ang_tol) (ERROR, []) = valid.
Proof.
  intros Hp Ha. unfold analyzeResults.
  rewrite (check_with_nan _ _ Hp), (check_with_nan _ _ Ha).
  split; reflexivity.
Qed.

Lemma analyzeResults_nan_is_valid_witness :
  last (analyzeResults (mkAccuracyResult (nan, 0) (nan, 0))%float
          camera_intrinsic_calibration_validation.pos_tol
          camera_intrinsic_calibration_validation.ang_tol) (ERROR, [])
  = valid.
Proof.
  apply (analyzeResults_nan_is_valid (mkAccuracyResult (nan, 0) (nan, 0))%float);
    reflexivity.
Defined.

Section LoopOfMain.

Context {Image TargetFeatures : Type} `{F : TargetFinderPlugin Image TargetFeatures}.
Variable data_set : ExtrinsicDataSet Image.

Lemma warnings_app (l1 l2 : list Message) :
  warnings (l1 ++ l2) = warnings l1 + warnings l2.
Proof. unfold warnings. now rewrite filter_app, length_app. Qed.

Lemma detect_no_warning (image : Image) : warnings (fst (detect image)) = 0.
Proof.
  unfold detect. destruct (findTargetFeatures image) as [ex | f]; [reflexivity|].
  now destruct (Nat.eqb (size f) 0).
Qed.

Lemma skipn_nth_error {A} (l : list A) (i : nat) (x : A) :
  nth_error l i = Some x -> skipn i l = x :: skipn (S i) l.
Proof.
  revert l. induction i as [|i IH]; intros [|y l]; cbn; try discriminate.
  - now intros [= ->].
  - intros H. now rewrite (IH l H).
Qed.

Lemma skipn_nth_error_None {A} (l : list A) (i : nat) :
  nth_error l i = None -> skipn i l = [].
Proof. intros H. apply skipn_all2. now apply nth_error_None. Qed.

(** What a turn that goes on has done: an image whose [try] block went
    through gives one observation, with the pose at its index; any other
    gives one warning. *)
Lemma turn_Completed (i : nat) (image : Image)
    (log log' : list Message) (obs obs' : list (Observation 2 3)) :
  turn data_set i image (log, obs) = Completed (log', obs') ->
  (detected image = true
   /\ warnings log' = warnings log
   /\ exists pose cs,
       nth_error (tool_poses data_set) i = Some pose
       /\ obs' = obs ++ [mkObservation cs pose Isometry3d_Identity])
  \/ (detected image = false /\ warnings log' = S (warnings log) /\ obs' = obs).
Proof.
  unfold turn, detected. pose proof (detect_no_warning image) as Hw.
  destruct (detect image) as [found detected_]. cbn [fst snd] in *.
  destruct detected_ as [[msg| msg |] | target_features]; try discriminate.
  - destruct (show image) as [ex | []]; [discriminate|].
    intros [= <- <-]. right. rewrite !warnings_app, Hw. cbn. split; [reflexivity|].
    split; [lia | reflexivity].
  - destruct (nth_error (tool_poses data_set) i) as [pose|] eqn:Hpose;
      [|discriminate].
    destruct (createCorrespondences target_features) as [ex | cs]; [discriminate|].
    intros [= <- <-]. left. rewrite warnings_app, Hw.
    split; [reflexivity|]. split; [lia|]. now exists pose, cs.
Qed.

Lemma loop_Completed (rest : list Image) :
  forall (i : nat) (log log' : list Message) (obs obs' : list (Observation 2 3)),
    loop data_set i rest (log, obs) = Completed (log', obs') ->
    exists new,
      obs' = obs ++ new
      /\ map to_camera_mount new
         = map snd (filter (fun p => detected (fst p))
                           (combine rest (skipn i (tool_poses data_set))))
      /\ Forall (fun o => to_target_mount o = Isometry3d_Identity) new
      /\ List.length new + warnings log' = warnings log + List.length rest
      /\ forall k image,
          nth_error rest k = Some image ->
          detected image = true ->
          i + k < List.length (tool_poses data_set).
Proof.
  induction rest as [|image rest IH]; intros i log log' obs obs'; cbn [loop].
  - intros [= <- <-]. exists []. rewrite app_nil_r.
    repeat split; auto. intros [|k] image; discriminate.
  - destruct (turn data_set i image (log, obs)) as [[log1 obs1] | |] eqn:Hturn;
      try discriminate.
    intros Hloop. destruct (IH _ _ _ _ _ Hloop) as (new & -> & Hmounts & Hid & Hcount & Hbound).
    apply turn_Completed in Hturn
      as [(Hd & Hw & pose & cs & Hpose & ->) | (Hd & Hw & ->)].
    + exists (mkObservation cs pose Isometry3d_Identity :: new).
      rewrite <- app_assoc. split; [reflexivity|].
      rewrite (skipn_nth_error _ _ _ Hpose). cbn [combine filter fst].
      rewrite Hd. cbn [map snd to_camera_mount]. rewrite Hmounts.
      split; [reflexivity|]. split; [now constructor|].
      split; [cbn [List.length]; lia|].
      intros [|k] image' Hk Hdet.
      * apply nth_error_Some. rewrite Nat.add_0_r, Hpose. discriminate.
      * cbn in Hk. specialize (Hbound k image' Hk Hdet). lia.
    + exists new. split; [reflexivity|].
      split.
      { destruct (nth_error (tool_poses data_set) i) as [pose|] eqn:Hpose.
        - rewrite (skipn_nth_error _ _ _ Hpose). cbn [combine filter fst].
          now rewrite Hd.
        - rewrite (skipn_nth_error_None _ _ Hpose).
          rewrite Hmounts.
          assert (Hnext : skipn (S i) (tool_poses data_set) = []).
          { apply skipn_all2. apply nth_error_None in Hpose. lia. }
          rewrite Hnext. now destruct rest. }
      split; [exact Hid|]. split; [cbn [List.length]; lia|].
      intros [|k] image' Hk Hdet.
      * cbn in Hk. injection Hk as <-. congruence.
      * cbn in Hk. specialize (Hbound k image' Hk Hdet). lia.
Qed.

End LoopOfMain.

(** X19. The loop of [main] accounts for every image.  When it runs to its
    end, the observations are, in order, those of the images whose [try]
    block went through, each with the tool pose at the index of its image
    and the identity as the target mount; every other image has left one
    warning; and there was a tool pose for every image that gave an
    observation (the vector of poses is read without a check of its
    bounds). *)
Theorem observe_accounts_for_every_image
    {Image TargetFeatures : Type} `{F : TargetFinderPlugin Image TargetFeatures}
    (data_set : ExtrinsicDataSet Image)
    (log : list Message) (observations : list (Observation 2 3)) :
  observe data_set = Completed (log, observations) ->
  map to_camera_mount observations
  = map snd (filter (fun p => detected (fst p))
                    (combine (images data_set) (tool_poses data_set)))
  /\ Forall (fun o => to_target_mount o = Isometry3d_Identity) observations
  /\ List.length observations + warnings log = List.length (images data_set)
  /\ forall i image,
      nth_error (images data_set) i = Some image ->
      detected image = true ->
      i < List.length (tool_poses data_set).
Proof.
  unfold observe. intros Hloop.
  destruct (loop_Completed data_set _ _ _ _ _ _ Hloop)
    as (new & -> & Hmounts & Hid & Hcount & Hbound).
  cbn [app skipn] in *. repeat split; auto.
Qed.

Lemma observe_accounts_for_every_image_witness :
  exists log observations,
    @observe nat nat samples.finder samples.data_set = Completed (log, observations)
    /\ map to_camera_mount observations = [samples.pose 1; samples.pose 4]
    /\ warnings log = 2.
Proof.
  eexists _, _. split; [vm_compute; reflexivity|].
  destruct (@observe_accounts_for_every_image nat nat samples.finder samples.data_set
              _ _ eq_refl) as (Hm & _ & Hc & _).
  split; [exact Hm | exact (f_equal (fun n => n - 2) Hc)].
Defined.

Lemma loop_without_detection
    {Image TargetFeatures : Type} `{F : TargetFinderPlugin Image TargetFeatures}
    (data_set : ExtrinsicDataSet Image) (rest : list Image) :
  (forall image,
      In image rest ->
      ((exists msg, findTargetFeatures image = Throw (runtime_error msg))
       \/ exists target_features,
            findTargetFeatures image = Return target_features
            /\ size target_features = 0)
      /\ show image = Return tt) ->
  forall i log observations,
  exists log',
    loop data_set i rest (log, observations) = Completed (log', observations)
    /\ warnings log' = warnings log + List.length rest.
Proof.
  induction rest as [|image rest IH]; intros Hall i log observations.
  - exists log. split; [reflexivity | cbn; lia].
  - destruct (Hall image (or_introl eq_refl)) as [Hfind Hshow].
    assert (Hturn : exists msg,
               turn data_set i image (log, observations)
               = Completed
                   (log ++ [ (WARN, [ text "Image "; count i; text ": '";
                                      text msg; text "'" ]) ],
                    observations)).
    { unfold turn, detect.
      destruct Hfind as [[msg ->] | (f & -> & Hsize)].
      - exists msg. cbn [app]. now rewrite Hshow.
      - rewrite Hsize. cbn [Nat.eqb app]. eexists. now rewrite Hshow. }
    destruct Hturn as [msg Hturn]. cbn [loop]. rewrite Hturn.
    destruct (IH (fun im Hin => Hall im (or_intror Hin)) (S i)
                (log ++ [ (WARN, [ text "Image "; count i; text ": '";
                                   text msg; text "'" ]) ])
                observations) as (log' & Hloop & Hw).
    exists log'. split; [exact Hloop|].
    rewrite Hw, warnings_app. cbn. lia.
Qed.

(** X20. A data set in which no target is ever found is no error: when,
    for every image, the finder throws a [std::runtime_error] or returns no
    feature, and the window shows the image, the loop of [main] runs to its
    end with one warning per image and no observation. *)
Theorem observe_without_detection
    {Image TargetFeatures : Type} `{F : TargetFinderPlugin Image TargetFeatures}
    (data_set : ExtrinsicDataSet Image) :
  (forall image,
      In image (images data_set) ->
      ((exists msg, findTargetFeatures image = Throw (runtime_error msg))
       \/ exists target_features,
            findTargetFeatures image = Return target_features
            /\ size target_features = 0)
      /\ show image = Return tt) ->
  exists log,
    observe data_set = Completed (log, [])
    /\ warnings log = List.length (images data_set).
Proof.
  intros Hall. unfold observe.
  destruct (loop_without_detection data_set (images data_set) Hall 0 [] [])
    as (log & Hloop & Hw).
  now exists log.
Qed.

Lemma observe_without_detection_witness :
  exists log,
    @observe nat nat samples.finder (mkExtrinsicDataSet [7; 0] []) = Completed (log, [])
    /\ warnings log = 2.
Proof.
  apply (@observe_without_detection nat nat samples.finder (mkExtrinsicDataSet [7; 0] [])).
  intros image [<- | [<- | []]]; (split; [|reflexivity]).
  - left. now exists "no board"%string.
  - right. now exists 0.
Defined.


Lemma run_Completed {Image TargetFeatures XmlRpcValue : Type}
    `{Nd : Node Image TargetFeatures XmlRpcValue} (log : list Message) :
  run = Completed log ->
  exists log0 result, log = log0 ++ analyzeResults result pos_tol ang_tol.
Proof.
  unfold run.
  destruct prepare as [ex | [[[[data_set target_finder] intr] tt_] ct]];
    [discriminate|].
  destruct (observe data_set) as [[log0 observations] | |]; try discriminate.
  destruct (measureIntrinsicCalibrationAccuracy _ _ _ _ _ _)
    as [ex | result]; [discriminate|].
  intros [= <-]. now exists log0, result.
Qed.

(** X21. The exit code of the validation tool tells whether it ran, not
    whether the calibration is valid.  Whenever [main] returns, it returns
    0 after the messages of [analyzeResults], whatever these say, or -1
    after logging the text of an exception as an error. *)
Theorem main_exit_code {Image TargetFeatures XmlRpcValue : Type}
    `{Nd : Node Image TargetFeatures XmlRpcValue}
    (log : list Message) (code : Z) :
  main = Returned log code ->
  (code = 0%Z
   /\ exists log0 result, log = log0 ++ analyzeResults result pos_tol ang_tol)
  \/ (code = (-1)%Z
      /\ exists log0 ex, log = log0 ++ [ (ERROR, [ text (what ex) ]) ]).
Proof.
  unfold main. destruct run as [done | log0 ex |] eqn:Hrun; [| |discriminate].
  - intros [= <- <-]. left. split; [reflexivity|]. now apply run_Completed.
  - destruct ex as [msg | msg |]; [| |discriminate]; intros [= <- <-]; right;
      (split; [reflexivity|]).
    + now exists log0, (runtime_error msg).
    + now exists log0, (exception msg).
Qed.

(** The sample node: the positional error of 1 m is out of tolerance, the
    log ends on the warning, and the exit code is 0. *)
Lemma main_exit_code_witness :
  exists log,
    @main nat nat unit samples.node = Returned log 0
    /\ is_warning (last log valid) = true
    /\ exists log0 result, log = log0 ++ analyzeResults result pos_tol ang_tol.
Proof.
  eexists. split; [vm_compute; reflexivity|].
  split; [vm_compute; reflexivity|].
  destruct (@main_exit_code nat nat unit samples.node _ _ eq_refl)
    as [[_ H] | [H _]]; [exact H | discriminate H].
Defined.

(** Without a data set the tool stops with an error and the exit code -1. *)
Example main_without_data :
  @main nat nat unit samples.node_without_data
  = Returned
      [ (ERROR, [ text "Failed to parse data set from path = data.yaml" ]) ]
      (-1).
Proof. vm_compute. reflexivity. Qed.

(** X22. A missing parameter stops the tool before any image is looked at:
    without [data_path], or with a data set but without [target_finder],
    [main] logs that it failed to get the parameter, as an error and as its
    only message, and returns -1. *)
Theorem main_missing_parameter {Image TargetFeatures XmlRpcValue : Type}
    `{Nd : Node Image TargetFeatures XmlRpcValue} :
  getParam_string "data_path" = None
  \/ (exists data_path data_set,
         getParam_string "data_path" = Some data_path
         /\ parseFromFile data_path = Return (Some data_set)
         /\ getParam_XmlRpcValue "target_finder" = None) ->
  exists key,
    main
    = Returned [ (ERROR, [ text ("Failed to get '" ++ key ++ "' parameter") ]) ] (-1).
Proof.
  intros [Hpath | (data_path & data_set & Hpath & Hparse & Hfinder)].
  - exists "data_path"%string. unfold main, run, prepare, get.
    now rewrite Hpath.
  - exists "target_finder"%string. unfold main, run, prepare, get.
    rewrite Hpath. cbn [bind]. rewrite Hparse. cbn [bind].
    now rewrite Hfinder.
Qed.

Lemma main_missing_parameter_witness :
  exists key,
    @main nat nat unit samples.node_without_path
    = Returned [ (ERROR, [ text ("Failed to get '" ++ key ++ "' parameter") ]) ] (-1).
Proof.
  apply (@main_missing_parameter nat nat unit samples.node_without_path).
  left. reflexivity.
Defined.
